(** * Survey service: the analytics aggregator of backend/server.js

    A shallow embedding of the survey routes of [backend/server.js]
    (create survey, submit responses, basic analytics) together with
    the JavaScript run-time operations those routes rely on, and the
    properties of the aggregation that the specification states.
    Further parts cover the store and its file across requests and a
    restart, the analytics route run on a heap (what it writes, and
    where), the earlier variant of the scale loop, the keys and the
    submit handler of the object-storage backend, and the backend
    address of the front-end proxy.

    Conventions of the embedding.
    - A JavaScript number is a [number]: NaN, the two infinities, or a
      finite double carried as the rational it denotes.  Addition and
      subtraction compute the exact rational result and round it to
      the nearest double, ties to even, as IEEE 754 binary64 does
      ([to_double]); comparisons are exact.  The two zeros are not
      told apart, which no operation used here can observe.
    - A string is a sequence of code units; only code units below 256
      occur here.
    - Values coming from request bodies are JSON data, so an object
      never holds a callable own property.
    - Exceptions are explicit: every operation that can throw returns a
      [result]. *)

From Stdlib Require Import ZArith QArith String Ascii List Lia.
From Stdlib Require Qcanon.
From stdpp Require Import gmap strings list pretty.

Open Scope string_scope.
Open Scope Z_scope.

(** ** Exceptions *)

Inductive exception := TypeError | RangeError.

Inductive result (A : Type) :=
| Ok (a : A)
| Throw (e : exception).
Arguments Ok {A} a.
Arguments Throw {A} e.

Definition bind {A B} (r : result A) (k : A -> result B) : result B :=
  match r with
  | Ok a => k a
  | Throw e => Throw e
  end.

Notation "'let*' x ':=' e 'in' k" := (bind e (fun x => k))
  (at level 10, x name, e at level 100, k at level 200).

(** [arr.map(f)] with a callback that may throw: elements are visited in
    order and the first exception aborts the traversal. *)
Fixpoint map_result {A B} (f : A -> result B) (l : list A) : result (list B) :=
  match l with
  | [] => Ok []
  | x :: l' =>
      let* y := f x in
      let* ys := map_result f l' in
      Ok (y :: ys)
  end.

(** [arr.forEach] / [arr.reduce] over an accumulator that the callback
    updates; again the first exception aborts. *)
Fixpoint fold_result {A S} (f : S -> A -> result S) (l : list A) (s : S) : result S :=
  match l with
  | [] => Ok s
  | x :: l' =>
      let* s' := f s x in
      fold_result f l' s'
  end.

(** ** Numbers *)

Inductive number :=
| NaN
| PosInfinity
| NegInfinity
| Fin (q : Q).

(** An integer as a number; used on integers that are doubles (array
    lengths and indices, literals, results of [Math.round]). *)
Definition num_of_Z (z : Z) : number := Fin (inject_Z z).

Definition num_neg (a : number) : number :=
  match a with
  | NaN => NaN
  | PosInfinity => NegInfinity
  | NegInfinity => PosInfinity
  | Fin q => Fin (Qred (Qopp q))
  end.

(** Rounding of an exact result to a double (binary64: 53 significant
    bits, least exponent -1074, overflow from 2^1024 - 2^970 on).

    [round_half_even n d] is the integer nearest to [n / d], the even
    one of the two when [n / d] lies half way. *)
Definition round_half_even (n d : Z) : Z :=
  let k := Z.div n d in
  match Z.compare (2 * Z.modulo n d) d with
  | Lt => k
  | Gt => k + 1
  | Eq => if Z.even k then k else k + 1
  end.

(** [(n / d) / 2^e] as a fraction. *)
Definition scaled (n d e : Z) : Z * Z :=
  if Z.leb 0 e then (n, d * 2 ^ e) else (n * 2 ^ (- e), d).

(** The integer part of the binary logarithm of [n / d], for positive
    [n] and [d]. *)
Definition floor_log2 (n d : Z) : Z :=
  let k := Z.log2 n - Z.log2 d in
  let (N, D) := scaled n d k in
  if Z.leb D N then k else k - 1.

(** The double nearest to the positive rational [n / d]; [None] when
    the rounded value overflows.  The spacing of the doubles around
    [n / d] is [2^e]. *)
Definition round_magnitude (n d : Z) : option Q :=
  let e := Z.max (floor_log2 n d - 52) (-1074) in
  let (N, D) := scaled n d e in
  let m := round_half_even N D in
  if Z.leb 0 e then
    if Z.leb (2 ^ 1024) (m * 2 ^ e) then None else Some (inject_Z (m * 2 ^ e))
  else Some (Qred (Qmake m (Z.to_pos (2 ^ (- e))))).

Definition to_double (q : Q) : number :=
  let q' := Qred q in
  match Qnum q' with
  | Z0 => Fin (inject_Z 0)
  | Zpos n =>
      match round_magnitude (Zpos n) (Zpos (Qden q')) with
      | Some r => Fin r
      | None => PosInfinity
      end
  | Zneg n =>
      match round_magnitude (Zpos n) (Zpos (Qden q')) with
      | Some r => Fin (Qopp r)
      | None => NegInfinity
      end
  end.

Definition num_add (a b : number) : number :=
  match a, b with
  | NaN, _ | _, NaN => NaN
  | PosInfinity, NegInfinity | NegInfinity, PosInfinity => NaN
  | PosInfinity, _ | _, PosInfinity => PosInfinity
  | NegInfinity, _ | _, NegInfinity => NegInfinity
  | Fin x, Fin y => to_double (Qplus x y)
  end.

Definition num_sub (a b : number) : number := num_add a (num_neg b).

(** [a < b] and [a <= b]; every comparison with NaN is false. *)
Definition num_ltb (a b : number) : bool :=
  match a, b with
  | NaN, _ | _, NaN => false
  | _, NegInfinity => false
  | NegInfinity, _ => true
  | PosInfinity, _ => false
  | Fin _, PosInfinity => true
  | Fin x, Fin y => match Qcompare x y with Lt => true | _ => false end
  end.

Definition num_leb (a b : number) : bool :=
  match a, b with
  | NaN, _ | _, NaN => false
  | NegInfinity, _ => true
  | _, PosInfinity => true
  | _, NegInfinity => false
  | PosInfinity, Fin _ => false
  | Fin x, Fin y => match Qcompare x y with Gt => false | _ => true end
  end.

(** The integer a finite number denotes, when it denotes one. *)
Definition Q_to_Z (q : Q) : option Z :=
  if Z.eqb (Z.rem (Qnum q) (Zpos (Qden q))) 0
  then Some (Z.quot (Qnum q) (Zpos (Qden q)))
  else None.

Definition num_to_Z (n : number) : option Z :=
  match n with
  | Fin q => Q_to_Z q
  | _ => None
  end.

(** ToLength: truncate towards zero and clamp to [0, 2^53 - 1]. *)
Definition ToLength (n : number) : Z :=
  match n with
  | NaN | NegInfinity => 0
  | PosInfinity => 2 ^ 53 - 1
  | Fin q => Z.min (Z.max 0 (Z.quot (Qnum q) (Zpos (Qden q)))) (2 ^ 53 - 1)
  end.

(** What the rounding of an integer is: the integer itself up to 2^53
    in magnitude; beyond, an integer on the same side of that bound, or
    the infinity of its sign. *)
Inductive rounds_to (z : Z) : number -> Prop :=
| rounds_to_integer (m : Z) :
    (Z.abs z <= 2 ^ 53 -> m = z) ->
    (2 ^ 53 <= z -> 2 ^ 53 <= m) ->
    (z <= - 2 ^ 53 -> m <= - 2 ^ 53) ->
    rounds_to z (num_of_Z m)
| rounds_to_PosInfinity : 2 ^ 53 <= z -> rounds_to z PosInfinity
| rounds_to_NegInfinity : z <= - 2 ^ 53 -> rounds_to z NegInfinity.

(** ** Strings *)

(** WhiteSpace and LineTerminator code units below 256:
    TAB, LF, VT, FF, CR, SP and NBSP. *)
Definition is_white_space (c : ascii) : bool :=
  let n := nat_of_ascii c in
  existsb (Nat.eqb n) [9; 10; 11; 12; 13; 32; 160]%nat.

Fixpoint trimStart (s : string) : string :=
  match s with
  | EmptyString => EmptyString
  | String c s' => if is_white_space c then trimStart s' else s
  end.

Fixpoint trimEnd (s : string) : string :=
  match s with
  | EmptyString => EmptyString
  | String c s' =>
      match trimEnd s' with
      | EmptyString => if is_white_space c then EmptyString else String c EmptyString
      | t => String c t
      end
  end.

(** [String.prototype.trim] *)
Definition trim (s : string) : string := trimEnd (trimStart s).

(** [Array.prototype.indexOf] on an array of strings searched for a
    string: strict equality, first match, [-1] when there is none. *)
Fixpoint indexOf_from (l : list string) (a : string) (i : Z) : Z :=
  match l with
  | [] => -1
  | x :: l' => if String.eqb x a then i else indexOf_from l' a (i + 1)
  end.

Definition indexOf (l : list string) (a : string) : Z := indexOf_from l a 0.

(** ** Values *)

#[warnings="-register-all"]
Inductive value :=
| VUndefined
| VNull
| VBool (b : bool)
| VNum (n : number)
| VStr (s : string)
| VArr (elems : list value)
| VObj (fields : list (string * value)).

(** ToBoolean *)
Definition truthy (v : value) : bool :=
  match v with
  | VUndefined | VNull => false
  | VBool b => b
  | VNum NaN => false
  | VNum (Fin q) => negb (Qeq_bool q 0)
  | VNum _ => true
  | VStr s => negb (String.eqb s EmptyString)
  | VArr _ | VObj _ => true
  end.

(** [a || b] *)
Definition or_else (a b : value) : value := if truthy a then a else b.

(** [a ?? b] *)
Definition nullish_else (a b : value) : value :=
  match a with
  | VUndefined | VNull => b
  | _ => a
  end.

Fixpoint own_property (fields : list (string * value)) (k : string) : option value :=
  match fields with
  | [] => None
  | (k', v) :: fields' => if String.eqb k' k then Some v else own_property fields' k
  end.

(** [v.k] on a value that is neither null nor undefined, for a property
    name [k] that no built-in prototype defines (the routes read only
    [type], [options], [min], [max], [text], [answer] and [answers]). *)
Definition member (v : value) (k : string) : value :=
  match v with
  | VObj fields => default VUndefined (own_property fields k)
  | _ => VUndefined
  end.

(** [v.k]: reading a property of null or undefined throws. *)
Definition get (v : value) (k : string) : result value :=
  match v with
  | VUndefined | VNull => Throw TypeError
  | _ => Ok (member v k)
  end.

(** [v?.k] *)
Definition get_optional (v : value) (k : string) : value :=
  match v with
  | VUndefined | VNull => VUndefined
  | _ => member v k
  end.

(** [v === s] for a string literal [s] *)
Definition is_string (v : value) (s : string) : bool :=
  match v with
  | VStr s' => String.eqb s' s
  | _ => false
  end.

(** [v.trim()]: only strings have the method. *)
Definition call_trim (v : value) : result string :=
  match v with
  | VStr s => Ok (trim s)
  | _ => Throw TypeError
  end.

(** ** Conversions *)

Section Server.

(** Two run-time conversions are left abstract: StringToNumber, the
    numeric reading of a string, and the rendering of the finite
    numbers other than the integers below 2^53 in magnitude (fractions,
    and the larger doubles, of which [String] prints the fewest digits
    that read back as the same double).  Everything proved in this
    section holds whatever these two functions are. *)
Variable StringToNumber : string -> number.
Variable NumberToString_rest : Q -> string.

(** [String(n)] for a number.  Below 2^53 neighbouring integers are
    distinct doubles, so an integer is printed with all its digits. *)
Definition NumberToString (n : number) : string :=
  match n with
  | NaN => "NaN"
  | PosInfinity => "Infinity"
  | NegInfinity => "-Infinity"
  | Fin q =>
      match Q_to_Z q with
      | Some z => if Z.ltb (Z.abs z) (2 ^ 53) then pretty z else NumberToString_rest q
      | None => NumberToString_rest q
      end
  end.

(** ToString.  An array is joined with commas, null and undefined
    elements rendering as the empty string.  A JSON object renders as
    [[object Object]] through the inherited method, unless an own
    (hence not callable) [toString] property shadows it, in which case
    no conversion to a primitive exists. *)
Fixpoint ToString (v : value) : result string :=
  match v with
  | VUndefined => Ok "undefined"
  | VNull => Ok "null"
  | VBool true => Ok "true"
  | VBool false => Ok "false"
  | VNum n => Ok (NumberToString n)
  | VStr s => Ok s
  | VArr elems =>
      let element (x : value) : result string :=
        match x with
        | VUndefined | VNull => Ok EmptyString
        | _ => ToString x
        end in
      (fix join (l : list value) : result string :=
         match l with
         | [] => Ok EmptyString
         | [x] => element x
         | x :: l' =>
             let* s := element x in
             let* t := join l' in
             Ok (s ++ "," ++ t)
         end) elems
  | VObj fields =>
      match own_property fields "toString" with
      | Some _ => Throw TypeError
      | None => Ok "[object Object]"
      end
  end.

(** [Number(v)] *)
Definition ToNumber (v : value) : result number :=
  match v with
  | VUndefined => Ok NaN
  | VNull => Ok (num_of_Z 0)
  | VBool true => Ok (num_of_Z 1)
  | VBool false => Ok (num_of_Z 0)
  | VNum n => Ok n
  | VStr s => Ok (StringToNumber s)
  | VArr _ | VObj _ =>
      let* s := ToString v in
      Ok (StringToNumber s)
  end.

(** ** Data model *)

(** One stored submission, [{ ts, answers }]; the route stores it only
    after [Array.isArray(answers)]. *)
Record response_set := { ts : Z; answers : list value }.

(** One stored survey, [{ id, title, questions }]; [questions] is an
    array of arbitrary JSON values. *)
Record survey := { id : string; title : value; questions : list value }.

Record bin := { label : string; count : Z }.

(** One entry of the analytics output. *)
Inductive summary :=
| Mcq (text : value) (labels : list string) (counts : list Z)
| Scale (text : value) (bins : list bin) (min max : number)
| Text (text : value) (n : Z).

(** ** The analytics callback, question by question *)

(** The receiver [R] of the loops is [DB.responses[id] || []].  It is
    the stored array, or the empty array when nothing is stored, or
    (written [None]) a member inherited from [Object.prototype], which
    has neither [forEach] nor [reduce]. *)
Definition forEach {S} (R : option (list response_set))
    (f : S -> response_set -> result S) (s : S) : result S :=
  match R with
  | Some l => fold_result f l s
  | None => Throw TypeError
  end.

(** [r.answers[qi]?.answer] *)
Definition answer_at (qi : nat) (r : response_set) : value :=
  get_optional (default VUndefined (answers r !! qi)) "answer".

(** *** mcq *)

(** [(q.options || []).map(o => (o || 'Option').trim())];
    a truthy [options] that is not an array has no [map] method. *)
Definition mcq_labels (q : value) : result (list string) :=
  let* options := get q "options" in
  match or_else options (VArr []) with
  | VArr os => map_result (fun o => call_trim (or_else o (VStr "Option"))) os
  | _ => Throw TypeError
  end.

(** The body of [R.forEach] in the mcq branch. *)
Definition mcq_step (labels : list string) (qi : nat)
    (counts : list Z) (r : response_set) : result (list Z) :=
  let* a := call_trim (or_else (answer_at qi r) (VStr EmptyString)) in
  let idx := indexOf labels a in
  Ok (if Z.leb 0 idx then alter Z.succ (Z.to_nat idx) counts else counts).

Definition mcq_summary (q : value) (qi : nat) (R : option (list response_set))
    : result summary :=
  let* labels := mcq_labels q in
  let counts := map (fun _ => 0) labels in
  let* counts' := forEach R (mcq_step labels qi) counts in
  let* text := get q "text" in
  Ok (Mcq text labels counts').

(** *** text *)

(** [R.reduce((n, r) => (r.answers[qi]?.answer ? n + 1 : n), 0)] *)
Definition text_count (qi : nat) (R : list response_set) : Z :=
  fold_left (fun n r => if truthy (answer_at qi r) then n + 1 else n) R 0.

Definition text_summary (q : value) (qi : nat) (R : option (list response_set))
    : result summary :=
  match R with
  | Some l =>
      let count := text_count qi l in
      let* text := get q "text" in
      Ok (Text text count)
  | None => Throw TypeError
  end.

(** *** scale *)

(** [Array.from({ length: n }, (_, i) => ({ label: String(min + i), count: 0 }))]:
    the length goes through ToLength, and the array constructor rejects
    a length above 2^32 - 1. *)
Definition scale_bins (min : number) (n : number) : result (list bin) :=
  let len := ToLength n in
  if Z.ltb (2 ^ 32 - 1) len then Throw RangeError
  else Ok (map (fun i : nat =>
                  {| label := NumberToString (num_add min (num_of_Z (Z.of_nat i)));
                     count := 0 |})
               (seq 0 (Z.to_nat len))).

Definition incr (b : bin) : bin := {| label := label b; count := count b + 1 |}.

(** [bins[bi].count++]: [bins[bi]] is an element only when [bi] is an
    integer index of the array; otherwise it is undefined and reading
    [count] from it throws. *)
Definition bump (bins : list bin) (bi : number) : result (list bin) :=
  match num_to_Z bi with
  | Some z =>
      if Z.leb 0 z && Z.ltb z (Z.of_nat (length bins))
      then Ok (alter incr (Z.to_nat z) bins)
      else Throw TypeError
  | None => Throw TypeError
  end.

(** The body of [R.forEach] in the scale branch. *)
Definition scale_step (min : number) (qi : nat)
    (bins : list bin) (r : response_set) : result (list bin) :=
  let* v := ToNumber (answer_at qi r) in
  let bi := num_sub v min in
  if num_leb (num_of_Z 0) bi && num_ltb bi (num_of_Z (Z.of_nat (length bins)))
  then bump bins bi
  else Ok bins.

Definition scale_summary (q : value) (qi : nat) (R : option (list response_set))
    : result summary :=
  let* qmin := get q "min" in
  let* min := ToNumber (nullish_else qmin (VNum (num_of_Z 1))) in
  let* qmax := get q "max" in
  let* max := ToNumber (nullish_else qmax (VNum (num_of_Z 5))) in
  let* bins := scale_bins min (num_add (num_sub max min) (num_of_Z 1)) in
  let* bins' := forEach R (scale_step min qi) bins in
  let* text := get q "text" in
  Ok (Scale text bins' min max).

(** *** dispatch *)

(** The callback of [s.questions.map((q, qi) => ...)]. *)
Definition summarize (R : option (list response_set)) (qi : nat) (q : value)
    : result summary :=
  let* type := get q "type" in
  if is_string type "mcq" then mcq_summary q qi R
  else if is_string type "scale" then scale_summary q qi R
  else text_summary q qi R.

(** [arr.map((x, i) => f(i, x))] *)
Fixpoint mapi_result {A B} (f : nat -> A -> result B) (i : nat) (l : list A)
    : result (list B) :=
  match l with
  | [] => Ok []
  | x :: l' =>
      let* y := f i x in
      let* ys := mapi_result f (S i) l' in
      Ok (y :: ys)
  end.

(** The analytics aggregator: the summaries of a survey's questions
    over a response sequence. *)
Definition aggregate (questions : list value) (R : list response_set)
    : result (list summary) :=
  mapi_result (summarize (Some R)) 0 questions.

(** ** The store and the routes *)

(** [DB = { surveys: {}, responses: {} }]: two plain objects used as
    maps from survey id. *)
Record db := {
  surveys : gmap string survey;
  responses : gmap string (list response_set)
}.

(** The in-memory store, the snapshot last written to [DB_FILE] (if
    any), and whether a write to that file succeeds. *)
Record server := { DB : db; DB_FILE : option db; writable : bool }.

(** [save()]: a failed write is caught and logged. *)
Definition save (st : server) : server :=
  if writable st
  then {| DB := DB st; DB_FILE := Some (DB st); writable := writable st |}
  else st.

(** Reading [o[k]] on a plain object sees the own properties and then
    the members of [Object.prototype]. *)
Definition Object_prototype_names : list string :=
  [ "constructor"; "__proto__"; "hasOwnProperty"; "isPrototypeOf";
    "propertyIsEnumerable"; "toLocaleString"; "toString"; "valueOf";
    "__defineGetter__"; "__defineSetter__"; "__lookupGetter__";
    "__lookupSetter__" ].

Inductive property (A : Type) :=
| Own (a : A)
| Inherited
| Absent.
Arguments Own {A} a.
Arguments Inherited {A}.
Arguments Absent {A}.

Definition read {A} (o : gmap string A) (k : string) : property A :=
  match o !! k with
  | Some a => Own a
  | None =>
      if bool_decide (k ∈ Object_prototype_names) then Inherited else Absent
  end.

Inductive reply :=
| Json_id (id : string)                  (* res.json({ id }) *)
| Json_ok                                (* res.json({ ok: true }) *)
| Json_out (out : list summary)          (* res.json(out) *)
| Json_error (status : Z) (error : string) (* res.status(400).json({ error }) *)
| SendStatus (status : Z)                (* res.sendStatus(404) *)
| Uncaught (e : exception).              (* the handler threw *)

(** POST /api/surveys, with [uuid] the value of [uuidv4()]. *)
Definition post_survey (uuid : string) (body : value) (st : server) : reply * server :=
  let b := or_else body (VObj []) in
  match member b "questions" with
  | VArr qs =>
      let id := substring 0 8 uuid in
      let s := {| id := id;
                  title := or_else (member b "title") (VStr "Untitled");
                  questions := qs |} in
      let d := {| surveys := <[id := s]> (surveys (DB st));
                  responses := <[id := []]> (responses (DB st)) |} in
      (Json_id id,
       save {| DB := d; DB_FILE := DB_FILE st; writable := writable st |})
  | _ => (Json_error 400 "questions required", st)
  end.

(** POST /api/surveys/:id/responses, with [now] the value of
    [Date.now()].  [DB.surveys[id]] is falsy only when absent: every
    inherited member is truthy.  [DB.responses[id].push] is a function
    only on a stored array. *)
Definition post_response (now : Z) (id : string) (body : value) (st : server)
    : reply * server :=
  match read (surveys (DB st)) id with
  | Absent => (SendStatus 404, st)
  | _ =>
      match member (or_else body (VObj [])) "answers" with
      | VArr ans =>
          match read (responses (DB st)) id with
          | Own R =>
              let d := {| surveys := surveys (DB st);
                          responses :=
                            <[id := (R ++ [{| ts := now; answers := ans |}])%list]>
                              (responses (DB st)) |} in
              (Json_ok,
               save {| DB := d; DB_FILE := DB_FILE st; writable := writable st |})
          | _ => (Uncaught TypeError, st)
          end
      | _ => (Json_error 400 "answers required", st)
      end
  end.

(** GET /api/surveys/:id/analytics.  An inherited [DB.surveys[id]] has
    no [questions], so [s.questions.map] throws. *)
Definition get_analytics (id : string) (st : server) : reply * server :=
  match read (surveys (DB st)) id with
  | Absent => (SendStatus 404, st)
  | Inherited => (Uncaught TypeError, st)
  | Own s =>
      let R := match read (responses (DB st)) id with
               | Own R => Some R
               | Absent => Some []
               | Inherited => None
               end in
      match mapi_result (summarize R) 0 (questions s) with
      | Ok out => (Json_out out, st)
      | Throw e => (Uncaught e, st)
      end
  end.

(** The store the process starts with when no file exists. *)
Definition initial (w : bool) : server :=
  {| DB := {| surveys := ∅; responses := ∅ |}; DB_FILE := None; writable := w |}.

(** ** Vocabulary of the statements *)

(** Position [j] of [labels] holds a label that already occurs at an
    earlier position. *)
Definition shadowed (labels : list string) (j : nat) : Prop :=
  exists (i : nat) (l : string), (i < j)%nat /\ labels !! i = Some l /\ labels !! j = Some l.

(** What the loop of the mcq branch maintains: the number of counts,
    their sign, and the zero at every shadowed position. *)
Definition mcq_invariant (labels : list string) (counts : list Z) : Prop :=
  length counts = length labels /\
  Forall (fun c => 0 <= c) counts /\
  (forall j, shadowed labels j -> counts !! j = Some 0).

(** What the loop of the scale branch maintains. *)
Definition scale_invariant (n : nat) (bins : list bin) : Prop :=
  length bins = n /\ Forall (fun b => 0 <= count b) bins.

(** The responses the text branch counts. *)
Definition counted (qi : nat) (R : list response_set) : list response_set :=
  filter (fun r => truthy (answer_at qi r) = true) R.

(** The specification's side of the text count, written from its
    words and not from the code: an answer value is empty when it is
    one of the values that stand for false in a condition (undefined,
    null, false, zero, NaN, the empty string), and a response gives an
    answer to question [qi] when the entry at that index of its
    answers is an object with an [answer] member that is not empty. *)
Definition empty_answer (v : value) : bool :=
  match v with
  | VUndefined | VNull | VBool false | VNum NaN | VStr EmptyString => true
  | VNum (Fin q) => Qeq_bool q 0
  | _ => false
  end.

Definition gives_answer (qi : nat) (r : response_set) : bool :=
  match answers r !! qi with
  | Some (VObj fields) =>
      match own_property fields "answer" with
      | Some v => negb (empty_answer v)
      | None => false
      end
  | _ => false
  end.

(** The shape of the summary [s] of the question [q].  The labels of
    an mcq summary are those of the question's options; the [min] and
    [max] of a scale summary are those of the question ([Number(q.min
    ?? 1)] and [Number(q.max ?? 5)]), and the number of bins follows
    from them. *)
Definition summary_shape (q : value) (s : summary) : Prop :=
  match s with
  | Mcq _ labels counts =>
      mcq_labels q = Ok labels /\
      length counts = length labels /\ Forall (fun c => 0 <= c) counts
  | Scale _ bins mn mx =>
      ToNumber (nullish_else (member q "min") (VNum (num_of_Z 1))) = Ok mn /\
      ToNumber (nullish_else (member q "max") (VNum (num_of_Z 5))) = Ok mx /\
      Z.of_nat (length bins) = ToLength (num_add (num_sub mx mn) (num_of_Z 1)) /\
      (forall a b : Z,
          num_to_Z mn = Some a -> num_to_Z mx = Some b ->
          Z.of_nat (length bins) = Z.max 0 (b - a + 1) /\
          (a <= b -> Z.of_nat (length bins) = b - a + 1)) /\
      Forall (fun b => 0 <= count b) bins
  | Text _ n => 0 <= n
  end.

(** Every stored survey has a stored response list. *)
Definition consistent (st : server) : Prop :=
  forall k s, surveys (DB st) !! k = Some s -> is_Some (responses (DB st) !! k).

(** The survey and the request bodies of the end-to-end scenario. *)
Definition scale_1_3 : value :=
  VObj [("type", VStr "scale"); ("min", VNum (num_of_Z 1));
        ("max", VNum (num_of_Z 3)); ("text", VStr "Q")].

Definition survey_body : value :=
  VObj [("title", VStr "T"); ("questions", VArr [scale_1_3])].

Definition answers_body (v : value) : value :=
  VObj [("answers", VArr [VObj [("answer", v)]])].

(** A response set holding the single answer [v]. *)
Definition response (t : Z) (v : value) : response_set :=
  {| ts := t; answers := [VObj [("answer", v)]] |}.

(** Sample questions: two options; a repeated option; a scale whose
    [min] exceeds its [max]; the spelling [kind] in place of [type]. *)
Definition mcq_A_B : value :=
  VObj [("type", VStr "mcq"); ("options", VArr [VStr "A"; VStr "B"]);
        ("text", VStr "Q")].

Definition mcq_A_B_A : value :=
  VObj [("type", VStr "mcq"); ("options", VArr [VStr "A"; VStr "B"; VStr " A "]);
        ("text", VStr "Q")].

Definition scale_5_1 : value :=
  VObj [("type", VStr "scale"); ("min", VNum (num_of_Z 5));
        ("max", VNum (num_of_Z 1)); ("text", VStr "Q")].

Definition kind_scale : value :=
  VObj [("kind", VStr "scale"); ("min", VNum (num_of_Z 1));
        ("max", VNum (num_of_Z 3)); ("text", VStr "Q")].

(** A free-text question, spelled as the specification spells it. *)
Definition free_text_Q : value :=
  VObj [("type", VStr "free_text"); ("text", VStr "Q")].

(** Instances of the two abstract conversions for closed examples.
    No example below depends on the first; the second shows as the
    label ["?"] of a bin whose bound is not an integer. *)
Definition sample_StringToNumber (s : string) : number := NaN.
Definition sample_NumberToString_rest (q : Q) : string := "?".

(** ** Vocabulary of the further properties *)

(** A value on which [(v || '').trim()] does not throw: a string, or
    anything falsy. *)
Definition string_or_falsy (v : value) : Prop :=
  match v with
  | VStr _ => True
  | _ => truthy v = false
  end.

(** The position the mcq loop increments for a response, if any: the
    first position of the trimmed answer among the labels. *)
Definition chosen (labels : list string) (qi : nat) (r : response_set) : option nat :=
  match call_trim (or_else (answer_at qi r) (VStr EmptyString)) with
  | Ok a =>
      if Z.leb 0 (indexOf labels a) then Some (Z.to_nat (indexOf labels a)) else None
  | Throw _ => None
  end.

(** The number of responses that choose position [i]. *)
Definition votes (labels : list string) (qi : nat) (R : list response_set) (i : nat) : Z :=
  Z.of_nat (length (filter (fun r => chosen labels qi r = Some i) R)).

(** The label an option gives: its trimmed text, or ['Option'] for an
    option that is falsy. *)
Definition label_of (o : value) : string :=
  match or_else o (VStr "Option") with
  | VStr s => trim s
  | _ => "Option"
  end.

(** What one pass of a counting loop does to its array of length [n],
    whatever the array holds: it throws a TypeError, or leaves the array
    alone, or applies [h] at one position. *)
Definition step_shape {T X} (h : T -> T) (step : list T -> X -> result (list T))
    (x : X) (n : nat) : Prop :=
  (forall s, length s = n -> step s x = Throw TypeError) \/
  (forall s, length s = n -> step s x = Ok s) \/
  (exists i : nat, forall s, length s = n -> step s x = Ok (alter h i s)).

(** A number the scale loop can place: an integer, or no finite number
    at all (NaN and the infinities fall outside every range). *)
Definition integral (v : number) : Prop :=
  match v with
  | Fin q => is_Some (Q_to_Z q)
  | _ => True
  end.

(** The answer at [qi] converts to such a number. *)
Definition placeable (qi : nat) (r : response_set) : Prop :=
  match ToNumber (answer_at qi r) with
  | Ok v => integral v
  | Throw _ => False
  end.

(** The integer a response answers at [qi], if its answer converts to
    one. *)
Definition integer_answer (qi : nat) (r : response_set) : option Z :=
  match ToNumber (answer_at qi r) with
  | Ok v => num_to_Z v
  | Throw _ => None
  end.

(** The number of responses that answer the integer [z]. *)
Definition answered (qi : nat) (R : list response_set) (z : Z) : Z :=
  Z.of_nat (length (filter (fun r => integer_answer qi r = Some z) R)).

(** The histogram over the integers [a], [a + 1], ... ([n] of them). *)
Definition histogram (qi : nat) (R : list response_set) (a : Z) (n : nat) : list bin :=
  map (fun i : nat =>
         {| label := pretty (a + Z.of_nat i);
            count := answered qi R (a + Z.of_nat i) |})
      (seq 0 n).

(** ** The remaining route, and sequences of requests *)

Inductive survey_reply :=
| Json_survey (s : survey)         (* res.json(s), s a stored survey *)
| Json_inherited (name : string)   (* res.json(s), s a member of Object.prototype *)
| Survey_404.                      (* res.sendStatus(404) *)

(** GET /api/surveys/:id *)
Definition get_survey (id : string) (st : server) : survey_reply * server :=
  match read (surveys (DB st)) id with
  | Own s => (Json_survey s, st)
  | Inherited => (Json_inherited id, st)
  | Absent => (Survey_404, st)
  end.

(** What [res.json(out)] or the uncaught exception of the analytics
    route shows of an aggregation. *)
Definition analytics_reply (r : result (list summary)) : reply :=
  match r with
  | Ok out => Json_out out
  | Throw e => Uncaught e
  end.

(** One request to the survey routes, with the values the route draws
    from its environment ([uuidv4()], [Date.now()]). *)
Inductive request :=
| Create (uuid : string) (body : value)
| Submit (now : Z) (id : string) (body : value)
| Analytics (id : string)
| Fetch (id : string).

Definition handle (req : request) (st : server) : (reply + survey_reply) * server :=
  match req with
  | Create uuid body => let (r, st') := post_survey uuid body st in (inl r, st')
  | Submit now id body => let (r, st') := post_response now id body st in (inl r, st')
  | Analytics id => let (r, st') := get_analytics id st in (inl r, st')
  | Fetch id => let (r, st') := get_survey id st in (inr r, st')
  end.

(** The server state after a sequence of requests, served one after
    the other. *)
Definition run (reqs : list request) (st : server) : server :=
  fold_left (fun st req => snd (handle req st)) reqs st.

(** The two maps of the store hold the same ids, each of at most eight
    characters. *)
Definition well_keyed (st : server) : Prop :=
  forall k,
    (is_Some (surveys (DB st) !! k) <-> is_Some (responses (DB st) !! k)) /\
    (is_Some (surveys (DB st) !! k) -> (String.length k <= 8)%nat).

(** The file holds the store, or nothing was ever written and the
    store is still empty. *)
Definition file_in_step (st : server) : Prop :=
  DB_FILE st = Some (DB st) \/
  (DB_FILE st = None /\ DB st = {| surveys := ∅; responses := ∅ |}).

(** ** Start-up *)

(** [JSON.parse(JSON.stringify(v))] on the values the store holds: NaN
    and the infinities are written as [null]; inside an array an
    undefined element is written as [null]; a property whose value is
    undefined is not written.  (An own [toJSON] property of JSON data
    is not callable and is ignored.) *)
Fixpoint reparse (v : value) : value :=
  match v with
  | VNum (Fin q) => VNum (Fin q)
  | VNum _ => VNull
  | VArr elems =>
      VArr (map (fun x => match x with
                          | VUndefined => VNull
                          | _ => reparse x
                          end) elems)
  | VObj fields =>
      VObj ((fix go (fs : list (string * value)) : list (string * value) :=
               match fs with
               | [] => []
               | (k, x) :: fs' =>
                   match x with
                   | VUndefined => go fs'
                   | _ => (k, reparse x) :: go fs'
                   end
               end) fields)
  | _ => v
  end.

Definition reparse_element (x : value) : value :=
  match x with
  | VUndefined => VNull
  | _ => reparse x
  end.

Definition reparse_survey (s : survey) : survey :=
  {| id := id s; title := reparse (title s);
     questions := map reparse_element (questions s) |}.

Definition reparse_response (r : response_set) : response_set :=
  {| ts := ts r; answers := map reparse_element (answers r) |}.

(** The store read back from the file [save] wrote, or the empty store
    when there is no file:
    [if (fs.existsSync(DB_FILE)) DB = JSON.parse(fs.readFileSync(DB_FILE))]. *)
Definition load (file : option db) : db :=
  match file with
  | Some d => {| surveys := reparse_survey <$> surveys d;
                 responses := map reparse_response <$> responses d |}
  | None => {| surveys := ∅; responses := ∅ |}
  end.

(** The server after the process is started again on the same file. *)
Definition restart (st : server) : server :=
  {| DB := load (DB_FILE st); DB_FILE := DB_FILE st; writable := writable st |}.

(** A value that holds no undefined and no number other than finite
    ones, as JSON text without overflowing literals parses to. *)
Fixpoint plain (v : value) : bool :=
  match v with
  | VUndefined => false
  | VNum (Fin _) => true
  | VNum _ => false
  | VArr elems => forallb plain elems
  | VObj fields => forallb (fun kv => plain (snd kv)) fields
  | _ => true
  end.

Definition plain_request (req : request) : Prop :=
  match req with
  | Create _ body | Submit _ _ body => plain body = true
  | Analytics _ | Fetch _ => True
  end.

Definition plain_store (d : db) : Prop :=
  (forall k s, surveys d !! k = Some s ->
     plain (title s) = true /\ forallb plain (questions s) = true) /\
  (forall k R, responses d !! k = Some R ->
     Forall (fun r => forallb plain (answers r) = true) R).

(** ** The earlier variant of the scale loop *)

(** [Math.round]: the nearest integer, halves going up. *)
Definition Math_round (v : number) : number :=
  match v with
  | Fin q => num_of_Z (Z.div (2 * Qnum q + Zpos (Qden q)) (2 * Zpos (Qden q)))
  | _ => v
  end.

(** The body of [R.forEach] in the scale branch of the snippet that
    precedes the route of [server.js]:
    [const bi = Math.round(v) - min; if (bi >= 0 && bi < bins.length) bins[bi].count++]. *)
Definition snippet_scale_step (min : number) (qi : nat)
    (bins : list bin) (r : response_set) : result (list bin) :=
  let* v := ToNumber (answer_at qi r) in
  let bi := num_sub (Math_round v) min in
  if num_leb (num_of_Z 0) bi && num_ltb bi (num_of_Z (Z.of_nat (length bins)))
  then bump bins bi
  else Ok bins.

(** ** The object-storage backend: keys *)





(** ** The object-storage backend: POST /submit *)

(** What [putObject] is given to store. *)
Inductive cos_body :=
| Raw (ts : string) (responses : value)               (* { ts, responses } *)
| Analysis (id : string) (ts : string) (emotion : value). (* { id, ts, emotion } *)

(** The calls the handler makes to its collaborators, in order. *)
Inductive effect :=
| PutObject (key : string) (body : cos_body)
| AnalyzeEmotion (text : string).

Inductive submit_reply :=
| Submitted (id key : string) (analyzed : bool)  (* { ok: true, id, key, analyzed } *)
| Failed (message : string).                     (* status 500, { ok: false, error } *)

(** What the handler draws from outside: the clock ([Date.now()] and
    the two [toISOString()]), the outcome of each [putObject] (the
    message of the error when it fails), and [analyzeEmotion], which
    returns a value (null when no classifier is configured) or throws. *)
Record submit_env := {
  clock : Z;
  iso_raw : string;
  iso_result : string;
  put_raw_error : option string;
  put_result_error : option string;
  analyzeEmotion : string -> option value
}.

(** The optional classification of the free text:
    [if (responses.feelings) { try { emotion = await analyzeEmotion(String(responses.feelings)) } catch ... }].
    Gives the calls made and the value of [emotion] afterwards. *)
Definition classify (env : submit_env) (responses : value) : list effect * value :=
  let feelings := member responses "feelings" in
  if truthy feelings then
    match ToString feelings with
    | Ok text => ([AnalyzeEmotion text], default VNull (analyzeEmotion env text))
    | Throw _ => ([], VNull)
    end
  else ([], VNull).

(** The handler of POST /submit: the effects it performs and its reply
    (the storage client itself is taken to be constructed without
    failure). *)
Definition submit (env : submit_env) (body : value) : list effect * submit_reply :=
  let responses := or_else body (VObj []) in
  let id := pretty (clock env) in
  let keyRaw := "responses/" ++ id ++ ".json" in
  let put_raw := PutObject keyRaw (Raw (iso_raw env) responses) in
  match put_raw_error env with
  | Some message => ([put_raw], Failed message)
  | None =>
      let '(calls, emotion) := classify env responses in
      if truthy emotion then
        let put_result :=
          PutObject ("results/" ++ id ++ ".json") (Analysis id (iso_result env) emotion) in
        match put_result_error env with
        | Some message => (put_raw :: calls ++ [put_result], Failed message)%list
        | None => (put_raw :: calls ++ [put_result], Submitted id keyRaw true)%list
        end
      else (put_raw :: calls, Submitted id keyRaw false)
  end.

(** ** The front end: the address of the backend *)

(** [url.replace(/\/+$/, "")]: the url without its trailing slashes. *)
Fixpoint strip_trailing_slashes (url : string) : string :=
  match url with
  | EmptyString => EmptyString
  | String c url' =>
      match strip_trailing_slashes url' with
      | EmptyString => if Ascii.eqb c "/"%char then EmptyString else String c EmptyString
      | t => String c t
      end
  end.

(** The address a proxy route forwards to, [`${backendURL}/${route}`],
    or nothing when [backendURL] is empty and the route answers 501. *)
Definition forward_to (BACKEND_URL : string) (route : string) : option string :=
  let backendURL := strip_trailing_slashes BACKEND_URL in
  if String.eqb backendURL EmptyString then None
  else Some (backendURL ++ "/" ++ route).

(** [n] slashes. *)
Fixpoint slashes (n : nat) : string :=
  match n with
  | O => EmptyString
  | S n' => String "/" (slashes n')
  end.

(** ** The analytics route on a heap *)

(** The route once more, with the objects it shares with the other
    routes or creates itself held in a heap, so that what it writes,
    and where, is explicit.  An object of the heap is a stored survey,
    the array of a survey's responses, or one of the objects the
    handler creates: the arrays [labels], [counts] and [bins] (the
    latter held together with its bin objects, to which nothing else
    refers), a summary object, and the array [out]; or one of the two
    objects [DB.surveys] and [DB.responses], which map an id to the
    location of its survey or of its responses.  A variable or a
    property that holds an object holds its location.  Request data
    (questions, answers) is read and never written by any route; it
    stays a [value]. *)
Definition loc := nat.

Inductive object :=
| Survey_object (s : survey)
| Response_array (R : list response_set)
| String_array (l : list string)
| Number_array (l : list Z)
| Bin_array (l : list bin)
| Mcq_object (text : value) (labels counts : loc)
| Scale_object (text : value) (bins : loc) (min max : number)
| Text_object (text : value) (count : Z)
| Summary_array (l : list loc)
| Map_object (entries : gmap string loc).

(** The heap, where [DB.surveys] and [DB.responses] are in it, the
    content of the file, and whether a write to the file succeeds. *)
Record machine := {
  objects : list object;
  DB_surveys : loc;
  DB_responses : loc;
  on_disk : option db;
  can_write : bool
}.

(** A computation on the heap that returns or throws. *)
Definition prog (A : Type) : Type := list object -> result A * list object.

Definition ret {A} (a : A) : prog A := fun h => (Ok a, h).

Definition lift {A} (r : result A) : prog A := fun h => (r, h).

Definition and_then {A B} (c : prog A) (k : A -> prog B) : prog B :=
  fun h =>
    match c h with
    | (Ok a, h') => k a h'
    | (Throw e, h') => (Throw e, h')
    end.

Notation "'do*' x ':=' c 'in' k" := (and_then c (fun x => k))
  (at level 10, x name, c at level 100, k at level 200).

(** A new object gets the next location. *)
Definition alloc (o : object) : prog loc :=
  fun h => (Ok (length h), (h ++ [o])%list).

Definition read_object (l : loc) : prog object :=
  fun h => (match h !! l with Some o => Ok o | None => Throw TypeError end, h).

(** Writing into the object at [l] (an element of an array, a
    property of an object): the object at [l] changes, no other. *)
Definition write_object (l : loc) (o : object) : prog unit :=
  fun h => (Ok tt, <[l := o]> h).

Definition read_survey (l : loc) : prog survey :=
  do* o := read_object l in
  match o with Survey_object s => ret s | _ => lift (Throw TypeError) end.

Definition read_responses (l : loc) : prog (list response_set) :=
  do* o := read_object l in
  match o with Response_array R => ret R | _ => lift (Throw TypeError) end.

Definition read_strings (l : loc) : prog (list string) :=
  do* o := read_object l in
  match o with String_array x => ret x | _ => lift (Throw TypeError) end.

Definition read_numbers (l : loc) : prog (list Z) :=
  do* o := read_object l in
  match o with Number_array x => ret x | _ => lift (Throw TypeError) end.

Definition read_bins (l : loc) : prog (list bin) :=
  do* o := read_object l in
  match o with Bin_array x => ret x | _ => lift (Throw TypeError) end.

Definition read_summaries (l : loc) : prog (list loc) :=
  do* o := read_object l in
  match o with Summary_array x => ret x | _ => lift (Throw TypeError) end.

Definition read_map (l : loc) : prog (gmap string loc) :=
  do* o := read_object l in
  match o with Map_object x => ret x | _ => lift (Throw TypeError) end.

(** [R.reduce(f, s)] on the array at [l]: the length is read once, the
    element at each index when its turn comes. *)
Fixpoint visit {S} (l : loc) (f : S -> response_set -> prog S)
    (indices : list nat) (s : S) : prog S :=
  match indices with
  | [] => ret s
  | i :: rest =>
      do* R := read_responses l in
      match R !! i with
      | Some r => do* s' := f s r in visit l f rest s'
      | None => visit l f rest s
      end
  end.

Definition reduce_on {S} (R : option loc) (f : S -> response_set -> prog S) (s : S)
    : prog S :=
  match R with
  | Some l => do* R0 := read_responses l in visit l f (seq 0 (length R0)) s
  | None => lift (Throw TypeError)
  end.

(** [R.forEach(f)] *)
Definition forEach_on (R : option loc) (f : response_set -> prog unit) : prog unit :=
  reduce_on R (fun _ r => f r) tt.

(** The mcq branch: [labels] and [counts] are two new arrays, and the
    loop writes into [counts]. *)
Definition mcq_on (q : value) (qi : nat) (R : option loc) : prog loc :=
  do* labels := lift (mcq_labels q) in
  do* L := alloc (String_array labels) in
  do* C := alloc (Number_array (map (fun _ => 0) labels)) in
  do* _ := forEach_on R (fun r =>
             do* a := lift (call_trim (or_else (answer_at qi r) (VStr EmptyString))) in
             do* labels := read_strings L in
             let idx := indexOf labels a in
             if Z.leb 0 idx
             then do* counts := read_numbers C in
                  write_object C (Number_array (alter Z.succ (Z.to_nat idx) counts))
             else ret tt) in
  do* text := lift (get q "text") in
  alloc (Mcq_object text L C).

(** The scale branch: [bins] is a new array, and the loop writes into
    the bin it selects. *)
Definition scale_on (q : value) (qi : nat) (R : option loc) : prog loc :=
  do* qmin := lift (get q "min") in
  do* min := lift (ToNumber (nullish_else qmin (VNum (num_of_Z 1)))) in
  do* qmax := lift (get q "max") in
  do* max := lift (ToNumber (nullish_else qmax (VNum (num_of_Z 5)))) in
  do* bins := lift (scale_bins min (num_add (num_sub max min) (num_of_Z 1))) in
  do* B := alloc (Bin_array bins) in
  do* _ := forEach_on R (fun r =>
             do* v := lift (ToNumber (answer_at qi r)) in
             let bi := num_sub v min in
             do* bins := read_bins B in
             if num_leb (num_of_Z 0) bi && num_ltb bi (num_of_Z (Z.of_nat (length bins)))
             then do* bins' := lift (bump bins bi) in write_object B (Bin_array bins')
             else ret tt) in
  do* text := lift (get q "text") in
  alloc (Scale_object text B min max).

(** The text branch writes nothing but its result. *)
Definition text_on (q : value) (qi : nat) (R : option loc) : prog loc :=
  do* count := reduce_on R (fun n r =>
                 ret (if truthy (answer_at qi r) then n + 1 else n)) 0 in
  do* text := lift (get q "text") in
  alloc (Text_object text count).

Definition summarize_on (R : option loc) (qi : nat) (q : value) : prog loc :=
  do* type := lift (get q "type") in
  if is_string type "mcq" then mcq_on q qi R
  else if is_string type "scale" then scale_on q qi R
  else text_on q qi R.

(** [s.questions.map(f)] on the survey at [l], read as [visit] reads. *)
Fixpoint map_questions (l : loc) (f : nat -> value -> prog loc)
    (indices : list nat) : prog (list loc) :=
  match indices with
  | [] => ret []
  | i :: rest =>
      do* s := read_survey l in
      match questions s !! i with
      | Some q =>
          do* y := f i q in
          do* ys := map_questions l f rest in
          ret (y :: ys)
      | None => map_questions l f rest
      end
  end.

(** [res.json(out)]: the summaries as they are when the reply is
    written. *)
Definition render_summary (l : loc) : prog summary :=
  do* o := read_object l in
  match o with
  | Mcq_object text L C =>
      do* labels := read_strings L in
      do* counts := read_numbers C in
      ret (Mcq text labels counts)
  | Scale_object text B mn mx =>
      do* bins := read_bins B in
      ret (Scale text bins mn mx)
  | Text_object text n => ret (Text text n)
  | _ => lift (Throw TypeError)
  end.

Fixpoint render_each (ls : list loc) : prog (list summary) :=
  match ls with
  | [] => ret []
  | l :: ls' =>
      do* s := render_summary l in
      do* ss := render_each ls' in
      ret (s :: ss)
  end.

Definition render (out : loc) : prog (list summary) :=
  do* ls := read_summaries out in
  render_each ls.

(** The handler of GET /api/surveys/:id/analytics.  An inherited
    [DB.surveys[id]] has no [questions], so [s.questions.map] throws. *)
Definition analytics_handler (m : machine) (id : string) : prog reply :=
  do* surveys := read_map (DB_surveys m) in
  match read surveys id with
  | Absent => ret (SendStatus 404)
  | Inherited => lift (Throw TypeError)
  | Own sl =>
      do* responses := read_map (DB_responses m) in
      do* R := match read responses id with
               | Own l => ret (Some l)
               | Absent => do* l := alloc (Response_array []) in ret (Some l)
               | Inherited => ret None
               end in
      do* s := read_survey sl in
      do* out := map_questions sl (summarize_on R) (seq 0 (length (questions s))) in
      do* o := alloc (Summary_array out) in
      do* json := render o in
      ret (Json_out json)
  end.

Definition with_objects (m : machine) (h : list object) : machine :=
  {| objects := h; DB_surveys := DB_surveys m; DB_responses := DB_responses m;
     on_disk := on_disk m; can_write := can_write m |}.

(** GET /api/surveys/:id/analytics on the heap: the reply, and the
    machine the handler leaves. *)
Definition analytics_on (id : string) (m : machine) : reply * machine :=
  match analytics_handler m id (objects m) with
  | (Ok r, h) => (r, with_objects m h)
  | (Throw e, h) => (Uncaught e, with_objects m h)
  end.

(** The store a machine holds, as the routes above see it. *)
Definition survey_at (h : list object) (l : loc) : option survey :=
  match h !! l with Some (Survey_object s) => Some s | _ => None end.

Definition responses_at (h : list object) (l : loc) : option (list response_set) :=
  match h !! l with Some (Response_array R) => Some R | _ => None end.

Definition map_at (h : list object) (l : loc) : gmap string loc :=
  match h !! l with Some (Map_object g) => g | _ => ∅ end.

Definition store_of (m : machine) : server :=
  {| DB := {| surveys := omap (survey_at (objects m))
                           (map_at (objects m) (DB_surveys m));
              responses := omap (responses_at (objects m))
                             (map_at (objects m) (DB_responses m)) |};
     DB_FILE := on_disk m;
     writable := can_write m |}.

(** [DB.surveys] and [DB.responses] are there; every id of the former
    leads to a survey, every id of the latter to an array of
    responses. *)
Definition well_formed (m : machine) : Prop :=
  (exists g, objects m !! DB_surveys m = Some (Map_object g)) /\
  (exists g, objects m !! DB_responses m = Some (Map_object g)) /\
  (forall id l, map_at (objects m) (DB_surveys m) !! id = Some l ->
     is_Some (survey_at (objects m) l)) /\
  (forall id l, map_at (objects m) (DB_responses m) !! id = Some l ->
     is_Some (responses_at (objects m) l)).

(** A computation on the heap follows a computation on lists: both
    return, with results and heap related by [Rel], or both throw the
    same exception, leaving a heap that satisfies [Broken]. *)
Definition follows {T S} (Rel : T -> S -> list object -> Prop)
    (Broken : list object -> Prop)
    (r : result T) (o : result S * list object) : Prop :=
  match r, o with
  | Ok t, (Ok s, h) => Rel t s h
  | Throw e, (Throw e', h) => e = e' /\ Broken h
  | _, _ => False
  end.

(** The receiver of the loops, on the heap and as a list. *)
Definition receiver (h : list object) (Ro : option loc)
    (Rv : option (list response_set)) : Prop :=
  match Ro, Rv with
  | Some l, Some R => h !! l = Some (Response_array R)
  | None, None => True
  | _, _ => False
  end.

(** The summary [s] is what the reply shows of the summary object at
    [l], in a heap that still holds every object of [h0] unchanged. *)
Definition summary_at (h0 : list object) (s : summary) (l : loc) (h : list object)
    : Prop :=
  h0 `prefix_of` h /\ render_summary l h = (Ok s, h).

Definition summaries_at (h0 : list object) (out : list summary) (ls : list loc)
    (h : list object) : Prop :=
  h0 `prefix_of` h /\
  Forall2 (fun s l => render_summary l h = (Ok s, h)) out ls.

(** ** Further sample data *)

(** A question whose second option is blank, a response that answers
    nothing, and two environments of POST /submit: one whose classifier
    always throws, one whose classifier always finds joy. *)
Definition mcq_A_blank : value :=
  VObj [("type", VStr "mcq"); ("options", VArr [VStr "A"; VStr " "]);
        ("text", VStr "Q")].

Definition unanswered : response_set := {| ts := 9; answers := [] |}.

Definition env_classifier_down : submit_env :=
  {| clock := 1700000000000; iso_raw := "2023-11-14T22:13:20.000Z";
     iso_result := "2023-11-14T22:13:21.000Z";
     put_raw_error := None; put_result_error := None;
     analyzeEmotion := fun _ => None |}.

Definition env_classifier_joy : submit_env :=
  {| clock := 1700000000000; iso_raw := "2023-11-14T22:13:20.000Z";
     iso_result := "2023-11-14T22:13:21.000Z";
     put_raw_error := None; put_result_error := None;
     analyzeEmotion := fun _ => Some (VObj [("joy", VNum (num_of_Z 1))]) |}.

(** A machine that holds one survey of three questions and its three
    responses. *)
Definition sample_machine : machine :=
  {| objects :=
       [ Map_object {[ "s1" := 2%nat ]};
         Map_object {[ "s1" := 3%nat ]};
         Survey_object {| id := "s1"; title := VStr "T";
                          questions := [scale_1_3; mcq_A_B; free_text_Q] |};
         Response_array
           [ {| ts := 1;
                answers := [ VObj [("answer", VNum (num_of_Z 2))];
                             VObj [("answer", VStr "A")];
                             VObj [("answer", VStr "fine")] ] |};
             {| ts := 2;
                answers := [ VObj [("answer", VNum (num_of_Z 3))];
                             VObj [("answer", VStr " B ")];
                             VObj [("answer", VStr EmptyString)] ] |};
             {| ts := 3;
                answers := [ VObj [("answer", VNum (num_of_Z 3))];
                             VObj [("answer", VStr "A")] ] |} ] ];
     DB_surveys := 0%nat;
     DB_responses := 1%nat;
     on_disk := None;
     can_write := true |}.

(** * Properties *)

(** ** Loops *)

Lemma fold_result_app {A S} (f : S -> A -> result S) (l1 l2 : list A) (s : S) :
  fold_result f (l1 ++ l2)%list s =
  let* s' := fold_result f l1 s in fold_result f l2 s'.
Proof.
  revert s. induction l1 as [|x l1 IH]; intros s; simpl; [reflexivity|].
  destruct (f s x) as [s'|e]; simpl; [apply IH | reflexivity].
Qed.

(** A property of the accumulator that the loop body preserves holds
    when the loop completes. *)
Lemma fold_result_invariant {A S} (P : S -> Prop) (f : S -> A -> result S) :
  (forall s x s', P s -> f s x = Ok s' -> P s') ->
  forall l s s', P s -> fold_result f l s = Ok s' -> P s'.
Proof.
  intros Hstep l. induction l as [|x l IH]; intros s s' Hs Hrun; simpl in Hrun.
  - congruence.
  - destruct (f s x) as [s1|e] eqn:Hf; simpl in Hrun; [|discriminate].
    eapply IH; [|exact Hrun]. eapply Hstep; eauto.
Qed.

Lemma mapi_result_Forall {A B} (P : B -> Prop) (f : nat -> A -> result B) :
  (forall i x y, f i x = Ok y -> P y) ->
  forall l i out, mapi_result f i l = Ok out -> Forall P out.
Proof.
  intros Hf l. induction l as [|x l IH]; intros i out Hrun; simpl in Hrun.
  - inversion Hrun. constructor.
  - destruct (f i x) as [y|e] eqn:Hy; simpl in Hrun; [|discriminate].
    destruct (mapi_result f (S i) l) as [ys|e] eqn:Hys; simpl in Hrun; [|discriminate].
    inversion Hrun; subst. constructor; eauto.
Qed.

(** ** indexOf *)

Lemma indexOf_from_found (l : list string) (a : string) (i idx : Z) :
  indexOf_from l a i = idx -> 0 <= i -> 0 <= idx ->
  (i <= idx) /\
  (l !! Z.to_nat (idx - i) = Some a) /\
  (forall k : nat, (k < Z.to_nat (idx - i))%nat -> l !! k <> Some a).
Proof.
  revert i. induction l as [|x l IH]; intros i Hidx Hi Hpos; simpl in Hidx.
  - lia.
  - destruct (String.eqb x a) eqn:Hx.
    + apply String.eqb_eq in Hx. subst x idx.
      replace (i - i) with 0 by lia. simpl.
      repeat split; [lia | intros k Hk; lia].
    + apply String.eqb_neq in Hx.
      destruct (IH (i + 1) Hidx ltac:(lia) Hpos) as (Hle & Hat & Hbefore).
      replace (Z.to_nat (idx - i)) with (S (Z.to_nat (idx - (i + 1)))) by lia.
      repeat split; [lia | exact Hat |].
      intros [|k] Hk; simpl; [congruence | apply Hbefore; lia].
Qed.

(** A non-negative result of [indexOf] is the first position of [a]. *)
Lemma indexOf_first (l : list string) (a : string) :
  0 <= indexOf l a ->
  (l !! Z.to_nat (indexOf l a) = Some a) /\
  (forall k : nat, (k < Z.to_nat (indexOf l a))%nat -> l !! k <> Some a).
Proof.
  intros Hpos.
  destruct (indexOf_from_found l a 0 (indexOf l a) eq_refl ltac:(lia) Hpos)
    as (_ & Hat & Hbefore).
  rewrite Z.sub_0_r in Hat, Hbefore. auto.
Qed.

Lemma indexOf_from_absent (l : list string) (a : string) (i : Z) :
  a ∉ l -> indexOf_from l a i = -1.
Proof.
  revert i. induction l as [|x l IH]; intros i Hnot; simpl; [reflexivity|].
  destruct (String.eqb x a) eqn:Hx.
  - apply String.eqb_eq in Hx. subst. exfalso. apply Hnot. constructor.
  - apply IH. intros Hin. apply Hnot. now constructor.
Qed.

(** ** mcq *)

(** An answer that trims to no label leaves the counts as they are. *)
Lemma mcq_step_unmatched (labels : list string) (qi : nat) (counts : list Z)
    (r : response_set) (a : string) :
  call_trim (or_else (answer_at qi r) (VStr EmptyString)) = Ok a ->
  a ∉ labels ->
  mcq_step labels qi counts r = Ok counts.
Proof.
  intros Ha Hnot. unfold mcq_step. rewrite Ha. simpl.
  unfold indexOf. rewrite indexOf_from_absent by assumption. reflexivity.
Qed.

Lemma mcq_summary_labels (q : value) (qi : nat) (R : option (list response_set))
    (text : value) (labels : list string) (counts : list Z) :
  mcq_summary q qi R = Ok (Mcq text labels counts) -> mcq_labels q = Ok labels.
Proof.
  unfold mcq_summary. intros H.
  destruct (mcq_labels q) as [ls|e]; simpl in H; [|discriminate].
  destruct (forEach R (mcq_step ls qi) (map (fun _ => 0) ls)) as [cs|e];
    simpl in H; [|discriminate].
  destruct (get q "text") as [t|e]; simpl in H; [|discriminate].
  congruence.
Qed.

(** C2. In the mcq branch, a response whose answer trims to a string
    that is no entry of [labels] (blank and whitespace-only answers
    included, when they match no label) changes no count: the loop body
    returns the counts it was given, and the summary over a response
    sequence containing that response is the summary over the sequence
    without it.  The summary's [labels] are those computed from the
    question alone, so the answer never appears among them. *)
Theorem C2_unmatched_answer_not_counted
    (q : value) (qi : nat) (labels : list string)
    (R1 R2 : list response_set) (r : response_set) (a : string) :
  mcq_labels q = Ok labels ->
  call_trim (or_else (answer_at qi r) (VStr EmptyString)) = Ok a ->
  a ∉ labels ->
  (forall counts, mcq_step labels qi counts r = Ok counts) /\
  mcq_summary q qi (Some (R1 ++ r :: R2)%list) = mcq_summary q qi (Some (R1 ++ R2)%list) /\
  (forall text labels' counts,
      mcq_summary q qi (Some (R1 ++ r :: R2)%list) = Ok (Mcq text labels' counts) ->
      labels' = labels /\ a ∉ labels').
Proof.
  intros Hlabels Ha Hnot. split; [|split].
  - intros counts. eapply mcq_step_unmatched; eauto.
  - unfold mcq_summary. rewrite Hlabels. simpl.
    rewrite !fold_result_app.
    destruct (fold_result (mcq_step labels qi) R1 (map (fun _ => 0) labels))
      as [cs|e]; simpl; [|reflexivity].
    rewrite (mcq_step_unmatched labels qi cs r a Ha Hnot). reflexivity.
  - intros text labels' counts Hsum.
    apply mcq_summary_labels in Hsum. rewrite Hlabels in Hsum.
    inversion Hsum; subst. auto.
Qed.

Lemma mcq_invariant_initial (labels : list string) :
  mcq_invariant labels (map (fun _ => 0) labels).
Proof.
  repeat split.
  - apply length_map.
  - apply Forall_forall. intros c Hc. apply list_elem_of_In, in_map_iff in Hc.
    destruct Hc as (_ & <- & _). lia.
  - intros j (i & l & _ & _ & Hj).
    rewrite list_lookup_fmap, Hj. reflexivity.
Qed.

Lemma Forall_alter_succ (counts : list Z) (k : nat) :
  Forall (fun c => 0 <= c) counts -> Forall (fun c => 0 <= c) (alter Z.succ k counts).
Proof.
  intros H. revert k. induction H as [|c cs Hc Hcs IH]; intros k; [constructor|].
  destruct k as [|k]; simpl; constructor; auto.
  - lia.
  - apply IH.
Qed.

Lemma mcq_step_invariant (labels : list string) (qi : nat)
    (counts : list Z) (r : response_set) (counts' : list Z) :
  mcq_invariant labels counts ->
  mcq_step labels qi counts r = Ok counts' ->
  mcq_invariant labels counts'.
Proof.
  intros (Hlen & Hpos & Hdup) Hstep. unfold mcq_step in Hstep.
  destruct (call_trim (or_else (answer_at qi r) (VStr EmptyString))) as [a|e];
    simpl in Hstep; [|discriminate].
  inversion Hstep as [Hc]; clear Hstep.
  destruct (Z.leb 0 (indexOf labels a)) eqn:Hidx; [|repeat split; assumption].
  apply Z.leb_le in Hidx.
  destruct (indexOf_first labels a Hidx) as (Hat & Hbefore).
  repeat split.
  - rewrite length_alter. assumption.
  - apply Forall_alter_succ. assumption.
  - intros j Hj. rewrite list_lookup_alter_ne; [auto|].
    intros <-. destruct Hj as (i & l & Hlt & Hi & Hl).
    rewrite Hat in Hl. inversion Hl; subst l.
    exact (Hbefore i Hlt Hi).
Qed.

Lemma mcq_summary_invariant (q : value) (qi : nat) (R : option (list response_set))
    (text : value) (labels : list string) (counts : list Z) :
  mcq_summary q qi R = Ok (Mcq text labels counts) -> mcq_invariant labels counts.
Proof.
  unfold mcq_summary. intros H.
  destruct (mcq_labels q) as [ls|e]; simpl in H; [|discriminate].
  destruct (forEach R (mcq_step ls qi) (map (fun _ => 0) ls)) as [cs|e] eqn:Hrun;
    simpl in H; [|discriminate].
  destruct (get q "text") as [t|e]; simpl in H; [|discriminate].
  inversion H; subst. destruct R as [l|]; simpl in Hrun; [|discriminate].
  eapply (fold_result_invariant (mcq_invariant labels)); [| |exact Hrun].
  - intros s x s'. apply mcq_step_invariant.
  - apply mcq_invariant_initial.
Qed.

(** C10. When the trimmed labels of an mcq question hold the same label
    at two positions, [indexOf] only ever finds the first one: in the
    summary over any response sequence, the count at the later position
    is 0. *)
Theorem C10_duplicate_label_never_counted
    (q : value) (qi : nat) (R : list response_set)
    (text : value) (labels : list string) (counts : list Z)
    (i j : nat) (l : string) :
  mcq_summary q qi (Some R) = Ok (Mcq text labels counts) ->
  (i < j)%nat ->
  labels !! i = Some l ->
  labels !! j = Some l ->
  counts !! j = Some 0.
Proof.
  intros Hsum Hlt Hi Hj.
  destruct (mcq_summary_invariant _ _ _ _ _ _ Hsum) as (_ & _ & Hdup).
  apply Hdup. exists i, l. auto.
Qed.

(** ** Numbers that denote integers *)

Lemma Q_to_Z_eq (q : Q) (z : Z) : Q_to_Z q = Some z -> Qeq q (inject_Z z).
Proof.
  unfold Q_to_Z. destruct (Z.eqb_spec (Z.rem (Qnum q) (Zpos (Qden q))) 0) as [Hrem|];
    [|discriminate].
  intros Hz. inversion Hz as [Hquot]; clear Hz.
  pose proof (Z.quot_rem' (Qnum q) (Zpos (Qden q))) as Hdiv.
  unfold Qeq. simpl. rewrite Hrem in Hdiv. lia.
Qed.

Lemma Qeq_inject_Z_quot (q : Q) (z : Z) :
  Qeq q (inject_Z z) -> Z.quot (Qnum q) (Zpos (Qden q)) = z.
Proof.
  unfold Qeq. simpl. intros H.
  replace (Qnum q) with (z * Zpos (Qden q)) by lia.
  apply Z.quot_mul. discriminate.
Qed.

Lemma Qeq_inject_Z_to_Z (q : Q) (z : Z) : Qeq q (inject_Z z) -> Q_to_Z q = Some z.
Proof.
  unfold Qeq, Q_to_Z. simpl. intros H.
  replace (Qnum q) with (z * Zpos (Qden q)) by lia.
  rewrite Z.rem_mul by discriminate. simpl.
  rewrite Z.quot_mul by discriminate. reflexivity.
Qed.

Lemma num_to_Z_of_Z (z : Z) : num_to_Z (num_of_Z z) = Some z.
Proof. apply Qeq_inject_Z_to_Z. reflexivity. Qed.

Lemma num_to_Z_Fin (x : number) (z : Z) :
  num_to_Z x = Some z -> exists q, x = Fin q /\ Qeq q (inject_Z z).
Proof.
  destruct x as [| | |q]; simpl; try discriminate.
  intros H. exists q. split; [reflexivity | apply Q_to_Z_eq; exact H].
Qed.

Lemma Qcompare_inject_Z (q1 q2 : Q) (a b : Z) :
  Qeq q1 (inject_Z a) -> Qeq q2 (inject_Z b) -> Qcompare q1 q2 = Z.compare a b.
Proof.
  intros H1 H2. rewrite (Qcompare_comp _ _ H1 _ _ H2).
  unfold Qcompare. simpl. rewrite !Z.mul_1_r. reflexivity.
Qed.

Lemma num_leb_integers (x y : number) (a b : Z) :
  num_to_Z x = Some a -> num_to_Z y = Some b -> num_leb x y = Z.leb a b.
Proof.
  intros Hx Hy.
  destruct (num_to_Z_Fin x a Hx) as (qx & -> & Hqx).
  destruct (num_to_Z_Fin y b Hy) as (qy & -> & Hqy).
  simpl. rewrite (Qcompare_inject_Z _ _ _ _ Hqx Hqy).
  unfold Z.leb. destruct (a ?= b); reflexivity.
Qed.

Lemma num_ltb_integers (x y : number) (a b : Z) :
  num_to_Z x = Some a -> num_to_Z y = Some b -> num_ltb x y = Z.ltb a b.
Proof.
  intros Hx Hy.
  destruct (num_to_Z_Fin x a Hx) as (qx & -> & Hqx).
  destruct (num_to_Z_Fin y b Hy) as (qy & -> & Hqy).
  simpl. rewrite (Qcompare_inject_Z _ _ _ _ Hqx Hqy).
  unfold Z.ltb. destruct (a ?= b); reflexivity.
Qed.

Lemma ToLength_of_Z (z : Z) : ToLength (num_of_Z z) = Z.min (Z.max 0 z) (2 ^ 53 - 1).
Proof.
  unfold ToLength, num_of_Z, inject_Z. cbn [Qnum Qden].
  rewrite Z.quot_1_r. reflexivity.
Qed.

(** ** Rounding to a double *)

Lemma Qred_inject_Z (z : Z) : Qred (inject_Z z) = inject_Z z.
Proof.
  apply Qcanon.Qred_identity. simpl. apply Z.gcd_1_r.
Qed.

(** The rounding depends on the rational only, not on the fraction
    that presents it. *)
Lemma to_double_Qeq (q1 q2 : Q) : Qeq q1 q2 -> to_double q1 = to_double q2.
Proof.
  intros H. unfold to_double. rewrite (Qred_complete _ _ H). reflexivity.
Qed.

Lemma floor_log2_integer (n : Z) : 0 < n -> floor_log2 n 1 = Z.log2 n.
Proof.
  intros Hn. unfold floor_log2, scaled.
  change (Z.log2 1) with 0. rewrite Z.sub_0_r.
  pose proof (Z.log2_nonneg n) as Hk.
  destruct (Z.leb_spec 0 (Z.log2 n)) as [_|]; [|lia].
  pose proof (Z.log2_spec n Hn) as [Hlo _].
  destruct (Z.leb_spec (1 * 2 ^ Z.log2 n) n) as [_|]; [reflexivity|lia].
Qed.

Lemma round_half_even_exact (n : Z) : round_half_even n 1 = n.
Proof.
  unfold round_half_even. rewrite Z.mod_1_r, Z.div_1_r. reflexivity.
Qed.

Lemma round_half_even_lower (n d : Z) : n / d <= round_half_even n d.
Proof.
  unfold round_half_even.
  destruct (2 * (n mod d) ?= d); [destruct (Z.even (n / d))| |]; lia.
Qed.

(** The integers up to 2^53 are doubles. *)
Lemma round_magnitude_integer (n : Z) :
  0 < n -> n <= 2 ^ 53 -> round_magnitude n 1 = Some (inject_Z n).
Proof.
  intros Hn Hle. unfold round_magnitude.
  rewrite (floor_log2_integer n Hn).
  pose proof (Z.log2_nonneg n) as Hk.
  pose proof (Z.log2_spec n Hn) as [Hlo Hhi].
  assert (Z.log2 n <= 53) as Hk53.
  { change 53 with (Z.log2 (2 ^ 53)). apply Z.log2_le_mono. exact Hle. }
  rewrite Z.max_l by lia.
  unfold scaled.
  destruct (Z.leb_spec 0 (Z.log2 n - 52)) as [He|He].
  - assert (Z.log2 n = 52 \/ Z.log2 n = 53) as [E|E] by lia; rewrite E in *.
    + change (1 * 2 ^ (52 - 52)) with 1. rewrite round_half_even_exact.
      change (2 ^ (52 - 52)) with 1. rewrite Z.mul_1_r.
      destruct (Z.leb_spec (2 ^ 1024) n) as [Hbig|_]; [|reflexivity].
      assert (2 ^ 53 < 2 ^ 1024) by (apply Z.pow_lt_mono_r; lia). lia.
    + assert (n = 2 ^ 53) as -> by lia. reflexivity.
  - rewrite round_half_even_exact. f_equal.
    rewrite <- (Qred_inject_Z n). apply Qred_complete.
    unfold Qeq. simpl.
    assert (0 < 2 ^ (- (Z.log2 n - 52))) by (apply Z.pow_pos_nonneg; lia).
    rewrite Z2Pos.id by lia. lia.
Qed.

(** From 2^53 on, an integer rounds to an integer that is again at
    least 2^53, or overflows. *)
Lemma round_magnitude_large (n : Z) :
  2 ^ 53 <= n ->
  round_magnitude n 1 = None \/
  exists m, 2 ^ 53 <= m /\ round_magnitude n 1 = Some (inject_Z m).
Proof.
  intros Hle.
  assert (0 < n) as Hn by (assert (0 < 2 ^ 53) by reflexivity; lia).
  unfold round_magnitude.
  rewrite (floor_log2_integer n Hn).
  pose proof (Z.log2_spec n Hn) as [Hlo Hhi].
  assert (53 <= Z.log2 n) as Hk53.
  { change 53 with (Z.log2 (2 ^ 53)). apply Z.log2_le_mono. exact Hle. }
  rewrite Z.max_l by lia.
  set (e := Z.log2 n - 52) in *.
  unfold scaled.
  destruct (Z.leb_spec 0 e) as [_|]; [|lia].
  rewrite Z.mul_1_l.
  destruct (Z.leb_spec (2 ^ 1024) (round_half_even n (2 ^ e) * 2 ^ e)) as [_|_];
    [left; reflexivity|right].
  eexists. split; [|reflexivity].
  assert (0 < 2 ^ e) as Hpe by (apply Z.pow_pos_nonneg; lia).
  assert (2 ^ 52 <= round_half_even n (2 ^ e)) as Hm.
  { etransitivity; [|apply round_half_even_lower].
    apply Z.div_le_lower_bound; [exact Hpe|].
    rewrite <- Z.pow_add_r by lia.
    replace (e + 52) with (Z.log2 n) by (unfold e; lia). exact Hlo. }
  assert (2 <= 2 ^ e) as H2.
  { change 2 with (2 ^ 1) at 1. apply Z.pow_le_mono_r; lia. }
  change (2 ^ 53) with (2 ^ 52 * 2). nia.
Qed.

Lemma to_double_integer (z : Z) :
  Z.abs z <= 2 ^ 53 -> to_double (inject_Z z) = num_of_Z z.
Proof.
  intros Hz. unfold to_double. rewrite Qred_inject_Z.
  destruct z as [|p|p]; simpl Qnum; simpl Qden; cbv iota.
  - reflexivity.
  - rewrite round_magnitude_integer by lia. reflexivity.
  - rewrite round_magnitude_integer by lia. reflexivity.
Qed.

Lemma to_double_large (z : Z) :
  2 ^ 53 <= z ->
  to_double (inject_Z z) = PosInfinity \/
  exists m, 2 ^ 53 <= m /\ to_double (inject_Z z) = num_of_Z m.
Proof.
  intros Hz. unfold to_double. rewrite Qred_inject_Z.
  assert (0 < 2 ^ 53) by reflexivity.
  destruct z as [|p|p]; try lia. simpl Qnum; simpl Qden; cbv iota.
  destruct (round_magnitude_large (Z.pos p) Hz) as [->|(m & Hm & ->)];
    [left; reflexivity|right; exists m; split; [exact Hm|reflexivity]].
Qed.

Lemma to_double_small (z : Z) :
  z <= - 2 ^ 53 ->
  to_double (inject_Z z) = NegInfinity \/
  exists m, m <= - 2 ^ 53 /\ to_double (inject_Z z) = num_of_Z m.
Proof.
  intros Hz. unfold to_double. rewrite Qred_inject_Z.
  assert (0 < 2 ^ 53) by reflexivity.
  destruct z as [|p|p]; try lia. simpl Qnum; simpl Qden; cbv iota.
  destruct (round_magnitude_large (Z.pos p)) as [->|(m & Hm & ->)];
    [lia|left; reflexivity|right; exists (- m); split; [lia|reflexivity]].
Qed.

Lemma to_double_rounds_to (z : Z) : rounds_to z (to_double (inject_Z z)).
Proof.
  assert (0 < 2 ^ 53) by reflexivity.
  destruct (Z_le_gt_dec (Z.abs z) (2 ^ 53)) as [Hin|Hout].
  - rewrite (to_double_integer z Hin).
    apply rounds_to_integer; [reflexivity|intros; assumption|intros; assumption].
  - destruct (Z_le_gt_dec 0 z) as [Hpos|Hneg].
    + destruct (to_double_large z) as [->|(m & Hm & ->)]; [lia| |].
      * apply rounds_to_PosInfinity. lia.
      * apply rounds_to_integer; lia.
    + destruct (to_double_small z) as [->|(m & Hm & ->)]; [lia| |].
      * apply rounds_to_NegInfinity. lia.
      * apply rounds_to_integer; lia.
Qed.

(** ** Arithmetic on numbers that denote integers *)

Lemma num_add_integers (x y : number) (a b : Z) :
  num_to_Z x = Some a -> num_to_Z y = Some b ->
  num_add x y = to_double (inject_Z (a + b)).
Proof.
  intros Hx Hy.
  destruct (num_to_Z_Fin x a Hx) as (qx & -> & Hqx).
  destruct (num_to_Z_Fin y b Hy) as (qy & -> & Hqy).
  simpl. apply to_double_Qeq.
  rewrite Hqx, Hqy. unfold Qeq. simpl. lia.
Qed.

Lemma num_sub_integers (x y : number) (a b : Z) :
  num_to_Z x = Some a -> num_to_Z y = Some b ->
  num_sub x y = to_double (inject_Z (a - b)).
Proof.
  intros Hx Hy.
  destruct (num_to_Z_Fin x a Hx) as (qx & -> & Hqx).
  destruct (num_to_Z_Fin y b Hy) as (qy & -> & Hqy).
  simpl. apply to_double_Qeq.
  rewrite Qred_correct, Hqx, Hqy. unfold Qeq. simpl. lia.
Qed.

(** Sums and differences of integers are exact as long as the result
    is at most 2^53 in magnitude. *)
Lemma num_to_Z_add (x y : number) (a b : Z) :
  num_to_Z x = Some a -> num_to_Z y = Some b ->
  Z.abs (a + b) <= 2 ^ 53 ->
  num_add x y = num_of_Z (a + b).
Proof.
  intros Hx Hy Hle. rewrite (num_add_integers x y a b Hx Hy).
  apply to_double_integer. exact Hle.
Qed.

Lemma num_to_Z_sub (x y : number) (a b : Z) :
  num_to_Z x = Some a -> num_to_Z y = Some b ->
  Z.abs (a - b) <= 2 ^ 53 ->
  num_sub x y = num_of_Z (a - b).
Proof.
  intros Hx Hy Hle. rewrite (num_sub_integers x y a b Hx Hy).
  apply to_double_integer. exact Hle.
Qed.

Lemma ToLength_rounds_to (z : Z) (x : number) :
  rounds_to z x ->
  (z <= 0 -> ToLength x = 0) /\
  (0 <= z <= 2 ^ 53 - 1 -> ToLength x = z) /\
  (2 ^ 53 - 1 <= z -> ToLength x = 2 ^ 53 - 1).
Proof.
  assert (0 < 2 ^ 53) by reflexivity.
  intros [m Hin Hhi Hlo|Hhi|Hlo]; rewrite ?ToLength_of_Z; simpl ToLength;
    repeat split; intros; lia.
Qed.

(** The number of bins asked for, on integers [a] and [b]: when the
    array constructor accepts it, it is [b - a + 1], or zero when that
    is negative. *)
Lemma range_of_integers (mn mx : number) (a b : Z) :
  num_to_Z mn = Some a ->
  num_to_Z mx = Some b ->
  ToLength (num_add (num_sub mx mn) (num_of_Z 1)) <= 2 ^ 32 - 1 ->
  ToLength (num_add (num_sub mx mn) (num_of_Z 1)) = Z.max 0 (b - a + 1).
Proof.
  intros Ha Hb.
  assert (0 < 2 ^ 53) as H53 by reflexivity.
  assert (2 ^ 32 - 1 < 2 ^ 53 - 1) as H32 by reflexivity.
  rewrite (num_sub_integers mx mn b a Hb Ha).
  destruct (to_double_rounds_to (b - a)) as [m Hin Hhi Hlo|Hhi|Hlo].
  - rewrite (num_add_integers _ _ m 1 (num_to_Z_of_Z m) (num_to_Z_of_Z 1)).
    destruct (ToLength_rounds_to _ _ (to_double_rounds_to (m + 1))) as (H0 & Hmid & Hbig).
    intros Hle. lia.
  - simpl ToLength. lia.
  - simpl ToLength. lia.
Qed.

(** ** scale *)

Lemma scale_bins_initial (min n : number) (bins : list bin) :
  scale_bins min n = Ok bins ->
  ToLength n <= 2 ^ 32 - 1 /\ scale_invariant (Z.to_nat (ToLength n)) bins.
Proof.
  unfold scale_bins.
  destruct (Z.ltb_spec (2 ^ 32 - 1) (ToLength n)) as [|Hle]; [discriminate|].
  intros H. inversion H; subst; clear H. split; [exact Hle|]. split.
  - rewrite length_map, length_seq. reflexivity.
  - apply Forall_forall. intros b Hb. apply list_elem_of_In, in_map_iff in Hb.
    destruct Hb as (i & <- & _). simpl. lia.
Qed.

Lemma Forall_alter_incr (bins : list bin) (k : nat) :
  Forall (fun b => 0 <= count b) bins ->
  Forall (fun b => 0 <= count b) (alter incr k bins).
Proof.
  intros H. revert k. induction H as [|b bs Hb Hbs IH]; intros k; [constructor|].
  destruct k as [|k]; simpl; constructor; auto.
  - simpl. lia.
  - apply IH.
Qed.

Lemma bump_invariant (n : nat) (bins bins' : list bin) (bi : number) :
  scale_invariant n bins -> bump bins bi = Ok bins' -> scale_invariant n bins'.
Proof.
  intros (Hlen & Hpos). unfold bump.
  destruct (num_to_Z bi) as [z|]; [|discriminate].
  destruct (Z.leb 0 z && Z.ltb z (Z.of_nat (length bins))); [|discriminate].
  intros H. inversion H; subst; clear H. split.
  - apply length_alter.
  - apply Forall_alter_incr. assumption.
Qed.

Lemma scale_step_invariant (min : number) (qi n : nat)
    (bins : list bin) (r : response_set) (bins' : list bin) :
  scale_invariant n bins ->
  scale_step min qi bins r = Ok bins' ->
  scale_invariant n bins'.
Proof.
  intros Hinv. unfold scale_step.
  destruct (ToNumber (answer_at qi r)) as [v|e]; cbn [bind]; [|discriminate].
  destruct (num_leb (num_of_Z 0) (num_sub v min)
            && num_ltb (num_sub v min) (num_of_Z (Z.of_nat (length bins)))).
  - apply bump_invariant. assumption.
  - intros H. inversion H; subst. assumption.
Qed.

Lemma scale_summary_invariant (q : value) (qi : nat) (R : option (list response_set))
    (text : value) (bins : list bin) (mn mx : number) :
  scale_summary q qi R = Ok (Scale text bins mn mx) ->
  ToLength (num_add (num_sub mx mn) (num_of_Z 1)) <= 2 ^ 32 - 1 /\
  scale_invariant (Z.to_nat (ToLength (num_add (num_sub mx mn) (num_of_Z 1)))) bins.
Proof.
  unfold scale_summary. intros H.
  destruct (get q "min") as [qmin|e]; simpl in H; [|discriminate].
  destruct (ToNumber (nullish_else qmin (VNum (num_of_Z 1)))) as [mn'|e];
    simpl in H; [|discriminate].
  destruct (get q "max") as [qmax|e]; simpl in H; [|discriminate].
  destruct (ToNumber (nullish_else qmax (VNum (num_of_Z 5)))) as [mx'|e];
    simpl in H; [|discriminate].
  destruct (scale_bins mn' (num_add (num_sub mx' mn') (num_of_Z 1)))
    as [bins0|e] eqn:Hbins; simpl in H; [|discriminate].
  destruct (forEach R (scale_step mn' qi) bins0) as [bins1|e] eqn:Hrun;
    simpl in H; [|discriminate].
  destruct (get q "text") as [t|e]; simpl in H; [|discriminate].
  inversion H; subst; clear H.
  destruct (scale_bins_initial _ _ _ Hbins) as (Hle & Hinit).
  split; [exact Hle|].
  destruct R as [l|]; simpl in Hrun; [|discriminate].
  eapply (fold_result_invariant (scale_invariant _)); [| exact Hinit | exact Hrun].
  intros s x s'. apply scale_step_invariant.
Qed.

(** ** text *)

Lemma text_count_from (qi : nat) (R : list response_set) (n : Z) :
  fold_left (fun n r => if truthy (answer_at qi r) then n + 1 else n) R n =
  n + Z.of_nat (length (counted qi R)).
Proof.
  revert n. induction R as [|r R IH]; intros n; simpl; [lia|].
  rewrite IH. unfold counted. rewrite filter_cons.
  destruct (decide (truthy (answer_at qi r) = true)) as [Ht|Ht].
  - rewrite Ht. simpl. lia.
  - apply not_true_is_false in Ht. rewrite Ht. lia.
Qed.

Lemma text_count_counted (qi : nat) (R : list response_set) :
  text_count qi R = Z.of_nat (length (counted qi R)).
Proof. unfold text_count. rewrite text_count_from. lia. Qed.

Lemma is_string_false (t : value) (s : string) : t <> VStr s -> is_string t s = false.
Proof.
  intros Hne. destruct t; simpl; try reflexivity.
  apply String.eqb_neq. congruence.
Qed.

(** The condition of the reducer, [r.answers[qi]?.answer], holds
    exactly for the responses that give an answer. *)
Lemma truthy_answer_at (qi : nat) (r : response_set) :
  truthy (answer_at qi r) = gives_answer qi r.
Proof.
  unfold answer_at, gives_answer.
  destruct (answers r !! qi) as [[| | | | | |fields]|]; try reflexivity.
  simpl. destruct (own_property fields "answer") as [v|]; [|reflexivity].
  destruct v as [| |[|]|[| | |q]|[|c s]| |]; reflexivity.
Qed.

Lemma text_count_gives_answer (qi : nat) (R : list response_set) :
  text_count qi R = Z.of_nat (length (List.filter (gives_answer qi) R)).
Proof.
  unfold text_count.
  assert (H : forall n,
             fold_left (fun n r => if truthy (answer_at qi r) then n + 1 else n) R n =
             n + Z.of_nat (length (List.filter (gives_answer qi) R))).
  { induction R as [|r R IH]; intros n; simpl.
    - lia.
    - rewrite IH, truthy_answer_at.
      destruct (gives_answer qi r); simpl length; lia. }
  rewrite H. lia.
Qed.

(** C7. A question that the dispatch sends to the text branch (its
    [type] is neither ['mcq'] nor ['scale']) is summarized with a count
    that is the number of responses giving an answer at the question's
    index, in the specification's sense ([gives_answer]).  The count
    is at most the number of responses; a response whose answer list
    is too short, or whose entry at that index is not an object, has no
    [answer], or has a null or empty-string [answer], is not among the
    counted; a response whose entry holds a non-empty string is. *)
Theorem C7_text_count_truthy
    (R : list response_set) (qi : nat) (q t : value) :
  get q "type" = Ok t ->
  t <> VStr "mcq" ->
  t <> VStr "scale" ->
  summarize (Some R) qi q =
    Ok (Text (member q "text")
          (Z.of_nat (length (List.filter (gives_answer qi) R)))) /\
  (length (List.filter (gives_answer qi) R) <= length R)%nat /\
  (forall r, In r R ->
     (answers r !! qi = None \/
      (exists v, answers r !! qi = Some v /\ forall fields, v <> VObj fields) \/
      (exists fields, answers r !! qi = Some (VObj fields) /\
         (own_property fields "answer" = None \/
          own_property fields "answer" = Some VUndefined \/
          own_property fields "answer" = Some VNull \/
          own_property fields "answer" = Some (VStr EmptyString)))) ->
     ~ In r (List.filter (gives_answer qi) R)) /\
  (forall r fields c s, In r R ->
     answers r !! qi = Some (VObj fields) ->
     own_property fields "answer" = Some (VStr (String c s)) ->
     In r (List.filter (gives_answer qi) R)).
Proof.
  intros Hget Hmcq Hscale. split; [|split; [|split]].
  - unfold summarize. rewrite Hget. cbn [bind].
    rewrite (is_string_false _ _ Hmcq), (is_string_false _ _ Hscale).
    unfold text_summary. rewrite text_count_gives_answer.
    destruct q; simpl in Hget; try discriminate; reflexivity.
  - apply List.filter_length_le.
  - intros r _ Hr Hin. apply List.filter_In in Hin. destruct Hin as (_ & Hg).
    unfold gives_answer in Hg.
    destruct Hr as [Hr|[(v & Hr & Hv)|(fields & Hr & Hf)]].
    + rewrite Hr in Hg. discriminate.
    + rewrite Hr in Hg. destruct v; try discriminate.
      eapply Hv. reflexivity.
    + rewrite Hr in Hg.
      destruct Hf as [Hf|[Hf|[Hf|Hf]]]; rewrite Hf in Hg; discriminate.
  - intros r fields c s Hin Hr Hf. apply List.filter_In. split; [exact Hin|].
    unfold gives_answer. rewrite Hr, Hf. reflexivity.
Qed.

(** ** dispatch *)

(** C9. A question whose [type] is neither ['mcq'] nor ['scale'] (the
    property may be absent, or spelled ['multiple_choice'] or
    ['free_text']) is summarized by the text branch: the summary is
    [{ type: 'text', text: q.text, count }] with the count of truthy
    answers. *)
Theorem C9_other_types_are_text
    (R : list response_set) (qi : nat) (q t : value) :
  get q "type" = Ok t ->
  t <> VStr "mcq" ->
  t <> VStr "scale" ->
  summarize (Some R) qi q =
    Ok (Text (member q "text") (Z.of_nat (length (counted qi R)))).
Proof.
  intros Hget Hmcq Hscale. unfold summarize. rewrite Hget. cbn [bind].
  rewrite (is_string_false _ _ Hmcq), (is_string_false _ _ Hscale).
  unfold text_summary. rewrite text_count_counted.
  destruct q; simpl in Hget; try discriminate; reflexivity.
Qed.

(** ** Shape of the summaries *)

Lemma mapi_result_Forall2 {A B} (P : A -> B -> Prop) (f : nat -> A -> result B) :
  (forall i x y, f i x = Ok y -> P x y) ->
  forall l i out, mapi_result f i l = Ok out -> Forall2 P l out.
Proof.
  intros Hf. induction l as [|x l IH]; intros i out H; simpl in H.
  - inversion H. constructor.
  - destruct (f i x) as [y|e] eqn:Hy; cbn [bind] in H; [|discriminate].
    destruct (mapi_result f (S i) l) as [ys|e] eqn:Hys; cbn [bind] in H; [|discriminate].
    inversion H; subst. constructor; [eapply Hf; eassumption | eapply IH; eassumption].
Qed.

(** The [min] and [max] of a scale summary are read from the question. *)
Lemma scale_summary_bounds (q : value) (qi : nat) (R : option (list response_set))
    (text : value) (bins : list bin) (mn mx : number) :
  scale_summary q qi R = Ok (Scale text bins mn mx) ->
  ToNumber (nullish_else (member q "min") (VNum (num_of_Z 1))) = Ok mn /\
  ToNumber (nullish_else (member q "max") (VNum (num_of_Z 5))) = Ok mx.
Proof.
  unfold scale_summary. intros H.
  assert (Hq : forall k v, get q k = Ok v -> v = member q k).
  { intros k v. destruct q; simpl; intros E; inversion E; reflexivity. }
  destruct (get q "min") as [qmin|e] eqn:Hmin; cbn [bind] in H; [|discriminate].
  apply Hq in Hmin. subst qmin.
  destruct (ToNumber (nullish_else (member q "min") (VNum (num_of_Z 1)))) as [mn'|e];
    cbn [bind] in H; [|discriminate].
  destruct (get q "max") as [qmax|e] eqn:Hmax; cbn [bind] in H; [|discriminate].
  apply Hq in Hmax. subst qmax.
  destruct (ToNumber (nullish_else (member q "max") (VNum (num_of_Z 5)))) as [mx'|e];
    cbn [bind] in H; [|discriminate].
  destruct (scale_bins mn' (num_add (num_sub mx' mn') (num_of_Z 1))) as [b0|e];
    cbn [bind] in H; [|discriminate].
  destruct (forEach R (scale_step mn' qi) b0) as [b1|e];
    cbn [bind] in H; [|discriminate].
  destruct (get q "text") as [tx|e]; cbn [bind] in H; [|discriminate].
  inversion H; subst. split; reflexivity.
Qed.

Lemma summarize_shape (R : option (list response_set)) (qi : nat)
    (q : value) (s : summary) :
  summarize R qi q = Ok s -> summary_shape q s.
Proof.
  unfold summarize.
  destruct (get q "type") as [t|e]; cbn [bind]; [|discriminate].
  destruct (is_string t "mcq"); [|destruct (is_string t "scale")]; intros H.
  - pose proof H as H'. unfold mcq_summary in H'.
    destruct (mcq_labels q) as [ls|e] eqn:Hls; cbn [bind] in H'; [|discriminate].
    destruct (forEach R (mcq_step ls qi) (map (fun _ => 0) ls)) as [cs|e];
      cbn [bind] in H'; [|discriminate].
    destruct (get q "text") as [tx|e]; cbn [bind] in H'; [|discriminate].
    inversion H'; subst; clear H'.
    destruct (mcq_summary_invariant _ _ _ _ _ _ H) as (Hlen & Hpos & _).
    split; [exact Hls|]. split; assumption.
  - pose proof H as H'. unfold scale_summary in H'.
    destruct (get q "min") as [qmin|e]; cbn [bind] in H'; [|discriminate].
    destruct (ToNumber (nullish_else qmin (VNum (num_of_Z 1)))) as [mn|e];
      cbn [bind] in H'; [|discriminate].
    destruct (get q "max") as [qmax|e]; cbn [bind] in H'; [|discriminate].
    destruct (ToNumber (nullish_else qmax (VNum (num_of_Z 5)))) as [mx|e];
      cbn [bind] in H'; [|discriminate].
    destruct (scale_bins mn (num_add (num_sub mx mn) (num_of_Z 1))) as [b0|e];
      cbn [bind] in H'; [|discriminate].
    destruct (forEach R (scale_step mn qi) b0) as [b1|e];
      cbn [bind] in H'; [|discriminate].
    destruct (get q "text") as [tx|e]; cbn [bind] in H'; [|discriminate].
    inversion H'; subst; clear H'.
    destruct (scale_summary_bounds _ _ _ _ _ _ _ H) as (Hmn & Hmx).
    destruct (scale_summary_invariant _ _ _ _ _ _ _ H) as (Hle & Hlen & Hpos).
    assert (Hnonneg : 0 <= ToLength (num_add (num_sub mx mn) (num_of_Z 1))).
    { destruct (num_add (num_sub mx mn) (num_of_Z 1)); simpl; lia. }
    cbn [summary_shape].
    split; [exact Hmn|]. split; [exact Hmx|]. split; [lia|]. split; [|assumption].
    intros a b Ha Hb.
    rewrite (range_of_integers mn mx a b Ha Hb Hle) in *. lia.
  - unfold text_summary in H. destruct R as [l|]; [|discriminate].
    destruct (get q "text") as [tx|e]; cbn [bind] in H; [|discriminate].
    inversion H; subst. simpl. rewrite text_count_counted. lia.
Qed.

(** C5. Whatever the questions and the response sequence (the empty
    one included), the aggregator returns one summary per question, and
    each has the shape its question fixes: an mcq summary has the
    labels of the question's options and as many counts as labels; a
    scale summary carries the question's [min] and
    [max], and when these are integers with [min <= max] it has
    exactly [max - min + 1] bins (no bin at all when [max - min + 1]
    is negative; in general ToLength of [max - min + 1] as computed in
    doubles); every count is non-negative. *)
Theorem C5_summary_shapes
    (questions : list value) (R : list response_set) (out : list summary) :
  aggregate questions R = Ok out -> Forall2 summary_shape questions out.
Proof.
  unfold aggregate. apply mapi_result_Forall2.
  intros i q s. apply summarize_shape.
Qed.

(** The aggregator returns one summary per question. *)
Lemma aggregate_length (questions : list value) (R : list response_set)
    (out : list summary) :
  aggregate questions R = Ok out -> length out = length questions.
Proof.
  unfold aggregate. generalize 0%nat. revert out.
  induction questions as [|q qs IH]; intros out i H; simpl in H.
  - inversion H. reflexivity.
  - destruct (summarize (Some R) i q) as [s|e]; cbn [bind] in H; [|discriminate].
    destruct (mapi_result (summarize (Some R)) (S i) qs) as [ss|e] eqn:Hss;
      cbn [bind] in H; [|discriminate].
    inversion H; subst. simpl. f_equal. eapply IH; eauto.
Qed.

(** ** scale: what one answer does *)

(** An offset outside [0, bins.length) changes nothing. *)
Lemma scale_step_out_of_range (min : number) (qi : nat) (bins : list bin)
    (r : response_set) (v : number) :
  ToNumber (answer_at qi r) = Ok v ->
  num_leb (num_of_Z 0) (num_sub v min)
    && num_ltb (num_sub v min) (num_of_Z (Z.of_nat (length bins))) = false ->
  scale_step min qi bins r = Ok bins.
Proof.
  intros Hv Hrange. unfold scale_step. rewrite Hv. cbn [bind].
  rewrite Hrange. reflexivity.
Qed.

(** An offset inside the range that is not an integer reaches
    [bins[bi].count++] with [bins[bi]] undefined. *)
Lemma scale_step_fraction_in_range (min : number) (qi : nat) (bins : list bin)
    (r : response_set) (v : number) :
  ToNumber (answer_at qi r) = Ok v ->
  num_leb (num_of_Z 0) (num_sub v min)
    && num_ltb (num_sub v min) (num_of_Z (Z.of_nat (length bins))) = true ->
  num_to_Z (num_sub v min) = None ->
  scale_step min qi bins r = Throw TypeError.
Proof.
  intros Hv Hrange Hfrac. unfold scale_step. rewrite Hv. cbn [bind].
  rewrite Hrange. unfold bump. rewrite Hfrac. reflexivity.
Qed.

(** C3 (what the code does). With [min = 1] and [max = 5], the answer
    2.5 has offset 1.5: no rounding is applied, the offset passes the
    range test, [bins[1.5]] is undefined, and the aggregation throws a
    TypeError instead of dropping the answer. *)
Theorem C3_fractional_answer_throws (t : Z) :
  aggregate
    [VObj [("type", VStr "scale"); ("min", VNum (num_of_Z 1));
           ("max", VNum (num_of_Z 5)); ("text", VStr "Q")]]
    [{| ts := t; answers := [VObj [("answer", VNum (Fin (5 # 2)))]] |}]
  = Throw TypeError.
Proof. reflexivity. Qed.

(** C4 (what the code does). An mcq question answered with the number
    3: [(3 || '')] is 3, a number has no [trim], and the aggregation
    throws a TypeError. *)
Theorem C4_number_answer_to_mcq_throws (t : Z) :
  aggregate
    [VObj [("type", VStr "mcq"); ("options", VArr [VStr "A"; VStr "B"]);
           ("text", VStr "Q")]]
    [{| ts := t; answers := [VObj [("answer", VNum (num_of_Z 3))]] |}]
  = Throw TypeError.
Proof. reflexivity. Qed.

(** ** Routes *)

Lemma DB_save (st : server) : DB (save st) = DB st.
Proof. unfold save. destruct (writable st); reflexivity. Qed.

Lemma read_own {A} (o : gmap string A) (k : string) (a : A) :
  o !! k = Some a -> read o k = Own a.
Proof. intros H. unfold read. rewrite H. reflexivity. Qed.

Lemma read_absent {A} (o : gmap string A) (k : string) :
  o !! k = None -> k ∉ Object_prototype_names -> read o k = Absent.
Proof.
  intros H Hk. unfold read. rewrite H.
  rewrite bool_decide_eq_false_2 by assumption. reflexivity.
Qed.

Lemma read_inherited {A} (o : gmap string A) (k : string) :
  o !! k = None -> k ∈ Object_prototype_names -> read o k = Inherited.
Proof.
  intros H Hk. unfold read. rewrite H.
  rewrite bool_decide_eq_true_2 by assumption. reflexivity.
Qed.

(** An id that is neither stored nor an inherited name is answered 404
    and nothing changes. *)
Lemma post_response_not_found (now : Z) (id : string) (body : value) (st : server) :
  surveys (DB st) !! id = None ->
  id ∉ Object_prototype_names ->
  post_response now id body st = (SendStatus 404, st).
Proof.
  intros Hs Hid. unfold post_response. rewrite (read_absent _ _ Hs Hid). reflexivity.
Qed.

(** For a stored survey, answers that are not an array are answered 400
    and nothing changes. *)
Lemma post_response_invalid (now : Z) (id : string) (body : value) (st : server)
    (s : survey) :
  surveys (DB st) !! id = Some s ->
  (forall ans, member (or_else body (VObj [])) "answers" <> VArr ans) ->
  post_response now id body st = (Json_error 400 "answers required", st).
Proof.
  intros Hs Hbody. unfold post_response. rewrite (read_own _ _ _ Hs).
  destruct (member (or_else body (VObj [])) "answers") eqn:Hm; try reflexivity.
  exfalso. eapply Hbody. reflexivity.
Qed.

(** For a stored survey with its response list, an array of answers is
    appended as one new response set stamped [now], and saved. *)
Lemma post_response_appends (now : Z) (id : string) (body : value) (st : server)
    (s : survey) (R : list response_set) (ans : list value) :
  surveys (DB st) !! id = Some s ->
  responses (DB st) !! id = Some R ->
  member (or_else body (VObj [])) "answers" = VArr ans ->
  post_response now id body st =
    (Json_ok,
     save {| DB := {| surveys := surveys (DB st);
                      responses :=
                        <[id := (R ++ [{| ts := now; answers := ans |}])%list]>
                          (responses (DB st)) |};
             DB_FILE := DB_FILE st;
             writable := writable st |}).
Proof.
  intros Hs HR Hbody. unfold post_response.
  rewrite (read_own _ _ _ Hs), Hbody, (read_own _ _ _ HR). reflexivity.
Qed.

(** C8 (what the code does). An id that names a member of
    [Object.prototype] and is not a stored survey passes the
    [!DB.surveys[id]] guard; with an array of answers the route then
    calls [push] on the inherited [DB.responses[id]] and throws a
    TypeError.  No 404 is sent; the store is unchanged. *)
Theorem C8_inherited_id_passes_guard
    (now : Z) (id : string) (ans : list value) (st : server) :
  id ∈ Object_prototype_names ->
  surveys (DB st) !! id = None ->
  responses (DB st) !! id = None ->
  post_response now id (VObj [("answers", VArr ans)]) st = (Uncaught TypeError, st).
Proof.
  intros Hid Hs HR. unfold post_response.
  rewrite (read_inherited _ _ Hs Hid), (read_inherited _ _ HR Hid). reflexivity.
Qed.

Lemma get_analytics_stored (id : string) (st : server) (s : survey)
    (R : list response_set) :
  surveys (DB st) !! id = Some s ->
  responses (DB st) !! id = Some R ->
  get_analytics id st =
    (match aggregate (questions s) R with
     | Ok out => Json_out out
     | Throw e => Uncaught e
     end, st).
Proof.
  intros Hs HR. unfold get_analytics, aggregate.
  rewrite (read_own _ _ _ Hs), (read_own _ _ _ HR).
  destruct (mapi_result _ 0 (questions s)); reflexivity.
Qed.

(** ** End to end *)

(** Closes a goal reading a survey or a response list back just after
    it was stored. *)
Ltac stored :=
  repeat (rewrite DB_save || cbn [DB surveys responses]);
  apply lookup_insert_eq.

(** C1. Create a survey with the single scale question min = 1,
    max = 3; submit the answers 2, 2 and 5; the analytics of that
    question then hold the bins 1, 2, 3 with counts 0, 2, 0: the
    answer 5 is out of range and increments no bin.  This holds from
    any server state, for any generated id and any timestamps. *)
Theorem C1_end_to_end (uuid : string) (t1 t2 t3 : Z) (st : server) :
  let id := substring 0 8 uuid in
  let st0 := snd (post_survey uuid survey_body st) in
  let st1 := snd (post_response t1 id (answers_body (VNum (num_of_Z 2))) st0) in
  let st2 := snd (post_response t2 id (answers_body (VNum (num_of_Z 2))) st1) in
  let st3 := snd (post_response t3 id (answers_body (VNum (num_of_Z 5))) st2) in
  fst (post_survey uuid survey_body st) = Json_id id /\
  fst (post_response t1 id (answers_body (VNum (num_of_Z 2))) st0) = Json_ok /\
  fst (post_response t2 id (answers_body (VNum (num_of_Z 2))) st1) = Json_ok /\
  fst (post_response t3 id (answers_body (VNum (num_of_Z 5))) st2) = Json_ok /\
  fst (get_analytics id st3) =
    Json_out [Scale (VStr "Q")
                [{| label := "1"; count := 0 |};
                 {| label := "2"; count := 2 |};
                 {| label := "3"; count := 0 |}]
                (num_of_Z 1) (num_of_Z 3)].
Proof.
  intros id st0 st1 st2 st3.
  assert (H0 : post_survey uuid survey_body st =
               (Json_id id,
                save {| DB := {| surveys :=
                                   <[id := {| id := id; title := VStr "T";
                                              questions := [scale_1_3] |}]>
                                     (surveys (DB st));
                                 responses := <[id := []]> (responses (DB st)) |};
                        DB_FILE := DB_FILE st; writable := writable st |}))
    by reflexivity.
  subst st3 st2 st1 st0. rewrite H0. cbn [fst snd].
  split; [reflexivity|].
  erewrite post_response_appends; [| stored | stored | reflexivity].
  cbn [fst snd]. split; [reflexivity|].
  erewrite post_response_appends; [| stored | stored | reflexivity].
  cbn [fst snd]. split; [reflexivity|].
  erewrite post_response_appends; [| stored | stored | reflexivity].
  cbn [fst snd]. split; [reflexivity|].
  erewrite get_analytics_stored; [| stored | stored].
  reflexivity.
Qed.

(** ** The store stays consistent *)

(** Every stored survey has its response list: [post_survey] stores
    both, and nothing removes either. *)
Lemma post_survey_consistent (uuid : string) (body : value) (st : server) :
  consistent st -> consistent (snd (post_survey uuid body st)).
Proof.
  intros Hc. unfold post_survey.
  destruct (member (or_else body (VObj [])) "questions"); try exact Hc.
  cbn [snd]. intros k s. rewrite DB_save. cbn [DB surveys responses].
  destruct (decide (substring 0 8 uuid = k)) as [<-|Hne].
  - intros _. rewrite lookup_insert_eq. eauto.
  - rewrite !lookup_insert_ne by assumption. apply Hc.
Qed.

Lemma post_response_consistent (now : Z) (id : string) (body : value) (st : server) :
  consistent st -> consistent (snd (post_response now id body st)).
Proof.
  intros Hc. unfold post_response.
  destruct (read (surveys (DB st)) id); try exact Hc;
    (destruct (member (or_else body (VObj [])) "answers"); try exact Hc;
     destruct (read (responses (DB st)) id); try exact Hc;
     cbn [snd]; intros k s; rewrite DB_save; cbn [DB surveys responses];
     intros Hs; destruct (decide (id = k)) as [<-|Hne];
     [rewrite lookup_insert_eq; eauto
     |rewrite lookup_insert_ne by assumption; eapply Hc; eauto]).
Qed.

Lemma initial_consistent (w : bool) : consistent (initial w).
Proof. intros k s Hs. cbn in Hs. rewrite lookup_empty in Hs. discriminate. Qed.

(** On a consistent store, a stored survey and an array of answers
    always lead to success, with exactly one response set appended to
    that survey's list and every other list untouched. *)
Lemma post_response_succeeds (now : Z) (id : string) (body : value) (st : server)
    (s : survey) (ans : list value) :
  consistent st ->
  surveys (DB st) !! id = Some s ->
  member (or_else body (VObj [])) "answers" = VArr ans ->
  exists R,
    responses (DB st) !! id = Some R /\
    fst (post_response now id body st) = Json_ok /\
    responses (DB (snd (post_response now id body st))) !! id =
      Some (R ++ [{| ts := now; answers := ans |}])%list /\
    surveys (DB (snd (post_response now id body st))) = surveys (DB st) /\
    (forall k, k <> id ->
       responses (DB (snd (post_response now id body st))) !! k =
       responses (DB st) !! k).
Proof.
  intros Hc Hs Hbody. destruct (Hc id s Hs) as [R HR]. exists R.
  rewrite (post_response_appends now id body st s R ans Hs HR Hbody).
  cbn [fst snd]. rewrite DB_save. cbn [DB surveys responses].
  repeat split; [assumption | apply lookup_insert_eq |].
  intros k Hk. apply lookup_insert_ne. congruence.
Qed.

(** ** Missing answers *)

(** A response whose answer list is too short for the question reads as
    undefined: it raises nothing in any branch, is not counted by the
    text branch, leaves the bins alone, and leaves the counts alone
    unless the empty string is itself a label. *)
Lemma missing_answer_skipped (labels : list string) (min : number) (qi : nat)
    (counts : list Z) (bins : list bin) (r : response_set) :
  answers r !! qi = None ->
  answer_at qi r = VUndefined /\
  truthy (answer_at qi r) = false /\
  scale_step min qi bins r = Ok bins /\
  (EmptyString ∉ labels -> mcq_step labels qi counts r = Ok counts).
Proof.
  intros Hshort.
  assert (Ha : answer_at qi r = VUndefined).
  { unfold answer_at. rewrite Hshort. reflexivity. }
  split; [exact Ha|]. split; [rewrite Ha; reflexivity|]. split.
  - apply (scale_step_out_of_range min qi bins r NaN).
    + rewrite Ha. reflexivity.
    + destruct min; reflexivity.
  - intros Hnot. apply (mcq_step_unmatched labels qi counts r EmptyString).
    + rewrite Ha. reflexivity.
    + exact Hnot.
Qed.

(** * Further properties of the aggregator *)

(** ** One summary per question, in order *)

Lemma mapi_result_lookup {A B} (f : nat -> A -> result B) (l : list A) :
  forall (i : nat) (out : list B),
    mapi_result f i l = Ok out ->
    length out = length l /\
    (forall (k : nat) (x : A), l !! k = Some x ->
       exists y, out !! k = Some y /\ f (i + k)%nat x = Ok y).
Proof.
  induction l as [|x l IH]; intros i out Hrun; simpl in Hrun.
  - inversion Hrun; subst. split; [reflexivity|]. intros k y Hk. discriminate.
  - destruct (f i x) as [y|e] eqn:Hy; cbn [bind] in Hrun; [|discriminate].
    destruct (mapi_result f (S i) l) as [ys|e] eqn:Hys; cbn [bind] in Hrun; [|discriminate].
    inversion Hrun; subst; clear Hrun.
    destruct (IH (S i) ys Hys) as (Hlen & Hat). split; [simpl; congruence|].
    intros [|k] z Hk; simpl in Hk.
    + inversion Hk; subst. exists y. rewrite Nat.add_0_r. auto.
    + destruct (Hat k z Hk) as (y' & Hy' & Hf). exists y'. split; [exact Hy'|].
      replace (i + S k)%nat with (S i + k)%nat by lia. exact Hf.
Qed.

Lemma mapi_result_total {A B} (f : nat -> A -> result B) (l : list A) :
  forall i : nat,
    (forall (k : nat) (x : A), l !! k = Some x -> exists y, f (i + k)%nat x = Ok y) ->
    exists out, mapi_result f i l = Ok out.
Proof.
  induction l as [|x l IH]; intros i Hall; simpl.
  - eauto.
  - destruct (Hall 0%nat x eq_refl) as (y & Hy). rewrite Nat.add_0_r in Hy.
    rewrite Hy. cbn [bind].
    destruct (IH (S i)) as (ys & Hys).
    + intros k z Hk. destruct (Hall (S k) z Hk) as (y' & Hy').
      exists y'. replace (S i + k)%nat with (i + S k)%nat by lia. exact Hy'.
    + rewrite Hys. cbn [bind]. eauto.
Qed.

(** The output of the aggregator follows the questions position by
    position: entry [k] is the summary of question [k], computed with
    the answers at index [k]. *)
Theorem aggregate_positional
    (questions : list value) (R : list response_set) (out : list summary) :
  aggregate questions R = Ok out ->
  length out = length questions /\
  (forall (k : nat) (q : value), questions !! k = Some q ->
     exists s, out !! k = Some s /\ summarize (Some R) k q = Ok s).
Proof.
  unfold aggregate. intros H.
  destruct (mapi_result_lookup _ _ _ _ H) as (Hlen & Hat). split; [exact Hlen|].
  intros k q Hk. destruct (Hat k q Hk) as (s & Hs & Hf). exists s. auto.
Qed.

(** The aggregator succeeds exactly when the summary of every question
    does: one question whose summary throws makes the whole analytics
    fail, whatever the other questions are. *)
Theorem aggregate_succeeds_iff (questions : list value) (R : list response_set) :
  (exists out, aggregate questions R = Ok out) <->
  (forall (k : nat) (q : value), questions !! k = Some q ->
     exists s, summarize (Some R) k q = Ok s).
Proof.
  unfold aggregate. split.
  - intros (out & H) k q Hk.
    destruct (mapi_result_lookup _ _ _ _ H) as (_ & Hat).
    destruct (Hat k q Hk) as (s & _ & Hs). eauto.
  - intros Hall. apply mapi_result_total. exact Hall.
Qed.

(** ** mcq: what the counts are *)

Lemma mcq_step_chosen (labels : list string) (qi : nat) (counts : list Z)
    (r : response_set) :
  string_or_falsy (answer_at qi r) ->
  mcq_step labels qi counts r =
    Ok (match chosen labels qi r with
        | Some i => alter Z.succ i counts
        | None => counts
        end).
Proof.
  intros Hv. unfold mcq_step, chosen.
  assert (Htrim : exists a, call_trim (or_else (answer_at qi r) (VStr EmptyString)) = Ok a).
  { unfold or_else. destruct (answer_at qi r) as [| |b|n|s|l|fs]; simpl in Hv |- *;
      try discriminate Hv; try rewrite Hv; simpl; eauto.
    destruct (negb (String.eqb s EmptyString)); simpl; eauto. }
  destruct Htrim as (a & ->). cbn [bind].
  destruct (Z.leb 0 (indexOf labels a)); reflexivity.
Qed.

Lemma votes_snoc (labels : list string) (qi : nat) (R : list response_set)
    (r : response_set) (i : nat) :
  votes labels qi (R ++ [r])%list i =
  votes labels qi R i + (if decide (chosen labels qi r = Some i) then 1 else 0).
Proof.
  unfold votes. rewrite filter_app, length_app.
  rewrite filter_cons, filter_nil.
  destruct (decide (chosen labels qi r = Some i)); simpl; lia.
Qed.

Lemma mcq_tally_votes (labels : list string) (qi : nat) (R : list response_set) :
  Forall (fun r => string_or_falsy (answer_at qi r)) R ->
  fold_result (mcq_step labels qi) R (map (fun _ => 0) labels) =
  Ok (map (votes labels qi R) (seq 0 (length labels))).
Proof.
  induction R as [|r R IH] using rev_ind; intros Hall.
  - simpl. f_equal. apply list_eq. intros k.
    rewrite !list_lookup_fmap.
    destruct (decide (k < length labels)%nat) as [Hk|Hk].
    + rewrite lookup_seq_lt by assumption.
      destruct (lookup_lt_is_Some_2 labels k Hk) as (l & ->). reflexivity.
    + rewrite lookup_seq_ge by lia. rewrite lookup_ge_None_2 by lia. reflexivity.
  - apply Forall_app in Hall. destruct Hall as (HR & Hr).
    apply Forall_inv in Hr.
    rewrite fold_result_app, (IH HR). cbn [bind fold_result].
    rewrite (mcq_step_chosen _ _ _ _ Hr). cbn [bind]. f_equal.
    apply list_eq. intros k. rewrite list_lookup_fmap.
    assert (Hsnoc := votes_snoc labels qi R r k).
    destruct (decide (k < length labels)%nat) as [Hk|Hk].
    + rewrite lookup_seq_lt by assumption. simpl. rewrite Hsnoc.
      destruct (chosen labels qi r) as [i|] eqn:Hc.
      * rewrite list_lookup_alter.
        destruct (decide (i = k)) as [->|Hne].
        -- rewrite list_lookup_fmap, lookup_seq_lt by assumption. simpl.
           rewrite decide_True by reflexivity. f_equal; lia.
        -- rewrite list_lookup_fmap, lookup_seq_lt by assumption. simpl.
           rewrite decide_False by congruence. f_equal; lia.
      * rewrite list_lookup_fmap, lookup_seq_lt by assumption. simpl.
        f_equal; lia.
    + rewrite lookup_seq_ge by lia. simpl.
      destruct (chosen labels qi r) as [i|].
      * rewrite list_lookup_alter.
        destruct (decide (i = k)) as [->|Hne];
          rewrite list_lookup_fmap, lookup_seq_ge by lia; reflexivity.
      * rewrite list_lookup_fmap, lookup_seq_ge by lia. reflexivity.
Qed.

(** Functional correctness of the mcq branch.  When the options give
    labels and every answer at the question's index is a string or is
    falsy (missing answers included), the summary exists and the count
    at each position is the number of responses whose trimmed answer
    has its first occurrence among the labels at that position. *)
Theorem mcq_summary_counts_votes
    (q : value) (qi : nat) (R : list response_set) (labels : list string) :
  mcq_labels q = Ok labels ->
  Forall (fun r => string_or_falsy (answer_at qi r)) R ->
  mcq_summary q qi (Some R) =
    Ok (Mcq (member q "text") labels
          (map (votes labels qi R) (seq 0 (length labels)))).
Proof.
  intros Hlabels Hall. unfold mcq_summary. rewrite Hlabels. cbn [bind forEach].
  rewrite (mcq_tally_votes labels qi R Hall). cbn [bind].
  unfold mcq_labels in Hlabels.
  destruct q; simpl in Hlabels |- *; try discriminate; reflexivity.
Qed.

(** ** mcq: where the labels come from *)

Lemma map_result_labels (os : list value) (labels : list string) :
  map_result (fun o => call_trim (or_else o (VStr "Option"))) os = Ok labels <->
  Forall string_or_falsy os /\ labels = map label_of os.
Proof.
  revert labels. induction os as [|o os IH]; intros labels; simpl.
  - split.
    + intros H. inversion H. split; [constructor | reflexivity].
    + intros (_ & ->). reflexivity.
  - assert (Ho : forall s, call_trim (or_else o (VStr "Option")) = Ok s ->
                           string_or_falsy o /\ s = label_of o).
    { intros s. unfold label_of, or_else. destruct (truthy o) eqn:Ht.
      - destruct o; simpl; try discriminate.
        intros H. inversion H. split; [exact I | reflexivity].
      - intros H. inversion H. split; [|reflexivity].
        destruct o; try exact I; exact Ht. }
    assert (Ho' : string_or_falsy o ->
                  call_trim (or_else o (VStr "Option")) = Ok (label_of o)).
    { unfold label_of, or_else. intros Hso. destruct (truthy o) eqn:Ht.
      - destruct o; try reflexivity; unfold string_or_falsy in Hso; congruence.
      - reflexivity. }
    split.
    + intros H.
      destruct (call_trim (or_else o (VStr "Option"))) as [s|e] eqn:Hs;
        cbn [bind] in H; [|discriminate].
      destruct (map_result _ os) as [ls|e] eqn:Hls; cbn [bind] in H; [|discriminate].
      inversion H; subst; clear H.
      destruct (Ho s eq_refl) as (Hso & ->).
      destruct (proj1 (IH ls) eq_refl) as (Hall & ->).
      split; [constructor; assumption | reflexivity].
    + intros (Hall & ->). inversion Hall as [|? ? Hso Hrest]; subst.
      rewrite (Ho' Hso). cbn [bind].
      rewrite (proj2 (IH (map label_of os)) (conj Hrest eq_refl)). reflexivity.
Qed.

(** The labels of an mcq question follow its options position by
    position.  They exist exactly when every option is a string or is
    falsy; a falsy option (null, the empty string) gives ['Option'], a
    string gives its trimmed text, so that a whitespace-only option
    gives the empty label. *)
Theorem mcq_labels_of_options (q : value) (os : list value) (labels : list string) :
  get q "options" = Ok (VArr os) ->
  (mcq_labels q = Ok labels <->
   Forall string_or_falsy os /\ labels = map label_of os).
Proof.
  intros Hget. unfold mcq_labels. rewrite Hget. cbn [bind].
  unfold or_else. simpl. apply map_result_labels.
Qed.

(** A response that gives no answer to the question reads as the empty
    string after the default and the trim: when some label is empty it
    is counted at the first such label. *)
Theorem unanswered_counts_for_blank_label
    (q : value) (qi : nat) (R : list response_set) (r : response_set)
    (labels : list string) (i : nat) :
  mcq_labels q = Ok labels ->
  Forall (fun r => string_or_falsy (answer_at qi r)) R ->
  answers r !! qi = None ->
  indexOf labels EmptyString = Z.of_nat i ->
  exists c : Z,
    mcq_summary q qi (Some R) =
      Ok (Mcq (member q "text") labels (map (votes labels qi R) (seq 0 (length labels)))) /\
    map (votes labels qi R) (seq 0 (length labels)) !! i = Some c /\
    exists counts',
      mcq_summary q qi (Some (R ++ [r])%list) = Ok (Mcq (member q "text") labels counts') /\
      counts' !! i = Some (c + 1).
Proof.
  intros Hlabels Hall Hshort Hidx.
  assert (Ha : answer_at qi r = VUndefined).
  { unfold answer_at. rewrite Hshort. reflexivity. }
  assert (Hr : string_or_falsy (answer_at qi r)) by (rewrite Ha; reflexivity).
  assert (Hc : chosen labels qi r = Some i).
  { unfold chosen. rewrite Ha.
    change (call_trim (or_else VUndefined (VStr EmptyString))) with (Ok EmptyString).
    cbv iota beta. rewrite Hidx.
    destruct (Z.leb_spec 0 (Z.of_nat i)); [|lia]. f_equal. lia. }
  assert (Hi : (i < length labels)%nat).
  { destruct (indexOf_first labels EmptyString) as (Hat & _); [lia|].
    rewrite Hidx, Nat2Z.id in Hat. apply lookup_lt_Some in Hat. exact Hat. }
  assert (Htext : get q "text" = Ok (member q "text")).
  { unfold mcq_labels in Hlabels. destruct q; try discriminate; reflexivity. }
  exists (votes labels qi R i). split; [|split].
  - unfold mcq_summary. rewrite Hlabels. cbn [bind forEach].
    rewrite (mcq_tally_votes labels qi R Hall), Htext. reflexivity.
  - rewrite list_lookup_fmap, lookup_seq_lt by assumption. reflexivity.
  - exists (map (votes labels qi (R ++ [r])%list) (seq 0 (length labels))). split.
    + unfold mcq_summary. rewrite Hlabels. cbn [bind forEach].
      rewrite mcq_tally_votes, Htext; [reflexivity|].
      apply Forall_app. split; [assumption | constructor; [assumption | constructor]].
    + rewrite list_lookup_fmap, lookup_seq_lt by assumption. simpl.
      rewrite votes_snoc, Hc. rewrite decide_True by reflexivity. reflexivity.
Qed.

(** ** The order of the responses does not matter *)

Lemma bind_assoc {A B C} (r : result A) (f : A -> result B) (g : B -> result C) :
  bind (bind r f) g = bind r (fun a => bind (f a) g).
Proof. destruct r; reflexivity. Qed.

(** A loop whose body commutes with itself gives the same result on
    every rearrangement of the list it runs over. *)
Lemma fold_result_Permutation {A S} (f : S -> A -> result S) :
  (forall s x y,
      (let* s' := f s x in f s' y) = (let* s' := f s y in f s' x)) ->
  forall l l', Permutation l l' ->
  forall s, fold_result f l s = fold_result f l' s.
Proof.
  intros Hcomm l l' Hperm.
  induction Hperm as [|x l l' _ IH|x y l|l l' l'' _ IH1 _ IH2]; intros s; simpl.
  - reflexivity.
  - destruct (f s x); cbn [bind]; [apply IH | reflexivity].
  - rewrite <- !bind_assoc. rewrite (Hcomm s y x). reflexivity.
  - rewrite IH1. apply IH2.
Qed.

(** The only exception a conversion to string or to number raises is a
    TypeError. *)
Lemma ToString_throws (v : value) : forall e, ToString v = Throw e -> e = TypeError.
Proof.
  revert v. fix IH 1. intros v e. destruct v as [| |b|n|s|elems|fields]; simpl.
  - discriminate.
  - discriminate.
  - destruct b; discriminate.
  - discriminate.
  - discriminate.
  - revert e. revert elems. fix IHl 1. intros elems e.
    destruct elems as [|x l]; [discriminate|].
    assert (Hx : forall e',
               match x with
               | VUndefined | VNull => Ok EmptyString
               | _ => ToString x
               end = Throw e' -> e' = TypeError).
    { intros e'. pose proof (IH x e') as IHx.
      destruct x; try discriminate; exact IHx. }
    pose proof (IHl l) as Hl.
    destruct l as [|y l'].
    + apply Hx.
    + destruct (match x with
                | VUndefined | VNull => Ok EmptyString
                | _ => ToString x
                end) as [sx|ex] eqn:Hsx; cbn [bind].
      * intros H.
        match type of H with
        | bind ?j _ = _ => destruct j as [t|et] eqn:Hj; cbn [bind] in H
        end; [discriminate|].
        inversion H; subst. apply Hl. reflexivity.
      * intros H. inversion H; subst. apply Hx. reflexivity.
  - destruct (own_property fields "toString"); intros H; inversion H; reflexivity.
Qed.

Lemma ToNumber_throws (v : value) (e : exception) :
  ToNumber v = Throw e -> e = TypeError.
Proof.
  assert (Hs : (let* s := ToString v in Ok (StringToNumber s)) = Throw e ->
               e = TypeError).
  { destruct (ToString v) as [s|e'] eqn:Hs; cbn [bind]; [discriminate|].
    intros H. inversion H; subst. eapply ToString_throws. exact Hs. }
  destruct v as [| |b|n|s|elems|fields]; try exact Hs; simpl; try discriminate.
  destruct b; discriminate.
Qed.

Lemma shaped_steps_commute {T X} (h : T -> T) (step : list T -> X -> result (list T)) :
  (forall x n, step_shape h step x n) ->
  forall s x y,
    (let* s' := step s x in step s' y) = (let* s' := step s y in step s' x).
Proof.
  intros Hshape s x y.
  assert (Halter : forall i j : nat,
             alter h i (alter h j s) = alter h j (alter h i s)).
  { intros i j. destruct (decide (i = j)) as [->|Hne]; [reflexivity|].
    apply list_alter_alter_ne. exact Hne. }
  destruct (Hshape x (length s)) as [Hx|[Hx|(i & Hx)]];
    destruct (Hshape y (length s)) as [Hy|[Hy|(j & Hy)]];
    rewrite ?(Hx s eq_refl), ?(Hy s eq_refl); cbn [bind];
    rewrite ?(Hx s eq_refl), ?(Hy s eq_refl); cbn [bind];
    rewrite ?(Hx (alter h j s)), ?(Hy (alter h i s)) by apply length_alter;
    try reflexivity.
  rewrite Halter. reflexivity.
Qed.

Lemma mcq_step_shape (labels : list string) (qi : nat) (r : response_set) (n : nat) :
  step_shape Z.succ (mcq_step labels qi) r n.
Proof.
  unfold step_shape, mcq_step.
  destruct (call_trim (or_else (answer_at qi r) (VStr EmptyString))) as [a|e] eqn:Ha.
  - cbn [bind]. destruct (Z.leb 0 (indexOf labels a)).
    + right. right. exists (Z.to_nat (indexOf labels a)). reflexivity.
    + right. left. reflexivity.
  - left. intros s _. cbn [bind].
    unfold call_trim in Ha. destruct (or_else _ _); inversion Ha; reflexivity.
Qed.

Lemma scale_step_shape (min : number) (qi : nat) (r : response_set) (n : nat) :
  step_shape incr (fun bins => scale_step min qi bins) r n.
Proof.
  unfold step_shape, scale_step.
  destruct (ToNumber (answer_at qi r)) as [v|e] eqn:Hv.
  - cbn [bind].
    destruct (num_leb (num_of_Z 0) (num_sub v min)
              && num_ltb (num_sub v min) (num_of_Z (Z.of_nat n))) eqn:Hrange.
    + unfold bump. destruct (num_to_Z (num_sub v min)) as [z|].
      * destruct (Z.leb 0 z && Z.ltb z (Z.of_nat n)) eqn:Hz.
        -- right. right. exists (Z.to_nat z). intros s <-.
           rewrite Hrange, Hz. reflexivity.
        -- left. intros s <-. rewrite Hrange, Hz. reflexivity.
      * left. intros s <-. rewrite Hrange. reflexivity.
    + right. left. intros s <-. rewrite Hrange. reflexivity.
  - left. intros s _. cbn [bind]. apply ToNumber_throws in Hv. subst. reflexivity.
Qed.

Lemma mapi_result_ext {A B} (f g : nat -> A -> result B) (l : list A) :
  (forall i x, f i x = g i x) -> forall i, mapi_result f i l = mapi_result g i l.
Proof.
  intros Hfg. induction l as [|x l IH]; intros i; simpl; [reflexivity|].
  rewrite Hfg, IH. reflexivity.
Qed.

(** The analytics do not depend on the order in which the responses
    were submitted: on any rearrangement of the response sequence the
    aggregator gives the same summaries, or fails with the same
    exception. *)
Theorem aggregate_order_irrelevant
    (questions : list value) (R R' : list response_set) :
  Permutation R R' ->
  aggregate questions R = aggregate questions R'.
Proof.
  intros Hperm. unfold aggregate. apply mapi_result_ext. intros qi q.
  unfold summarize. destruct (get q "type") as [t|e]; cbn [bind]; [|reflexivity].
  destruct (is_string t "mcq"); [|destruct (is_string t "scale")].
  - unfold mcq_summary. destruct (mcq_labels q) as [labels|e]; cbn [bind forEach];
      [|reflexivity].
    rewrite (fold_result_Permutation (mcq_step labels qi)
               (shaped_steps_commute Z.succ _ (mcq_step_shape labels qi)) R R' Hperm).
    reflexivity.
  - unfold scale_summary.
    destruct (get q "min") as [qmin|e]; cbn [bind]; [|reflexivity].
    destruct (ToNumber (nullish_else qmin (VNum (num_of_Z 1)))) as [mn|e];
      cbn [bind]; [|reflexivity].
    destruct (get q "max") as [qmax|e]; cbn [bind]; [|reflexivity].
    destruct (ToNumber (nullish_else qmax (VNum (num_of_Z 5)))) as [mx|e];
      cbn [bind]; [|reflexivity].
    destruct (scale_bins mn (num_add (num_sub mx mn) (num_of_Z 1))) as [bins|e];
      cbn [bind forEach]; [|reflexivity].
    rewrite (fold_result_Permutation (scale_step mn qi)
               (shaped_steps_commute incr _ (scale_step_shape mn qi)) R R' Hperm).
    reflexivity.
  - unfold text_summary. rewrite !text_count_counted.
    assert (Hlen : length (counted qi R) = length (counted qi R')).
    { apply Permutation_length. unfold counted. apply filter_Permutation. exact Hperm. }
    rewrite Hlen. reflexivity.
Qed.

(** ** scale: what the bins hold *)

Lemma answered_snoc (qi : nat) (R : list response_set) (r : response_set) (z : Z) :
  answered qi (R ++ [r])%list z =
  answered qi R z + (if decide (integer_answer qi r = Some z) then 1 else 0).
Proof.
  unfold answered. rewrite filter_app, length_app, filter_cons, filter_nil.
  destruct (decide (integer_answer qi r = Some z)); simpl; lia.
Qed.

Lemma scale_step_placeable (mn : number) (a : Z) (qi : nat) (bins : list bin)
    (r : response_set) :
  num_to_Z mn = Some a ->
  Z.of_nat (length bins) <= 2 ^ 53 ->
  placeable qi r ->
  scale_step mn qi bins r =
    Ok (match integer_answer qi r with
        | Some z =>
            if Z.leb 0 (z - a) && Z.ltb (z - a) (Z.of_nat (length bins))
            then alter incr (Z.to_nat (z - a)) bins
            else bins
        | None => bins
        end).
Proof.
  intros Hmn Hlen Hr. unfold placeable in Hr. unfold scale_step, integer_answer.
  destruct (ToNumber (answer_at qi r)) as [v|e]; [|contradiction]. cbn [bind].
  destruct v as [| | |q].
  - reflexivity.
  - destruct (num_to_Z_Fin mn a Hmn) as (qa & -> & Hqa). reflexivity.
  - destruct (num_to_Z_Fin mn a Hmn) as (qa & -> & Hqa). reflexivity.
  - simpl in Hr. destruct Hr as (z & Hz).
    assert (Hv : num_to_Z (Fin q) = Some z) by exact Hz.
    rewrite Hv, (num_sub_integers _ _ _ _ Hv Hmn).
    assert (0 < 2 ^ 53) as H53 by reflexivity.
    destruct (to_double_rounds_to (z - a)) as [m Hin Hhi Hlo|Hhi|Hlo].
    + rewrite (num_leb_integers _ _ _ _ (num_to_Z_of_Z 0) (num_to_Z_of_Z m)).
      rewrite (num_ltb_integers _ _ _ _ (num_to_Z_of_Z m) (num_to_Z_of_Z _)).
      destruct (Z_le_gt_dec (Z.abs (z - a)) (2 ^ 53)) as [Hexact|Hfar].
      * rewrite (Hin Hexact). unfold bump. rewrite num_to_Z_of_Z.
        destruct (Z.leb 0 (z - a) && Z.ltb (z - a) (Z.of_nat (length bins)));
          reflexivity.
      * replace (Z.leb 0 m && Z.ltb m (Z.of_nat (length bins))) with false
          by (symmetry; apply andb_false_iff;
              destruct (Z_le_gt_dec 0 (z - a));
              [right; apply Z.ltb_ge | left; apply Z.leb_gt]; lia).
        replace (Z.leb 0 (z - a) && Z.ltb (z - a) (Z.of_nat (length bins))) with false
          by (symmetry; apply andb_false_iff;
              destruct (Z_le_gt_dec 0 (z - a));
              [right; apply Z.ltb_ge | left; apply Z.leb_gt]; lia).
        reflexivity.
    + replace (Z.ltb (z - a) (Z.of_nat (length bins))) with false
        by (symmetry; apply Z.ltb_ge; lia).
      destruct (Z.leb 0 (z - a)); reflexivity.
    + replace (Z.leb 0 (z - a)) with false by (symmetry; apply Z.leb_gt; lia).
      reflexivity.
Qed.

Lemma scale_tally_histogram (mn : number) (a : Z) (qi : nat) (n : nat)
    (L : nat -> string) (R : list response_set) :
  num_to_Z mn = Some a ->
  Z.of_nat n <= 2 ^ 53 ->
  Forall (placeable qi) R ->
  fold_result (scale_step mn qi) R
    (map (fun i : nat => {| label := L i; count := 0 |}) (seq 0 n)) =
  Ok (map (fun i : nat => {| label := L i; count := answered qi R (a + Z.of_nat i) |})
        (seq 0 n)).
Proof.
  intros Hmn Hsize. induction R as [|r R IH] using rev_ind; intros Hall.
  - reflexivity.
  - apply Forall_app in Hall. destruct Hall as (HR & Hr). apply Forall_inv in Hr.
    rewrite fold_result_app, (IH HR). cbn [bind fold_result].
    rewrite (scale_step_placeable mn a qi _ r Hmn); cycle 1.
    { rewrite length_map, length_seq. exact Hsize. }
    { exact Hr. }
    cbn [bind]. f_equal.
    rewrite length_map, length_seq.
    apply list_eq. intros k.
    assert (Hsnoc := answered_snoc qi R r (a + Z.of_nat k)).
    destruct (decide (k < n)%nat) as [Hk|Hk].
    + rewrite (list_lookup_fmap _ (seq 0 n) k), lookup_seq_lt by assumption. simpl.
      rewrite Hsnoc.
      destruct (integer_answer qi r) as [z|].
      * destruct (Z.leb 0 (z - a) && Z.ltb (z - a) (Z.of_nat n)) eqn:Hin.
        -- apply andb_true_iff in Hin. destruct Hin as (H0 & Hn).
           apply Z.leb_le in H0. apply Z.ltb_lt in Hn.
           rewrite list_lookup_alter.
           destruct (decide (Z.to_nat (z - a) = k)) as [Heq|Hne].
           ++ rewrite list_lookup_fmap, lookup_seq_lt by lia. simpl.
              rewrite decide_True by (f_equal; lia).
              rewrite Heq. reflexivity.
           ++ rewrite list_lookup_fmap, lookup_seq_lt by assumption. simpl.
              rewrite decide_False by (intros H; inversion H; lia).
              rewrite Z.add_0_r. reflexivity.
        -- rewrite list_lookup_fmap, lookup_seq_lt by assumption. simpl.
           apply andb_false_iff in Hin.
           rewrite decide_False.
           ++ rewrite Z.add_0_r. reflexivity.
           ++ intros H. inversion H; subst.
              destruct Hin as [Hin|Hin];
                [apply Z.leb_gt in Hin | apply Z.ltb_ge in Hin]; lia.
      * rewrite list_lookup_fmap, lookup_seq_lt by assumption. simpl.
        rewrite Z.add_0_r. reflexivity.
    + rewrite (list_lookup_fmap _ (seq 0 n) k), lookup_seq_ge by lia. simpl.
      apply lookup_ge_None_2.
      destruct (integer_answer qi r) as [z|];
        [destruct (Z.leb 0 (z - a) && Z.ltb (z - a) (Z.of_nat n))|];
        rewrite ?length_alter, length_map, length_seq; lia.
Qed.

Lemma NumberToString_integer (x : number) (z : Z) :
  num_to_Z x = Some z -> Z.abs z < 2 ^ 53 -> NumberToString x = pretty z.
Proof.
  intros Hx Hz. destruct x as [| | |q]; simpl in Hx; try discriminate.
  unfold NumberToString. rewrite Hx.
  destruct (Z.ltb_spec (Z.abs z) (2 ^ 53)); [reflexivity | lia].
Qed.

(** Functional correctness of the scale branch.  For integer [min] and
    [max] with [min <= max + 1] (below 2^53 in magnitude, where every
    integer is a double of its own, and fewer than 2^32 values), and
    answers that each convert to an integer or to no finite number (a
    missing answer converts to NaN), the summary exists: it has one bin
    per integer from [min] to [max], labelled with the decimal digits
    of that integer, whose count is the number of responses that
    answered that integer. *)
Theorem scale_summary_is_histogram
    (q : value) (qi : nat) (R : list response_set)
    (text : value) (mn mx : number) (a b : Z) :
  get q "text" = Ok text ->
  ToNumber (nullish_else (member q "min") (VNum (num_of_Z 1))) = Ok mn ->
  ToNumber (nullish_else (member q "max") (VNum (num_of_Z 5))) = Ok mx ->
  num_to_Z mn = Some a ->
  num_to_Z mx = Some b ->
  a <= b + 1 ->
  b - a + 1 <= 2 ^ 32 - 1 ->
  - 2 ^ 53 < a ->
  b < 2 ^ 53 ->
  Forall (placeable qi) R ->
  scale_summary q qi (Some R) =
    Ok (Scale text (histogram qi R a (Z.to_nat (b - a + 1))) mn mx).
Proof.
  intros Htext Hmin Hmax Ha Hb Hle Hsize Hlow Hhigh Hall.
  assert (0 < 2 ^ 53) as H53 by reflexivity.
  assert (2 ^ 32 - 1 < 2 ^ 53 - 1) as H32 by reflexivity.
  assert (Hq : forall k, get q k = Ok (member q k)).
  { intros k. destruct q; try discriminate; reflexivity. }
  unfold scale_summary. rewrite !Hq in *. cbn [bind].
  rewrite Hmin. cbn [bind]. rewrite Hmax. cbn [bind].
  unfold scale_bins.
  rewrite (num_to_Z_sub mx mn b a Hb Ha) by lia.
  rewrite (num_to_Z_add _ _ (b - a) 1 (num_to_Z_of_Z _) (num_to_Z_of_Z 1)) by lia.
  rewrite ToLength_of_Z.
  replace (Z.min (Z.max 0 (b - a + 1)) (2 ^ 53 - 1)) with (b - a + 1) by lia.
  destruct (Z.ltb_spec (2 ^ 32 - 1) (b - a + 1)) as [|_]; [lia|].
  cbn [bind forEach].
  rewrite (scale_tally_histogram mn a qi (Z.to_nat (b - a + 1))
             (fun i => NumberToString (num_add mn (num_of_Z (Z.of_nat i)))) R Ha)
    by (assumption || lia).
  cbn [bind]. inversion Htext; subst. do 2 f_equal. unfold histogram.
  apply map_ext_in. intros i Hi. apply in_seq in Hi. f_equal.
  rewrite (num_to_Z_add mn _ a (Z.of_nat i) Ha (num_to_Z_of_Z _)) by lia.
  apply NumberToString_integer; [apply num_to_Z_of_Z | lia].
Qed.

(** * Further properties of the routes *)

(** ** Creating a survey *)

Lemma post_survey_creates (uuid : string) (body : value) (st : server)
    (qs : list value) :
  member (or_else body (VObj [])) "questions" = VArr qs ->
  post_survey uuid body st =
    (Json_id (substring 0 8 uuid),
     save {| DB := {| surveys :=
                        <[substring 0 8 uuid :=
                            {| id := substring 0 8 uuid;
                               title := or_else (member (or_else body (VObj [])) "title")
                                          (VStr "Untitled");
                               questions := qs |}]> (surveys (DB st));
                      responses := <[substring 0 8 uuid := []]> (responses (DB st)) |};
             DB_FILE := DB_FILE st;
             writable := writable st |}).
Proof. intros Hq. unfold post_survey. rewrite Hq. reflexivity. Qed.

(** Create, then read back.  A body whose [questions] is an array is
    stored under the first eight characters of the generated uuid; the
    survey route then returns that id, the questions as sent and the
    title (['Untitled'] when the title sent is falsy), and the
    analytics route answers with the aggregation over no response. *)
Theorem create_then_read_back
    (uuid : string) (body : value) (st : server) (qs : list value) :
  member (or_else body (VObj [])) "questions" = VArr qs ->
  let id := substring 0 8 uuid in
  let st' := snd (post_survey uuid body st) in
  fst (post_survey uuid body st) = Json_id id /\
  get_survey id st' =
    (Json_survey {| id := id;
                    title := or_else (member (or_else body (VObj [])) "title")
                               (VStr "Untitled");
                    questions := qs |}, st') /\
  get_analytics id st' = (analytics_reply (aggregate qs []), st').
Proof.
  intros Hq id st'. subst id st'. rewrite (post_survey_creates _ _ _ _ Hq).
  cbn [fst snd]. split; [reflexivity|]. split.
  - unfold get_survey. erewrite read_own; [reflexivity | stored].
  - erewrite get_analytics_stored; [| stored | stored]. reflexivity.
Qed.

(** Creating a survey under an id that is already stored replaces the
    survey and empties its response list: the responses collected so
    far are discarded.  Every other survey and response list is left
    as it was. *)
Theorem create_resets_responses
    (uuid : string) (body : value) (st : server) (qs : list value) :
  member (or_else body (VObj [])) "questions" = VArr qs ->
  let id := substring 0 8 uuid in
  let st' := snd (post_survey uuid body st) in
  responses (DB st') !! id = Some [] /\
  (forall k, k <> id ->
     surveys (DB st') !! k = surveys (DB st) !! k /\
     responses (DB st') !! k = responses (DB st) !! k).
Proof.
  intros Hq id st'. subst id st'. rewrite (post_survey_creates _ _ _ _ Hq).
  cbn [snd]. rewrite DB_save. cbn [DB surveys responses]. split.
  - apply lookup_insert_eq.
  - intros k Hk. split; apply lookup_insert_ne; congruence.
Qed.

(** ** Submitting, then asking for the analytics *)

(** After a successful submit the analytics of that survey are the
    aggregation over the responses stored before followed by the new
    one. *)
Theorem submit_then_analytics
    (now : Z) (id : string) (body : value) (st : server)
    (s : survey) (R : list response_set) (ans : list value) :
  surveys (DB st) !! id = Some s ->
  responses (DB st) !! id = Some R ->
  member (or_else body (VObj [])) "answers" = VArr ans ->
  let st' := snd (post_response now id body st) in
  get_analytics id st' =
    (analytics_reply
       (aggregate (questions s) (R ++ [{| ts := now; answers := ans |}])%list),
     st').
Proof.
  intros Hs HR Hbody st'. subst st'.
  rewrite (post_response_appends now id body st s R ans Hs HR Hbody). cbn [snd].
  erewrite get_analytics_stored; [reflexivity | | stored].
  rewrite DB_save. cbn [DB surveys]. exact Hs.
Qed.

(** ** What every sequence of requests preserves *)

Lemma get_analytics_state (id : string) (st : server) : snd (get_analytics id st) = st.
Proof.
  unfold get_analytics.
  destruct (read (surveys (DB st)) id) as [s| |]; try reflexivity.
  destruct (mapi_result _ 0 (questions s)); reflexivity.
Qed.

Lemma get_survey_state (id : string) (st : server) : snd (get_survey id st) = st.
Proof. unfold get_survey. destruct (read (surveys (DB st)) id); reflexivity. Qed.

Lemma snd_handle (req : request) (st : server) :
  snd (handle req st) =
  match req with
  | Create uuid body => snd (post_survey uuid body st)
  | Submit now id body => snd (post_response now id body st)
  | Analytics _ | Fetch _ => st
  end.
Proof.
  destruct req as [uuid body|now id body|id|id]; simpl.
  - destruct (post_survey uuid body st); reflexivity.
  - destruct (post_response now id body st); reflexivity.
  - pose proof (get_analytics_state id st) as H.
    destruct (get_analytics id st); exact H.
  - pose proof (get_survey_state id st) as H.
    destruct (get_survey id st); exact H.
Qed.

Lemma run_invariant (P : server -> Prop) :
  (forall req st, P st -> P (snd (handle req st))) ->
  forall reqs st, P st -> P (run reqs st).
Proof.
  intros Hstep reqs. unfold run.
  induction reqs as [|req reqs IH]; intros st Hst; simpl; [exact Hst|].
  apply IH. apply Hstep. exact Hst.
Qed.

Lemma length_substring (s : string) (n m : nat) :
  (String.length (substring n m s) <= m)%nat.
Proof.
  revert n m. induction s as [|c s IH]; intros n m.
  - destruct n, m; simpl; lia.
  - destruct n as [|n]; [destruct m as [|m]|]; simpl.
    + lia.
    + specialize (IH 0%nat m). lia.
    + apply IH.
Qed.

Lemma post_survey_well_keyed (uuid : string) (body : value) (st : server) :
  well_keyed st -> well_keyed (snd (post_survey uuid body st)).
Proof.
  intros Hw. unfold post_survey.
  destruct (member (or_else body (VObj [])) "questions"); try exact Hw.
  cbn [snd]. intros k. rewrite DB_save. cbn [DB surveys responses].
  destruct (decide (substring 0 8 uuid = k)) as [<-|Hne].
  - rewrite !lookup_insert_eq. split; [split; eauto|].
    intros _. apply length_substring.
  - rewrite !lookup_insert_ne by assumption. apply Hw.
Qed.

Lemma post_response_well_keyed (now : Z) (id : string) (body : value) (st : server) :
  well_keyed st -> well_keyed (snd (post_response now id body st)).
Proof.
  intros Hw. unfold post_response.
  destruct (read (surveys (DB st)) id); try exact Hw;
    (destruct (member (or_else body (VObj [])) "answers"); try exact Hw;
     unfold read; destruct (responses (DB st) !! id) as [R|] eqn:HR;
       [|destruct (bool_decide _); exact Hw];
     cbn [snd]; intros k; rewrite DB_save; cbn [DB surveys responses];
     destruct (decide (id = k)) as [<-|Hne];
     [rewrite lookup_insert_eq; destruct (Hw id) as (Hiff & Hlen);
      split; [split; [eauto | intros _; apply Hiff; eauto] | exact Hlen]
     |rewrite lookup_insert_ne by assumption; apply Hw]).
Qed.

Lemma handle_well_keyed (req : request) (st : server) :
  well_keyed st -> well_keyed (snd (handle req st)).
Proof.
  intros Hw. rewrite snd_handle. destruct req; try exact Hw.
  - apply post_survey_well_keyed. exact Hw.
  - apply post_response_well_keyed. exact Hw.
Qed.

Lemma initial_well_keyed (w : bool) : well_keyed (initial w).
Proof.
  intros k. cbn. rewrite !lookup_empty. split; [split|]; intros (x & Hx); discriminate.
Qed.

(** Whatever requests are served, starting from the empty store, the
    two maps of the store hold the same ids and every id has at most
    eight characters. *)
Theorem store_stays_well_keyed (reqs : list request) (w : bool) :
  well_keyed (run reqs (initial w)).
Proof.
  apply run_invariant; [apply handle_well_keyed | apply initial_well_keyed].
Qed.

(** Whatever requests were served before, a submit of an array of
    answers to a stored survey succeeds: it never throws. *)
Theorem submit_to_stored_survey_succeeds
    (reqs : list request) (w : bool) (now : Z) (id : string) (body : value)
    (s : survey) (ans : list value) :
  surveys (DB (run reqs (initial w))) !! id = Some s ->
  member (or_else body (VObj [])) "answers" = VArr ans ->
  fst (post_response now id body (run reqs (initial w))) = Json_ok.
Proof.
  intros Hs Hbody.
  destruct (proj1 (proj1 (run_invariant well_keyed handle_well_keyed reqs (initial w)
                            (initial_well_keyed w) id)) (ex_intro _ s Hs)) as (R & HR).
  rewrite (post_response_appends now id body _ s R ans Hs HR Hbody). reflexivity.
Qed.

(** ** The file *)

Lemma save_in_step (st : server) :
  writable st = true -> file_in_step (save st).
Proof. intros Hw. unfold save. rewrite Hw. left. reflexivity. Qed.

Lemma writable_save (st : server) : writable (save st) = writable st.
Proof. unfold save. destruct (writable st) eqn:H; [reflexivity | exact H]. Qed.

Lemma handle_file_in_step (req : request) (st : server) :
  writable st = true /\ file_in_step st ->
  writable (snd (handle req st)) = true /\ file_in_step (snd (handle req st)).
Proof.
  intros (Hw & Hf). rewrite snd_handle.
  destruct req as [uuid body|now id body|id|id]; try (split; assumption).
  - unfold post_survey.
    destruct (member (or_else body (VObj [])) "questions"); try (split; assumption).
    cbn [snd]. split; [rewrite writable_save; exact Hw | apply save_in_step; exact Hw].
  - unfold post_response.
    destruct (read (surveys (DB st)) id); try (split; assumption);
      (destruct (member (or_else body (VObj [])) "answers"); try (split; assumption);
       destruct (read (responses (DB st)) id); try (split; assumption);
       cbn [snd]; split;
       [rewrite writable_save; exact Hw | apply save_in_step; exact Hw]).
Qed.

(** While writes succeed, the file always holds the store: after any
    sequence of requests either the file is the current store, or no
    request has changed the store yet and there is no file. *)
Theorem file_follows_store (reqs : list request) :
  file_in_step (run reqs (initial true)).
Proof.
  apply (run_invariant (fun st => writable st = true /\ file_in_step st)
           handle_file_in_step reqs (initial true)).
  split; [reflexivity|]. right. split; reflexivity.
Qed.

(** A write that fails is invisible to the clients: two servers with
    the same store give the same reply to every request and have the
    same store afterwards, whether or not their files can be written
    and whatever the files hold. *)
Theorem replies_ignore_the_file (req : request) (st1 st2 : server) :
  DB st1 = DB st2 ->
  fst (handle req st1) = fst (handle req st2) /\
  DB (snd (handle req st1)) = DB (snd (handle req st2)).
Proof.
  intros Hdb.
  destruct req as [uuid body|now id body|id|id]; simpl.
  - unfold post_survey.
    destruct (member (or_else body (VObj [])) "questions"); cbn [fst snd];
      try (split; [reflexivity | exact Hdb]).
    rewrite !DB_save. cbn [DB]. rewrite Hdb. split; reflexivity.
  - unfold post_response. rewrite Hdb.
    destruct (read (surveys (DB st2)) id); cbn [fst snd];
      try (split; [reflexivity | exact Hdb]);
      (destruct (member (or_else body (VObj [])) "answers"); cbn [fst snd];
       try (split; [reflexivity | exact Hdb]);
       destruct (read (responses (DB st2)) id); cbn [fst snd];
       try (split; [reflexivity | exact Hdb]);
       rewrite !DB_save; cbn [DB]; split; reflexivity).
  - unfold get_analytics. rewrite Hdb.
    destruct (read (surveys (DB st2)) id) as [s| |]; cbn [fst snd];
      try (split; [reflexivity | exact Hdb]).
    destruct (mapi_result _ 0 (questions s)); cbn [fst snd];
      (split; [reflexivity | exact Hdb]).
  - unfold get_survey. rewrite Hdb.
    destruct (read (surveys (DB st2)) id); cbn [fst snd];
      (split; [reflexivity | exact Hdb]).
Qed.

(** ** Start-up *)

Lemma reparse_plain (v : value) : plain v = true -> reparse v = v.
Proof.
  revert v. fix IH 1. intros v. destruct v as [| |b|n|s|elems|fields]; simpl;
    try reflexivity.
  - destruct n; try discriminate; reflexivity.
  - intros H. f_equal. revert elems H. fix IHl 1. intros elems H.
    destruct elems as [|x l]; [reflexivity|]. simpl in H |- *.
    apply andb_true_iff in H. destruct H as (Hx & Hl).
    pose proof (IH x Hx) as IHx. rewrite (IHl l Hl).
    destruct x; try discriminate; rewrite ?IHx; reflexivity.
  - intros H. f_equal. revert fields H. fix IHl 1. intros fields H.
    destruct fields as [|[k x] l]; [reflexivity|]. simpl in H |- *.
    apply andb_true_iff in H. destruct H as (Hx & Hl).
    pose proof (IH x Hx) as IHx. rewrite (IHl l Hl).
    destruct x; try discriminate; rewrite ?IHx; reflexivity.
Qed.

Lemma reparse_elements_plain (l : list value) :
  forallb plain l = true -> map reparse_element l = l.
Proof.
  induction l as [|x l IH]; simpl; [reflexivity|].
  intros H. apply andb_true_iff in H. destruct H as (Hx & Hl).
  rewrite (IH Hl). f_equal. unfold reparse_element.
  rewrite (reparse_plain x Hx). destruct x; try reflexivity. discriminate.
Qed.

Lemma load_plain (d : db) : plain_store d -> load (Some d) = d.
Proof.
  intros (Hs & Hr). destruct d as [ss rs]. unfold load. cbn [surveys responses] in *.
  f_equal.
  - apply map_eq. intros k. rewrite lookup_fmap.
    destruct (ss !! k) as [s|] eqn:Hk; [|reflexivity]. simpl. f_equal.
    destruct (Hs k s Hk) as (Ht & Hq). destruct s as [i t qs].
    unfold reparse_survey. cbn [id title questions] in *.
    rewrite (reparse_plain t Ht), (reparse_elements_plain qs Hq). reflexivity.
  - apply map_eq. intros k. rewrite lookup_fmap.
    destruct (rs !! k) as [R|] eqn:Hk; [|reflexivity]. simpl. f_equal.
    specialize (Hr k R Hk). clear Hk. induction Hr as [|r R Hans _ IH]; [reflexivity|].
    simpl. rewrite IH. f_equal. destruct r as [t ans].
    unfold reparse_response. cbn [ts answers] in *.
    rewrite (reparse_elements_plain ans Hans). reflexivity.
Qed.

Lemma plain_own_property (fields : list (string * value)) (k : string) (v : value) :
  forallb (fun kv => plain (snd kv)) fields = true ->
  own_property fields k = Some v -> plain v = true.
Proof.
  induction fields as [|[k' x] fs IH]; simpl; [discriminate|].
  intros H. apply andb_true_iff in H. destruct H as (Hx & Hfs).
  destruct (String.eqb k' k); [intros Hv; inversion Hv; subst; exact Hx | apply IH; exact Hfs].
Qed.

(** A property of a plain value is plain, or is undefined. *)
Lemma plain_member (v : value) (k : string) :
  plain v = true -> plain (member v k) = true \/ member v k = VUndefined.
Proof.
  intros Hv. destruct v as [| |b|n|s|elems|fields]; simpl; auto.
  destruct (own_property fields k) as [x|] eqn:Hx; simpl; [left|right; reflexivity].
  eapply plain_own_property; eauto.
Qed.

Lemma plain_body (body : value) : plain body = true -> plain (or_else body (VObj [])) = true.
Proof. intros H. unfold or_else. destruct (truthy body); [exact H | reflexivity]. Qed.

Lemma handle_plain_store (req : request) (st : server) :
  plain_request req -> plain_store (DB st) -> plain_store (DB (snd (handle req st))).
Proof.
  intros Hreq (Hs & Hr). rewrite snd_handle.
  destruct req as [uuid body|now id body|id|id]; try (split; assumption);
    simpl in Hreq; apply plain_body in Hreq.
  - unfold post_survey.
    destruct (plain_member _ "questions" Hreq) as [Hq|Hq];
      [|rewrite Hq; split; assumption].
    destruct (member (or_else body (VObj [])) "questions") as [| |b|n|s|qs|fs];
      try (split; assumption).
    cbn [snd]. rewrite DB_save. cbn [DB surveys responses]. split.
    + intros k s. cbn [surveys]. destruct (decide (substring 0 8 uuid = k)) as [<-|Hne].
      * rewrite lookup_insert_eq. intros H. inversion H; subst; clear H.
        cbn [title questions]. split; [|exact Hq].
        destruct (plain_member _ "title" Hreq) as [Ht|Ht].
        -- unfold or_else. destruct (truthy _); [exact Ht | reflexivity].
        -- rewrite Ht. reflexivity.
      * rewrite lookup_insert_ne by assumption. apply Hs.
    + intros k R. cbn [responses]. destruct (decide (substring 0 8 uuid = k)) as [<-|Hne].
      * rewrite lookup_insert_eq. intros H. inversion H. constructor.
      * rewrite lookup_insert_ne by assumption. apply Hr.
  - unfold post_response.
    destruct (plain_member _ "answers" Hreq) as [Hq|Hq];
      [|rewrite Hq; destruct (read (surveys (DB st)) id); split; assumption].
    destruct (read (surveys (DB st)) id); try (split; assumption);
      (destruct (member (or_else body (VObj [])) "answers") as [| |b|n|s|ans|fs];
         try (split; assumption);
       unfold read; destruct (responses (DB st) !! id) as [R|] eqn:HR;
         [|destruct (bool_decide _); split; assumption];
       cbn [snd]; rewrite DB_save; cbn [DB surveys responses];
       split; [exact Hs|];
       intros k R'; cbn [responses]; destruct (decide (id = k)) as [<-|Hne];
       [rewrite lookup_insert_eq; intros H; inversion H; subst;
        apply Forall_app; split; [eapply Hr; eauto | constructor; [exact Hq | constructor]]
       |rewrite lookup_insert_ne by assumption; apply Hr]).
Qed.

(** Persistence across a restart.  While writes succeed and the request
    bodies hold only finite numbers, the store the process reads back
    from its file when it is started again is exactly the store it had:
    every survey and every response submitted is recovered. *)
Theorem restart_recovers_store (reqs : list request) :
  Forall plain_request reqs ->
  DB (restart (run reqs (initial true))) = DB (run reqs (initial true)).
Proof.
  intros Hreqs.
  assert (Hinv : forall st,
             writable st = true /\ file_in_step st -> plain_store (DB st) ->
             (writable (run reqs st) = true /\ file_in_step (run reqs st)) /\
             plain_store (DB (run reqs st))).
  { unfold run. induction Hreqs as [|req reqs Hreq _ IH]; intros st Hf Hp; simpl.
    - split; assumption.
    - apply IH; [apply handle_file_in_step; exact Hf
                | apply handle_plain_store; assumption]. }
  destruct (Hinv (initial true)) as ((_ & Hfile) & Hplain).
  - split; [reflexivity|]. right. split; reflexivity.
  - split; intros k x Hk; cbn in Hk; rewrite lookup_empty in Hk; discriminate.
  - unfold restart. cbn [DB]. destruct Hfile as [Hfile|(Hfile & Hempty)].
    + rewrite Hfile. apply load_plain. exact Hplain.
    + rewrite Hfile, Hempty. reflexivity.
Qed.

(** * The earlier variant of the scale loop *)

Lemma Math_round_integer (v : number) :
  match v with Fin _ => exists z, num_to_Z (Math_round v) = Some z | _ => Math_round v = v end.
Proof.
  destruct v as [| | |q]; try reflexivity.
  eexists. unfold Math_round. apply num_to_Z_of_Z.
Qed.

Lemma num_sub_Qeq (q1 q2 : Q) (y : number) :
  Qeq q1 q2 -> num_sub (Fin q1) y = num_sub (Fin q2) y.
Proof.
  intros H. unfold num_sub. destruct (num_neg y) as [| | |qy]; try reflexivity.
  simpl. apply to_double_Qeq. rewrite H. reflexivity.
Qed.

Lemma Math_round_of_integer (q : Q) (z : Z) :
  Q_to_Z q = Some z -> Math_round (Fin q) = num_of_Z z.
Proof.
  intros Hz. apply Q_to_Z_eq in Hz. unfold Math_round. f_equal.
  unfold Qeq in Hz. simpl in Hz.
  replace (2 * Qnum q + Zpos (Qden q)) with (1 * Zpos (Qden q) + z * (2 * Zpos (Qden q))) by lia.
  rewrite Z.div_add by lia.
  rewrite Z.div_small by lia. lia.
Qed.

(** The two variants of the scale loop agree on every answer that is an
    integer or no finite number: rounding changes nothing there. *)
Theorem snippet_agrees_on_integers
    (min : number) (qi : nat) (bins : list bin) (r : response_set) :
  placeable qi r ->
  snippet_scale_step min qi bins r = scale_step min qi bins r.
Proof.
  unfold placeable, snippet_scale_step, scale_step.
  destruct (ToNumber (answer_at qi r)) as [v|e]; [|contradiction]. cbn [bind].
  destruct v as [| | |q]; try reflexivity.
  intros (z & Hz). rewrite (Math_round_of_integer q z Hz).
  assert (Hsub : num_sub (num_of_Z z) min = num_sub (Fin q) min).
  { unfold num_of_Z. apply num_sub_Qeq. symmetry. apply Q_to_Z_eq. exact Hz. }
  rewrite Hsub. reflexivity.
Qed.

(** With an integer [min], the variant that rounds never reaches an
    undefined bin: whatever number the answer converts to, the loop
    body completes, and the bins keep their number. *)
Theorem snippet_step_never_throws
    (min : number) (a : Z) (qi : nat) (bins : list bin) (r : response_set) (v : number) :
  num_to_Z min = Some a ->
  ToNumber (answer_at qi r) = Ok v ->
  exists bins',
    snippet_scale_step min qi bins r = Ok bins' /\ length bins' = length bins.
Proof.
  intros Hmin Hv. unfold snippet_scale_step. rewrite Hv. cbn [bind].
  destruct (num_leb (num_of_Z 0) (num_sub (Math_round v) min)
            && num_ltb (num_sub (Math_round v) min) (num_of_Z (Z.of_nat (length bins))))
    eqn:Hrange; [|eauto].
  pose proof (Math_round_integer v) as Hround.
  destruct (num_to_Z_Fin min a Hmin) as (qa & -> & Hqa).
  destruct v as [| | |q].
  - rewrite Hround in Hrange. discriminate.
  - rewrite Hround in Hrange. discriminate.
  - rewrite Hround in Hrange. discriminate.
  - destruct Hround as (z & Hz).
    rewrite (num_sub_integers _ _ _ _ Hz Hmin) in *.
    destruct (to_double_rounds_to (z - a)) as [m _ _ _| |].
    + rewrite (num_leb_integers _ _ _ _ (num_to_Z_of_Z 0) (num_to_Z_of_Z m)) in Hrange.
      rewrite (num_ltb_integers _ _ _ _ (num_to_Z_of_Z m) (num_to_Z_of_Z _)) in Hrange.
      unfold bump. rewrite num_to_Z_of_Z, Hrange. eexists. split; [reflexivity|].
      apply length_alter.
    + rewrite andb_false_r in Hrange. discriminate.
    + discriminate.
Qed.

(** * The object-storage backend *)

(** ** Keys *)





(** ** POST /submit *)

Lemma classify_calls (env : submit_env) (responses : value) (c : effect) :
  c ∈ fst (classify env responses) -> exists text, c = AnalyzeEmotion text.
Proof.
  unfold classify. destruct (truthy (member responses "feelings"));
    [destruct (ToString (member responses "feelings")) as [text|e]|]; cbn [fst];
    intros Hin.
  - apply elem_of_cons in Hin. destruct Hin as [->|Hin]; [eauto|].
    apply elem_of_nil in Hin. contradiction.
  - apply elem_of_nil in Hin. contradiction.
  - apply elem_of_nil in Hin. contradiction.
Qed.

(** The answers are offered to the storage first, exactly as they were
    sent, under [responses/<time>.json]; when that write fails nothing
    else is attempted and the reply is the failure. *)
Theorem submit_stores_answers_first (env : submit_env) (body : value) :
  exists rest,
    fst (submit env body) =
      PutObject ("responses/" ++ pretty (clock env) ++ ".json")
        (Raw (iso_raw env) (or_else body (VObj []))) :: rest /\
    (forall message, put_raw_error env = Some message ->
       rest = [] /\ snd (submit env body) = Failed message).
Proof.
  unfold submit. destruct (put_raw_error env) as [m|].
  - eexists. split; [reflexivity|]. intros m' H. inversion H. split; reflexivity.
  - destruct (classify env (or_else body (VObj []))) as [calls emotion].
    destruct (truthy emotion); [destruct (put_result_error env)|];
      (eexists; split; [reflexivity | discriminate]).
Qed.

(** The classification is best effort: once the answers are stored, a
    classifier that throws on every text does not fail the submission;
    the reply is a success that reports no analysis, and nothing is
    written under [results/]. *)
Theorem submit_survives_classifier_failure (env : submit_env) (body : value) :
  put_raw_error env = None ->
  (forall text, analyzeEmotion env text = None) ->
  snd (submit env body) =
    Submitted (pretty (clock env)) ("responses/" ++ pretty (clock env) ++ ".json") false /\
  (forall key b, PutObject key b ∈ fst (submit env body) ->
     key = "responses/" ++ pretty (clock env) ++ ".json").
Proof.
  intros Hput Hnlp. unfold submit. rewrite Hput.
  pose proof (classify_calls env (or_else body (VObj []))) as Hcalls.
  assert (Hem : snd (classify env (or_else body (VObj []))) = VNull).
  { unfold classify. destruct (truthy _); [|reflexivity].
    destruct (ToString _); [|reflexivity]. rewrite Hnlp. reflexivity. }
  destruct (classify env (or_else body (VObj []))) as [calls emotion].
  cbn [fst snd] in *. subst emotion. cbn [truthy fst snd].
  split; [reflexivity|].
  intros key b Hin. apply elem_of_cons in Hin. destruct Hin as [Hin|Hin].
  - inversion Hin. reflexivity.
  - destruct (Hcalls _ Hin) as (t & Ht). discriminate.
Qed.

(** A successful reply reports an analysis exactly when the handler
    wrote one: [analyzed] is true if and only if an object was put
    under [results/<id>.json], with the id of the reply. *)
Theorem submit_analyzed_iff_result_written
    (env : submit_env) (body : value) (id key : string) (analyzed : bool) :
  snd (submit env body) = Submitted id key analyzed ->
  key = "responses/" ++ id ++ ".json" /\
  (analyzed = true <->
   exists ts emotion,
     PutObject ("results/" ++ id ++ ".json") (Analysis id ts emotion)
       ∈ fst (submit env body)).
Proof.
  unfold submit. destruct (put_raw_error env) as [m|]; [discriminate|].
  pose proof (classify_calls env (or_else body (VObj []))) as Hcalls.
  destruct (classify env (or_else body (VObj []))) as [calls emotion].
  cbn [fst] in Hcalls. destruct (truthy emotion).
  - destruct (put_result_error env); [discriminate|]. cbn [fst snd].
    intros H. inversion H; subst. split; [reflexivity|]. split; [|reflexivity].
    intros _. exists (iso_result env), emotion.
    apply elem_of_cons. right. apply elem_of_app. right. apply elem_of_cons. left.
    reflexivity.
  - cbn [fst snd]. intros H. inversion H; subst. split; [reflexivity|].
    split; [discriminate|]. intros (ts & em & Hin). exfalso.
    apply elem_of_cons in Hin. destruct Hin as [Hin|Hin]; [discriminate|].
    destruct (Hcalls _ Hin) as (t & Ht). discriminate.
Qed.

(** Without a truthy [feelings] in the body, the classifier is never
    called. *)
Theorem submit_without_feelings_skips_classifier (env : submit_env) (body : value) :
  truthy (member (or_else body (VObj [])) "feelings") = false ->
  forall text, AnalyzeEmotion text ∉ fst (submit env body).
Proof.
  intros Hf text. unfold submit, classify. rewrite Hf.
  destruct (put_raw_error env); simpl; intros Hin;
    apply elem_of_cons in Hin; destruct Hin as [Hin|Hin]; try discriminate;
    apply elem_of_nil in Hin; contradiction.
Qed.

(** * The front end *)

Lemma strip_trailing_slashes_slashes (n : nat) :
  strip_trailing_slashes (slashes n) = EmptyString.
Proof. induction n as [|n IH]; simpl; [reflexivity | rewrite IH; reflexivity]. Qed.

Lemma strip_trailing_slashes_base (v : string) (c : ascii) (n : nat) :
  c <> "/"%char ->
  strip_trailing_slashes (v ++ String c (slashes n)) = v ++ String c EmptyString.
Proof.
  intros Hc. induction v as [|x v IH]; simpl.
  - rewrite strip_trailing_slashes_slashes.
    destruct (Ascii.eqb_spec c "/"); [contradiction | reflexivity].
  - rewrite IH. destruct v; reflexivity.
Qed.

Lemma append_last (v : string) (c : ascii) (s : string) :
  (v ++ String c EmptyString) ++ s = v ++ String c s.
Proof.
  induction v as [|x v IH]; [reflexivity|].
  change (String x ((v ++ String c EmptyString) ++ s) = String x (v ++ String c s)).
  rewrite IH. reflexivity.
Qed.

(** However many slashes end [BACKEND_URL], a proxy route forwards to
    the address with exactly one slash before the route; and a
    [BACKEND_URL] made of slashes only counts as not configured. *)
Theorem forward_to_normalised (v : string) (c : ascii) (n : nat) (route : string) :
  c <> "/"%char ->
  forward_to (v ++ String c (slashes n)) route = Some (v ++ String c ("/" ++ route)) /\
  forward_to (slashes n) route = None.
Proof.
  intros Hc. unfold forward_to. split.
  - rewrite (strip_trailing_slashes_base v c n Hc).
    destruct (String.eqb_spec (v ++ String c EmptyString) EmptyString) as [He|_].
    + destruct v; discriminate.
    + f_equal. apply append_last.
  - rewrite strip_trailing_slashes_slashes. reflexivity.
Qed.

(** * The analytics route on the heap *)

Lemma lookup_app_length {A} (h t : list A) (x : A) : (h ++ x :: t)%list !! length h = Some x.
Proof. rewrite lookup_app_r by lia. rewrite Nat.sub_diag. reflexivity. Qed.

Lemma lookup_app_S_length {A} (h t : list A) (x y : A) :
  (h ++ x :: y :: t)%list !! S (length h) = Some y.
Proof.
  rewrite lookup_app_r by lia.
  replace (S (length h) - length h)%nat with 1%nat by lia. reflexivity.
Qed.

Lemma lookup_app_SS_length {A} (h t : list A) (x y z : A) :
  (h ++ x :: y :: z :: t)%list !! S (S (length h)) = Some z.
Proof.
  rewrite lookup_app_r by lia.
  replace (S (S (length h)) - length h)%nat with 2%nat by lia. reflexivity.
Qed.

Lemma insert_app_length {A} (h t : list A) (x y : A) :
  <[length h := y]> (h ++ x :: t)%list = (h ++ y :: t)%list.
Proof.
  rewrite insert_app_r_alt by lia. rewrite Nat.sub_diag. reflexivity.
Qed.

Lemma insert_app_S_length {A} (h t : list A) (x y z : A) :
  <[S (length h) := z]> (h ++ x :: y :: t)%list = (h ++ x :: z :: t)%list.
Proof.
  rewrite insert_app_r_alt by lia.
  replace (S (length h) - length h)%nat with 1%nat by lia. reflexivity.
Qed.

Lemma follows_and_then {T1 S1 T2 S2}
    (Rel1 : T1 -> S1 -> list object -> Prop) (Rel2 : T2 -> S2 -> list object -> Prop)
    (Broken : list object -> Prop)
    (r : result T1) (c : prog S1) (k : T1 -> result T2) (k' : S1 -> prog S2)
    (h : list object) :
  follows Rel1 Broken r (c h) ->
  (forall t s h', Rel1 t s h' -> follows Rel2 Broken (k t) (k' s h')) ->
  follows Rel2 Broken (bind r k) (and_then c k' h).
Proof.
  unfold follows at 1, and_then. intros H Hk.
  destruct r as [t|e]; destruct (c h) as [[s|e'] h']; try contradiction; cbn [bind].
  - apply Hk. exact H.
  - exact H.
Qed.

Lemma follows_lift {A T S} (Rel : T -> S -> list object -> Prop)
    (Broken : list object -> Prop)
    (r : result A) (k : A -> result T) (k' : A -> prog S) (h : list object) :
  Broken h ->
  (forall t, r = Ok t -> follows Rel Broken (k t) (k' t h)) ->
  follows Rel Broken (bind r k) (and_then (lift r) k' h).
Proof.
  intros Hb Hk. unfold and_then, lift.
  destruct r as [t|e]; cbn [bind].
  - apply Hk. reflexivity.
  - split; [reflexivity | exact Hb].
Qed.

Lemma follows_weaken {T S} (Rel Rel' : T -> S -> list object -> Prop)
    (Broken Broken' : list object -> Prop) (r : result T) (o : result S * list object) :
  (forall t s h, Rel t s h -> Rel' t s h) ->
  (forall h, Broken h -> Broken' h) ->
  follows Rel Broken r o -> follows Rel' Broken' r o.
Proof.
  intros HR HB. unfold follows.
  destruct r as [t|e]; destruct o as [[s|e'] h]; try contradiction.
  - apply HR.
  - intros (He & Hb). split; [exact He | apply HB; exact Hb].
Qed.

(** How a loop on the heap follows the loop on lists. *)
Lemma visit_follows {S T} (Rel : T -> S -> list object -> Prop)
    (Broken : list object -> Prop)
    (l : loc) (R : list response_set)
    (f : T -> response_set -> result T) (body : S -> response_set -> prog S) :
  (forall t s h, Rel t s h -> h !! l = Some (Response_array R)) ->
  (forall t s h r, Rel t s h -> follows Rel Broken (f t r) (body s r h)) ->
  forall indices t s h, Rel t s h ->
    follows Rel Broken
      (fold_result f (omap (fun i => R !! i) indices) t)
      (visit l body indices s h).
Proof.
  intros Hcell Hstep. induction indices as [|i rest IH]; intros t s h Hrel.
  - simpl. exact Hrel.
  - cbn [visit omap list_omap]. unfold and_then at 1, read_responses, and_then, read_object.
    rewrite (Hcell t s h Hrel). unfold ret at 1.
    destruct (R !! i) as [r|] eqn:Hr.
    + cbn [fold_result].
      apply (follows_and_then Rel Rel Broken); [apply Hstep; exact Hrel|].
      intros t' s' h' Hrel'. apply IH. exact Hrel'.
    + apply IH. exact Hrel.
Qed.

Lemma omap_lookup_seq_from {A} (R pre : list A) :
  omap (fun i => (pre ++ R)%list !! i) (seq (length pre) (length R)) = R.
Proof.
  revert pre. induction R as [|x R IH]; intros pre; [reflexivity|].
  cbn [length seq omap list_omap]. rewrite lookup_app_length.
  f_equal. specialize (IH (pre ++ [x])%list).
  rewrite <- app_assoc, length_app, Nat.add_1_r in IH. exact IH.
Qed.

Lemma omap_lookup_seq {A} (R : list A) :
  omap (fun i => R !! i) (seq 0 (length R)) = R.
Proof. exact (omap_lookup_seq_from R []). Qed.

Lemma reduce_on_follows {S T} (Rel : T -> S -> list object -> Prop)
    (Broken : list object -> Prop)
    (Ro : option loc) (Rv : option (list response_set))
    (f : T -> response_set -> result T) (body : S -> response_set -> prog S) :
  (forall t s h, Rel t s h -> receiver h Ro Rv) ->
  (forall t s h, Rel t s h -> Broken h) ->
  (forall t s h r, Rel t s h -> follows Rel Broken (f t r) (body s r h)) ->
  forall t s h, Rel t s h ->
    follows Rel Broken (forEach Rv f t) (reduce_on Ro body s h).
Proof.
  intros Hcell Hbroken Hstep t s h Hrel.
  pose proof (Hcell t s h Hrel) as Hr. unfold receiver in Hr.
  destruct Ro as [l|]; destruct Rv as [R|]; try contradiction.
  - cbn [forEach reduce_on]. unfold and_then at 1, read_responses, and_then, read_object.
    rewrite Hr. unfold ret at 1.
    rewrite <- (omap_lookup_seq R) at 1.
    apply visit_follows; assumption.
  - simpl. split; [reflexivity|]. exact (Hbroken t s h Hrel).
Qed.

Lemma and_then_assoc {A B C} (c : prog A) (k1 : A -> prog B) (k2 : B -> prog C)
    (h : list object) :
  and_then (and_then c k1) k2 h = and_then c (fun x => and_then (k1 x) k2) h.
Proof.
  unfold and_then. destruct (c h) as [[a|e] h']; reflexivity.
Qed.

Lemma and_then_alloc {B} (o : object) (k : loc -> prog B) (h : list object) :
  and_then (alloc o) k h = k (length h) (h ++ [o])%list.
Proof. reflexivity. Qed.

Lemma and_then_read {B} (l : loc) (o : object) (k : object -> prog B) (h : list object) :
  h !! l = Some o -> and_then (read_object l) k h = k o h.
Proof. intros H. unfold and_then, read_object. rewrite H. reflexivity. Qed.

Lemma and_then_read_survey {B} (l : loc) (s : survey) (k : survey -> prog B)
    (h : list object) :
  h !! l = Some (Survey_object s) -> and_then (read_survey l) k h = k s h.
Proof. intros H. unfold and_then, read_survey, and_then, read_object. rewrite H. reflexivity. Qed.

Lemma and_then_read_strings {B} (l : loc) (x : list string) (k : list string -> prog B)
    (h : list object) :
  h !! l = Some (String_array x) -> and_then (read_strings l) k h = k x h.
Proof. intros H. unfold and_then, read_strings, and_then, read_object. rewrite H. reflexivity. Qed.

Lemma and_then_read_numbers {B} (l : loc) (x : list Z) (k : list Z -> prog B)
    (h : list object) :
  h !! l = Some (Number_array x) -> and_then (read_numbers l) k h = k x h.
Proof. intros H. unfold and_then, read_numbers, and_then, read_object. rewrite H. reflexivity. Qed.

Lemma and_then_read_bins {B} (l : loc) (x : list bin) (k : list bin -> prog B)
    (h : list object) :
  h !! l = Some (Bin_array x) -> and_then (read_bins l) k h = k x h.
Proof. intros H. unfold and_then, read_bins, and_then, read_object. rewrite H. reflexivity. Qed.

Lemma and_then_read_summaries {B} (l : loc) (x : list loc) (k : list loc -> prog B)
    (h : list object) :
  h !! l = Some (Summary_array x) -> and_then (read_summaries l) k h = k x h.
Proof. intros H. unfold and_then, read_summaries, and_then, read_object. rewrite H. reflexivity. Qed.

Lemma and_then_read_map {B} (l : loc) (x : gmap string loc)
    (k : gmap string loc -> prog B) (h : list object) :
  h !! l = Some (Map_object x) -> and_then (read_map l) k h = k x h.
Proof. intros H. unfold and_then, read_map, and_then, read_object. rewrite H. reflexivity. Qed.

Lemma lookup_prefix (h h' : list object) (l : loc) (o : object) :
  h !! l = Some o -> h `prefix_of` h' -> h' !! l = Some o.
Proof. apply prefix_lookup_Some. Qed.

Lemma receiver_prefix (h h' : list object) (Ro : option loc)
    (Rv : option (list response_set)) :
  h `prefix_of` h' -> receiver h Ro Rv -> receiver h' Ro Rv.
Proof.
  intros Hp. unfold receiver. destruct Ro as [l|]; destruct Rv as [R|]; try tauto.
  intros H. exact (prefix_lookup_Some _ _ _ _ H Hp).
Qed.

Lemma prefix_app_two {A} (h : list A) (t : list A) : h `prefix_of` (h ++ t)%list.
Proof. exists t. reflexivity. Qed.

(** ** The branches *)

Lemma mcq_on_follows (q : value) (qi : nat) (Ro : option loc)
    (Rv : option (list response_set)) (h : list object) :
  receiver h Ro Rv ->
  follows (summary_at h) (fun h' => h `prefix_of` h')
    (mcq_summary q qi Rv) (mcq_on q qi Ro h).
Proof.
  intros HR. unfold mcq_summary, mcq_on.
  apply follows_lift; [reflexivity|]. intros labels _.
  rewrite !and_then_alloc. rewrite length_app, Nat.add_1_r, <- app_assoc.
  cbn [app].
  apply (follows_and_then
           (fun counts (_ : unit) h' =>
              h' = (h ++ [String_array labels; Number_array counts])%list)).
  - unfold forEach_on. apply reduce_on_follows.
    + intros counts _ h' ->. eapply receiver_prefix; [apply prefix_app_two | exact HR].
    + intros counts _ h' ->. apply prefix_app_two.
    + intros counts _ h' r ->. unfold mcq_step.
      apply follows_lift; [apply prefix_app_two|]. intros a _.
      rewrite (and_then_read_strings _ labels) by apply lookup_app_length.
      destruct (Z.leb 0 (indexOf labels a)).
      * rewrite (and_then_read_numbers _ counts) by apply lookup_app_S_length.
        unfold write_object. rewrite insert_app_S_length. reflexivity.
      * reflexivity.
    + reflexivity.
  - intros counts _ h' ->.
    apply follows_lift; [apply prefix_app_two|]. intros text _.
    unfold alloc. cbn [follows]. split.
    + rewrite <- app_assoc. apply prefix_app_two.
    + rewrite <- app_assoc. cbn [app]. rewrite length_app. cbn [length].
      replace (length h + 2)%nat with (S (S (length h))) by lia.
      unfold render_summary.
      rewrite (and_then_read _ (Mcq_object text (length h) (S (length h))))
        by apply lookup_app_SS_length.
      rewrite (and_then_read_strings _ labels) by apply lookup_app_length.
      rewrite (and_then_read_numbers _ counts) by apply lookup_app_S_length.
      reflexivity.
Qed.

Lemma scale_on_follows (q : value) (qi : nat) (Ro : option loc)
    (Rv : option (list response_set)) (h : list object) :
  receiver h Ro Rv ->
  follows (summary_at h) (fun h' => h `prefix_of` h')
    (scale_summary q qi Rv) (scale_on q qi Ro h).
Proof.
  intros HR. unfold scale_summary, scale_on.
  apply follows_lift; [reflexivity|]. intros qmin _.
  apply follows_lift; [reflexivity|]. intros mn _.
  apply follows_lift; [reflexivity|]. intros qmax _.
  apply follows_lift; [reflexivity|]. intros mx _.
  apply follows_lift; [reflexivity|]. intros bins0 _.
  rewrite and_then_alloc.
  apply (follows_and_then
           (fun bins (_ : unit) h' => h' = (h ++ [Bin_array bins])%list)).
  - unfold forEach_on. apply reduce_on_follows.
    + intros bins _ h' ->. eapply receiver_prefix; [apply prefix_app_two | exact HR].
    + intros bins _ h' ->. apply prefix_app_two.
    + intros bins _ h' r ->. unfold scale_step.
      apply follows_lift; [apply prefix_app_two|]. intros v _.
      rewrite (and_then_read_bins _ bins) by apply lookup_app_length.
      destruct (num_leb (num_of_Z 0) (num_sub v mn)
                && num_ltb (num_sub v mn) (num_of_Z (Z.of_nat (length bins)))).
      * unfold and_then, lift, write_object.
        destruct (bump bins (num_sub v mn)) as [bins'|e]; cbn [follows].
        -- rewrite insert_app_length. reflexivity.
        -- split; [reflexivity | apply prefix_app_two].
      * reflexivity.
    + reflexivity.
  - intros bins _ h' ->.
    apply follows_lift; [apply prefix_app_two|]. intros text _.
    unfold alloc. cbn [follows]. split.
    + rewrite <- app_assoc. apply prefix_app_two.
    + rewrite <- app_assoc. cbn [app]. rewrite length_app. cbn [length].
      rewrite Nat.add_1_r.
      unfold render_summary.
      rewrite (and_then_read _ (Scale_object text (length h) mn mx))
        by apply lookup_app_S_length.
      rewrite (and_then_read_bins _ bins) by apply lookup_app_length.
      reflexivity.
Qed.

Lemma fold_result_Ok {A S} (g : S -> A -> S) (l : list A) (s : S) :
  fold_result (fun s x => Ok (g s x)) l s = Ok (fold_left g l s).
Proof.
  revert s. induction l as [|x l IH]; intros s; simpl; [reflexivity | apply IH].
Qed.

Lemma text_on_follows (q : value) (qi : nat) (Ro : option loc)
    (Rv : option (list response_set)) (h : list object) :
  receiver h Ro Rv ->
  follows (summary_at h) (fun h' => h `prefix_of` h')
    (text_summary q qi Rv) (text_on q qi Ro h).
Proof.
  intros HR.
  assert (Hloop : text_summary q qi Rv =
                  let* count := forEach Rv (fun n r =>
                                  Ok (if truthy (answer_at qi r) then n + 1 else n)) 0 in
                  let* text := get q "text" in
                  Ok (Text text count)).
  { unfold text_summary, text_count. destruct Rv as [R|]; [|reflexivity].
    cbn [forEach]. rewrite fold_result_Ok. reflexivity. }
  rewrite Hloop. unfold text_on.
  apply (follows_and_then (fun (n n' : Z) h' => n = n' /\ h' = h)).
  - apply reduce_on_follows.
    + intros n n' h' (_ & ->). exact HR.
    + intros n n' h' (_ & ->). reflexivity.
    + intros n n' h' r (-> & ->). split; reflexivity.
    + split; reflexivity.
  - intros n n' h' (-> & ->).
    apply follows_lift; [reflexivity|]. intros text _.
    unfold alloc. cbn [follows]. split.
    + apply prefix_app_two.
    + unfold render_summary.
      rewrite (and_then_read _ (Text_object text n')) by apply lookup_app_length.
      reflexivity.
Qed.

Lemma summarize_on_follows (q : value) (qi : nat) (Ro : option loc)
    (Rv : option (list response_set)) (h : list object) :
  receiver h Ro Rv ->
  follows (summary_at h) (fun h' => h `prefix_of` h')
    (summarize Rv qi q) (summarize_on Ro qi q h).
Proof.
  intros HR. unfold summarize, summarize_on.
  apply follows_lift; [reflexivity|]. intros type _.
  destruct (is_string type "mcq"); [apply mcq_on_follows; exact HR|].
  destruct (is_string type "scale");
    [apply scale_on_follows | apply text_on_follows]; exact HR.
Qed.

(** ** The callbacks one after the other *)

(** What the reply shows of a summary object does not change when
    objects are added to the heap. *)
Lemma render_summary_prefix (l : loc) (s : summary) (h h' : list object) :
  render_summary l h = (Ok s, h) -> h `prefix_of` h' ->
  render_summary l h' = (Ok s, h').
Proof.
  intros Hr Hp.
  assert (Hl : forall (k : loc) o, h !! k = Some o -> h' !! k = Some o).
  { intros k o Hk. exact (prefix_lookup_Some _ _ _ _ Hk Hp). }
  unfold render_summary, and_then, read_object in *.
  destruct (h !! l) as [o|] eqn:Ho; [|discriminate].
  rewrite (Hl _ _ Ho).
  destruct o as [| | | | |text L C|text B mn mx|text n| |]; try discriminate.
  - unfold read_strings, read_numbers, and_then, read_object in *.
    destruct (h !! L) as [[| |x| | | | | | |]|] eqn:HL; try discriminate.
    rewrite (Hl _ _ HL).
    unfold ret in *. cbn in *.
    destruct (h !! C) as [[| | |y| | | | | |]|] eqn:HC; try discriminate.
    rewrite (Hl _ _ HC). cbn in *. inversion Hr; subst. reflexivity.
  - unfold read_bins, and_then, read_object in *.
    destruct (h !! B) as [[| | | |x| | | | |]|] eqn:HB; try discriminate.
    rewrite (Hl _ _ HB). unfold ret in *. cbn in *. inversion Hr; subst. reflexivity.
  - unfold ret in *. inversion Hr; subst. reflexivity.
Qed.

Lemma map_questions_follows (sl : loc) (s : survey) (Ro : option loc)
    (Rv : option (list response_set)) (qs : list value) :
  forall (pre : list value) (h : list object),
    questions s = (pre ++ qs)%list ->
    h !! sl = Some (Survey_object s) ->
    receiver h Ro Rv ->
    follows (summaries_at h) (fun h' => h `prefix_of` h')
      (mapi_result (summarize Rv) (length pre) qs)
      (map_questions sl (summarize_on Ro) (seq (length pre) (length qs)) h).
Proof.
  induction qs as [|q qs IH]; intros pre h Hqs Hs HR.
  - simpl. split; [reflexivity | constructor].
  - cbn [length seq map_questions mapi_result].
    rewrite (and_then_read_survey _ s) by exact Hs.
    rewrite Hqs, lookup_app_length.
    apply (follows_and_then (summary_at h)); [apply summarize_on_follows; exact HR|].
    intros s1 y h1 (Hp1 & Hy).
    specialize (IH (pre ++ [q])%list h1).
    rewrite length_app, Nat.add_1_r in IH.
    apply (follows_and_then (summaries_at h1)).
    + eapply follows_weaken; [| |apply IH].
      * intros t u h2 H. exact H.
      * intros h2 H. etransitivity; eassumption.
      * rewrite <- app_assoc. exact Hqs.
      * exact (prefix_lookup_Some _ _ _ _ Hs Hp1).
      * exact (receiver_prefix _ _ _ _ Hp1 HR).
    + intros out ys h2 (Hp2 & Hys). unfold ret. cbn [follows]. split.
      * etransitivity; eassumption.
      * constructor; [exact (render_summary_prefix _ _ _ _ Hy Hp2) | exact Hys].
Qed.

Lemma render_each_at (out : list summary) (ls : list loc) (h : list object) :
  Forall2 (fun s l => render_summary l h = (Ok s, h)) out ls ->
  render_each ls h = (Ok out, h).
Proof.
  induction 1 as [|s l out ls Hs Hout IH]; [reflexivity|].
  cbn [render_each]. unfold and_then. rewrite Hs, IH. reflexivity.
Qed.

(** ** The handler *)

(** The receiver the list version of the route computes. *)
Lemma read_omap {A B} (f : A -> option B) (g : gmap string A) (id : string) :
  (forall a, g !! id = Some a -> is_Some (f a)) ->
  read (omap f g) id =
  match read g id with
  | Own a => match f a with Some b => Own b | None => Absent end
  | Inherited => Inherited
  | Absent => Absent
  end.
Proof.
  intros Hf. unfold read. rewrite lookup_omap.
  destruct (g !! id) as [a|] eqn:Ha; simpl.
  - destruct (Hf a eq_refl) as (b & Hb). rewrite Hb. reflexivity.
  - destruct (bool_decide (id ∈ Object_prototype_names)); reflexivity.
Qed.

Lemma survey_at_Some (h : list object) (l : loc) (s : survey) :
  survey_at h l = Some s -> h !! l = Some (Survey_object s).
Proof.
  unfold survey_at. destruct (h !! l) as [[]|]; try discriminate.
  intros H. inversion H. reflexivity.
Qed.

Lemma responses_at_Some (h : list object) (l : loc) (R : list response_set) :
  responses_at h l = Some R -> h !! l = Some (Response_array R).
Proof.
  unfold responses_at. destruct (h !! l) as [[]|]; try discriminate.
  intros H. inversion H. reflexivity.
Qed.

Lemma bind_Ok_r {A} (r : result A) : bind r Ok = r.
Proof. destruct r; reflexivity. Qed.

Lemma analytics_tail_follows (h0 h : list object) (sl : loc) (s : survey)
    (Ro : option loc) (Rv : option (list response_set)) :
  h0 `prefix_of` h ->
  h !! sl = Some (Survey_object s) ->
  receiver h Ro Rv ->
  follows (fun out r h' => r = Json_out out /\ h0 `prefix_of` h')
    (fun h' => h0 `prefix_of` h')
    (mapi_result (summarize Rv) 0 (questions s))
    ((do* s := read_survey sl in
      do* out := map_questions sl (summarize_on Ro) (seq 0 (length (questions s))) in
      do* o := alloc (Summary_array out) in
      do* json := render o in
      ret (Json_out json)) h).
Proof.
  intros Hp Hs HR.
  rewrite (and_then_read_survey _ s) by exact Hs.
  rewrite <- (bind_Ok_r (mapi_result (summarize Rv) 0 (questions s))).
  apply (follows_and_then (summaries_at h)).
  - eapply follows_weaken;
      [| |exact (map_questions_follows sl s Ro Rv (questions s) [] h eq_refl Hs HR)].
    + intros t u h2 H. exact H.
    + intros h2 H. etransitivity; eassumption.
  - intros out ls h2 (Hp2 & Hout). cbn [follows].
    rewrite and_then_alloc. unfold render. rewrite and_then_assoc.
    rewrite (and_then_read_summaries _ ls) by apply lookup_app_length.
    unfold and_then at 1. rewrite (render_each_at out).
    + split; [reflexivity|].
      etransitivity; [exact Hp|]. etransitivity; [exact Hp2|]. apply prefix_app_two.
    + eapply Forall2_impl; [exact Hout|].
      intros s' l' Hr. cbn beta in Hr.
      exact (render_summary_prefix _ _ _ _ Hr (prefix_app_two _ _)).
Qed.

Lemma map_at_Some (h : list object) (l : loc) (g : gmap string loc) :
  h !! l = Some (Map_object g) -> map_at h l = g.
Proof. intros H. unfold map_at. rewrite H. reflexivity. Qed.

(** The handler, run on the objects of a well-formed machine, follows
    the list version of the route run on the store the machine holds,
    and leaves every object of the machine as it was. *)
Lemma analytics_handler_follows (m : machine) (id : string) :
  well_formed m ->
  follows (fun r r' h' => r' = r /\ objects m `prefix_of` h')
    (fun h' => objects m `prefix_of` h')
    (match fst (get_analytics id (store_of m)) with
     | Uncaught e => Throw e
     | r => Ok r
     end)
    (analytics_handler m id (objects m)).
Proof.
  intros ((gs & Hgs) & (gr & Hgr) & Hs & Hr).
  unfold get_analytics, analytics_handler. cbn [store_of DB surveys responses].
  rewrite (map_at_Some _ _ _ Hgs) in *. rewrite (map_at_Some _ _ _ Hgr) in *.
  rewrite (and_then_read_map _ gs) by exact Hgs.
  rewrite (read_omap _ _ _ (Hs id)), (read_omap _ _ _ (Hr id)).
  destruct (gs !! id) as [sl|] eqn:Hsl.
  - rewrite (read_own _ _ _ Hsl).
    destruct (Hs id sl Hsl) as (s & Hat). rewrite Hat.
    rewrite (and_then_read_map _ gr) by exact Hgr.
    assert (Htail : forall Ro Rv h,
              objects m `prefix_of` h -> receiver h Ro Rv ->
              follows (fun r r' h' => r' = r /\ objects m `prefix_of` h')
                (fun h' => objects m `prefix_of` h')
                (match fst (match mapi_result (summarize Rv) 0 (questions s) with
                            | Ok out => (Json_out out, store_of m)
                            | Throw e => (Uncaught e, store_of m)
                            end) with
                 | Uncaught e => Throw e
                 | r => Ok r
                 end)
                ((do* s := read_survey sl in
                  do* out := map_questions sl (summarize_on Ro)
                               (seq 0 (length (questions s))) in
                  do* o := alloc (Summary_array out) in
                  do* json := render o in
                  ret (Json_out json)) h)).
    { intros Ro Rv h Hp HR.
      pose proof (analytics_tail_follows (objects m) h sl s Ro Rv Hp
                    (lookup_prefix _ _ _ _ (survey_at_Some _ _ _ Hat) Hp) HR) as H.
      unfold follows in *.
      destruct (mapi_result (summarize Rv) 0 (questions s)) as [out|e]; cbn [fst];
        exact H. }
    unfold read. destruct (gr !! id) as [l|] eqn:Hl.
    + destruct (Hr id l Hl) as (R & HR). rewrite HR.
      apply Htail; [reflexivity | exact (responses_at_Some _ _ _ HR)].
    + destruct (bool_decide (id ∈ Object_prototype_names)).
      * apply Htail; [reflexivity | exact I].
      * change (and_then (do* l := alloc (Response_array []) in ret (Some l)) ?k ?h)
          with (k (Some (length h)) (h ++ [Response_array []])%list).
        apply Htail; [apply prefix_app_two | apply lookup_app_length].
  - destruct (decide (id ∈ Object_prototype_names)) as [Hin|Hout].
    + rewrite (read_inherited _ _ Hsl Hin). cbn. split; reflexivity.
    + rewrite (read_absent _ _ Hsl Hout). cbn. split; reflexivity.
Qed.

(** Objects added to the heap change neither the store the machine
    holds nor its being well formed. *)
Lemma store_of_prefix (m : machine) (h' : list object) :
  well_formed m ->
  objects m `prefix_of` h' ->
  store_of (with_objects m h') = store_of m /\ well_formed (with_objects m h').
Proof.
  intros ((gs & Hgs) & (gr & Hgr) & Hs & Hr) Hp.
  pose proof (lookup_prefix _ _ _ _ Hgs Hp) as Hgs'.
  pose proof (lookup_prefix _ _ _ _ Hgr Hp) as Hgr'.
  rewrite (map_at_Some _ _ _ Hgs) in Hs. rewrite (map_at_Some _ _ _ Hgr) in Hr.
  assert (Hsurvey : forall id l, gs !! id = Some l ->
                      survey_at h' l = survey_at (objects m) l).
  { intros id l Hl. destruct (Hs id l Hl) as (s & Hsl). rewrite Hsl.
    apply survey_at_Some in Hsl. unfold survey_at.
    rewrite (lookup_prefix _ _ _ _ Hsl Hp). reflexivity. }
  assert (Hresp : forall id l, gr !! id = Some l ->
                    responses_at h' l = responses_at (objects m) l).
  { intros id l Hl. destruct (Hr id l Hl) as (R & HRl). rewrite HRl.
    apply responses_at_Some in HRl. unfold responses_at.
    rewrite (lookup_prefix _ _ _ _ HRl Hp). reflexivity. }
  split.
  - unfold store_of, with_objects. cbn [objects DB_surveys DB_responses on_disk can_write].
    rewrite (map_at_Some _ _ _ Hgs), (map_at_Some _ _ _ Hgr),
      (map_at_Some _ _ _ Hgs'), (map_at_Some _ _ _ Hgr').
    f_equal. f_equal.
    + apply map_eq. intros id. rewrite !lookup_omap.
      destruct (gs !! id) as [l|] eqn:Hl; [|reflexivity].
      simpl. exact (Hsurvey id l Hl).
    + apply map_eq. intros id. rewrite !lookup_omap.
      destruct (gr !! id) as [l|] eqn:Hl; [|reflexivity].
      simpl. exact (Hresp id l Hl).
  - unfold well_formed, with_objects. cbn [objects DB_surveys DB_responses].
    rewrite (map_at_Some _ _ _ Hgs'), (map_at_Some _ _ _ Hgr').
    split; [exists gs; exact Hgs'|]. split; [exists gr; exact Hgr'|].
    split; intros id l Hl.
    + rewrite (Hsurvey id l Hl). exact (Hs id l Hl).
    + rewrite (Hresp id l Hl). exact (Hr id l Hl).
Qed.

(** The route on the heap gives the reply of the route on lists, and
    only adds objects. *)
Lemma analytics_on_refines (id : string) (m : machine) :
  well_formed m ->
  (exists h', objects m `prefix_of` h' /\
              snd (analytics_on id m) = with_objects m h') /\
  fst (analytics_on id m) = fst (get_analytics id (store_of m)).
Proof.
  intros Hwf.
  pose proof (analytics_handler_follows m id Hwf) as H.
  unfold analytics_on. unfold follows in H.
  destruct (fst (get_analytics id (store_of m))) as [i| |out|st e|st|e];
    destruct (analytics_handler m id (objects m)) as [[r|e'] h'];
    try contradiction; cbn [fst snd];
    destruct H as (-> & Hp);
    (split; [exists h'; split; [exact Hp|reflexivity]|reflexivity]).
Qed.

(** C6. The analytics route, run on a heap that holds the store next
    to whatever the route creates, leaves every object that existed
    before the call as it was: the heap after the call is the heap
    before it followed by new objects (the route's arrays [labels],
    [counts], [bins] and [out] and its summary objects, into which
    alone it writes).  So [DB.surveys], [DB.responses], every survey
    and every array of responses are untouched, and with the file,
    which the route does not write, the store is unchanged.  The reply
    is the one the list version of the route computes, which for a
    stored survey with stored responses is the aggregation of the
    survey's questions over the response sequence and depends on
    nothing else; and the same request repeated on the machine the
    first call leaves gives the same reply. *)
Theorem C6_analytics_pure (id : string) (m : machine) :
  well_formed m ->
  (exists fresh, objects (snd (analytics_on id m)) = (objects m ++ fresh)%list) /\
  store_of (snd (analytics_on id m)) = store_of m /\
  well_formed (snd (analytics_on id m)) /\
  fst (analytics_on id m) = fst (get_analytics id (store_of m)) /\
  (forall s R,
      surveys (DB (store_of m)) !! id = Some s ->
      responses (DB (store_of m)) !! id = Some R ->
      fst (analytics_on id m) = analytics_reply (aggregate (questions s) R)) /\
  fst (analytics_on id (snd (analytics_on id m))) = fst (analytics_on id m).
Proof.
  intros Hwf.
  destruct (analytics_on_refines id m Hwf) as ((h' & Hp & Hm') & Hreply).
  destruct (store_of_prefix m h' Hwf Hp) as (Hstore & Hwf').
  rewrite Hm'. cbn [with_objects objects].
  split; [exact Hp|]. split; [exact Hstore|]. split; [exact Hwf'|].
  split; [exact Hreply|]. split.
  - intros s R Hs HR. rewrite Hreply, (get_analytics_stored id _ s R Hs HR).
    reflexivity.
  - destruct (analytics_on_refines id (with_objects m h') Hwf') as (_ & Hreply').
    rewrite Hreply', Hstore, Hreply. reflexivity.
Qed.

End Server.

(** * Closed instances *)

(** The theorems above that carry hypotheses, applied to sample data. *)

(** Sums and differences as doubles give them: [1.2 - 0.2] and
    [1.1 - 0.1] are 1, [0.4 - 0.1] is not 0.3 but the double next to
    it, [2^53 + 1] is [2^53], and the largest double added to itself
    overflows. *)
Lemma num_add_samples :
  num_sub (Fin (5404319552844595 # 4503599627370496)) (Fin (3602879701896397 # 18014398509481984)) = num_of_Z 1 /\
  num_sub (Fin (2476979795053773 # 2251799813685248)) (Fin (3602879701896397 # 36028797018963968)) = num_of_Z 1 /\
  num_sub (Fin (3602879701896397 # 9007199254740992)) (Fin (3602879701896397 # 36028797018963968)) = Fin (1351079888211149 # 4503599627370496) /\
  num_add (num_of_Z (2 ^ 53)) (num_of_Z 1) = num_of_Z (2 ^ 53) /\
  num_add (num_of_Z (2 ^ 1024 - 2 ^ 971)) (num_of_Z (2 ^ 1024 - 2 ^ 971)) = PosInfinity.
Proof. repeat split; vm_compute; reflexivity. Qed.

(** With [min = 0.2] and [max = 1.2] the scale branch builds two bins,
    and with [min = 0.1] the answer [1.1] lands in the second of its
    three bins. *)
Lemma scale_with_fractional_bounds :
  aggregate sample_StringToNumber sample_NumberToString_rest
    [VObj [("type", VStr "scale"); ("min", VNum (Fin (3602879701896397 # 18014398509481984)));
           ("max", VNum (Fin (5404319552844595 # 4503599627370496))); ("text", VStr "Q")]] []
  = Ok [Scale (VStr "Q")
          [{| label := "?"; count := 0 |}; {| label := "?"; count := 0 |}]
          (Fin (3602879701896397 # 18014398509481984)) (Fin (5404319552844595 # 4503599627370496))] /\
  aggregate sample_StringToNumber sample_NumberToString_rest
    [VObj [("type", VStr "scale"); ("min", VNum (Fin (3602879701896397 # 36028797018963968)));
           ("max", VNum (Fin (4728779608739021 # 2251799813685248))); ("text", VStr "Q")]]
    [response 1 (VNum (Fin (2476979795053773 # 2251799813685248)))]
  = Ok [Scale (VStr "Q")
          [{| label := "?"; count := 0 |}; {| label := "?"; count := 1 |};
           {| label := "?"; count := 0 |}]
          (Fin (3602879701896397 # 36028797018963968)) (Fin (4728779608739021 # 2251799813685248))].
Proof. split; vm_compute; reflexivity. Qed.

(** C2 at the options A, B and the answer " C ". *)
Lemma C2_witness :
  mcq_labels mcq_A_B = Ok ["A"; "B"] /\
  call_trim (or_else (answer_at 0 (response 2 (VStr " C "))) (VStr EmptyString)) = Ok "C" /\
  ("C" ∉ ["A"; "B"]) /\
  mcq_summary mcq_A_B 0
    (Some ([response 1 (VStr "A")] ++ response 2 (VStr " C ") :: [response 3 (VStr "B")])%list)
  = mcq_summary mcq_A_B 0 (Some ([response 1 (VStr "A")] ++ [response 3 (VStr "B")])%list).
Proof.
  assert (H1 : mcq_labels mcq_A_B = Ok ["A"; "B"]) by reflexivity.
  assert (H2 : call_trim (or_else (answer_at 0 (response 2 (VStr " C ")))
                            (VStr EmptyString)) = Ok "C") by reflexivity.
  assert (H3 : "C" ∉ ["A"; "B"]).
  { apply not_elem_of_cons. split; [discriminate|].
    apply not_elem_of_cons. split; [discriminate|]. apply not_elem_of_nil. }
  split; [exact H1|]. split; [exact H2|]. split; [exact H3|].
  exact (proj1 (proj2 (C2_unmatched_answer_not_counted mcq_A_B 0 ["A"; "B"]
                         [response 1 (VStr "A")] [response 3 (VStr "B")]
                         (response 2 (VStr " C ")) "C" H1 H2 H3))).
Defined.

(** C5 at a scale question and an mcq question with one response. *)
Lemma C5_witness :
  aggregate sample_StringToNumber sample_NumberToString_rest
    [scale_1_3; mcq_A_B] [response 1 (VNum (num_of_Z 2))]
  = Ok [Scale (VStr "Q")
          [{| label := "1"; count := 0 |}; {| label := "2"; count := 1 |};
           {| label := "3"; count := 0 |}]
          (num_of_Z 1) (num_of_Z 3);
        Mcq (VStr "Q") ["A"; "B"] [0; 0]] /\
  Forall2 (summary_shape sample_StringToNumber sample_NumberToString_rest)
    [scale_1_3; mcq_A_B]
    [Scale (VStr "Q")
       [{| label := "1"; count := 0 |}; {| label := "2"; count := 1 |};
        {| label := "3"; count := 0 |}]
       (num_of_Z 1) (num_of_Z 3);
     Mcq (VStr "Q") ["A"; "B"] [0; 0]].
Proof.
  split; [reflexivity|].
  apply (C5_summary_shapes sample_StringToNumber sample_NumberToString_rest
           [scale_1_3; mcq_A_B] [response 1 (VNum (num_of_Z 2))]).
  reflexivity.
Defined.

(** Outside the data model: a scale question with [min = 5] and
    [max = 1] is summarized with no bin. *)
Lemma scale_5_1_has_no_bin :
  aggregate sample_StringToNumber sample_NumberToString_rest [scale_5_1] []
  = Ok [Scale (VStr "Q") [] (num_of_Z 5) (num_of_Z 1)].
Proof. reflexivity. Qed.

(** C6 at a machine that holds one survey and three responses: the
    reply, and the objects the call adds after the four the machine
    held. *)
Lemma C6_witness :
  well_formed sample_machine /\
  fst (analytics_on sample_StringToNumber sample_NumberToString_rest "s1" sample_machine)
  = Json_out
      [ Scale (VStr "Q")
          [{| label := "1"; count := 0 |}; {| label := "2"; count := 1 |};
           {| label := "3"; count := 2 |}]
          (num_of_Z 1) (num_of_Z 3);
        Mcq (VStr "Q") ["A"; "B"] [2; 1];
        Text (VStr "Q") 1 ] /\
  objects (snd (analytics_on sample_StringToNumber sample_NumberToString_rest
                  "s1" sample_machine))
  = (objects sample_machine ++
     [ Bin_array [{| label := "1"; count := 0 |}; {| label := "2"; count := 1 |};
                  {| label := "3"; count := 2 |}];
       Scale_object (VStr "Q") 4%nat (num_of_Z 1) (num_of_Z 3);
       String_array ["A"; "B"];
       Number_array [2; 1];
       Mcq_object (VStr "Q") 6%nat 7%nat;
       Text_object (VStr "Q") 1;
       Summary_array [5; 8; 9]%nat ])%list /\
  store_of (snd (analytics_on sample_StringToNumber sample_NumberToString_rest
                   "s1" sample_machine))
  = store_of sample_machine /\
  fst (analytics_on sample_StringToNumber sample_NumberToString_rest "s1"
         (snd (analytics_on sample_StringToNumber sample_NumberToString_rest
                 "s1" sample_machine)))
  = fst (analytics_on sample_StringToNumber sample_NumberToString_rest
           "s1" sample_machine).
Proof.
  assert (Hwf : well_formed sample_machine).
  { split; [eexists; reflexivity|]. split; [eexists; reflexivity|].
    split; intros id l H.
    - change (({[ "s1" := 2%nat ]} : gmap string loc) !! id = Some l) in H.
      apply lookup_singleton_Some in H. destruct H as (_ & <-).
      eexists. reflexivity.
    - change (({[ "s1" := 3%nat ]} : gmap string loc) !! id = Some l) in H.
      apply lookup_singleton_Some in H. destruct H as (_ & <-).
      eexists. reflexivity. }
  pose proof (C6_analytics_pure sample_StringToNumber sample_NumberToString_rest
                "s1" sample_machine Hwf)
    as (_ & Hstore & _ & _ & _ & Hagain).
  split; [exact Hwf|]. split; [reflexivity|]. split; [reflexivity|].
  split; [exact Hstore | exact Hagain].
Defined.

(** C7 at a free-text question and five responses: a text, an empty
    string, no answer at all, a null, and a second text. *)
Lemma C7_witness :
  get free_text_Q "type" = Ok (VStr "free_text") /\
  VStr "free_text" <> VStr "mcq" /\
  VStr "free_text" <> VStr "scale" /\
  summarize sample_StringToNumber sample_NumberToString_rest
    (Some [response 1 (VStr "fine"); response 2 (VStr EmptyString);
           {| ts := 3; answers := [] |}; response 4 VNull;
           response 5 (VStr "tired")]) 0 free_text_Q
  = Ok (Text (VStr "Q") 2).
Proof.
  assert (H1 : get free_text_Q "type" = Ok (VStr "free_text")) by reflexivity.
  assert (H2 : VStr "free_text" <> VStr "mcq") by discriminate.
  assert (H3 : VStr "free_text" <> VStr "scale") by discriminate.
  split; [exact H1|]. split; [exact H2|]. split; [exact H3|].
  exact (proj1 (C7_text_count_truthy sample_StringToNumber sample_NumberToString_rest
                  [response 1 (VStr "fine"); response 2 (VStr EmptyString);
                   {| ts := 3; answers := [] |}; response 4 VNull;
                   response 5 (VStr "tired")] 0 free_text_Q (VStr "free_text")
                  H1 H2 H3)).
Defined.

(** C8 at the id [constructor] on the initial store. *)
Lemma C8_witness :
  ("constructor" ∈ Object_prototype_names) /\
  surveys (DB (initial true)) !! "constructor" = None /\
  responses (DB (initial true)) !! "constructor" = None /\
  post_response 0 "constructor" (VObj [("answers", VArr [])]) (initial true)
  = (Uncaught TypeError, initial true).
Proof.
  assert (H1 : "constructor" ∈ Object_prototype_names) by (unfold Object_prototype_names; constructor).
  assert (H2 : surveys (DB (initial true)) !! "constructor" = None) by reflexivity.
  assert (H3 : responses (DB (initial true)) !! "constructor" = None) by reflexivity.
  split; [exact H1|]. split; [exact H2|]. split; [exact H3|].
  exact (C8_inherited_id_passes_guard 0 "constructor" [] (initial true) H1 H2 H3).
Defined.

(** C9 at a question that spells its kind under the key [kind]. *)
Lemma C9_witness :
  get kind_scale "type" = Ok VUndefined /\
  VUndefined <> VStr "mcq" /\
  VUndefined <> VStr "scale" /\
  summarize sample_StringToNumber sample_NumberToString_rest
    (Some [response 1 (VNum (num_of_Z 2)); response 2 (VStr EmptyString)]) 0 kind_scale
  = Ok (Text (VStr "Q") 1).
Proof.
  assert (H1 : get kind_scale "type" = Ok VUndefined) by reflexivity.
  assert (H2 : VUndefined <> VStr "mcq") by discriminate.
  assert (H3 : VUndefined <> VStr "scale") by discriminate.
  split; [exact H1|]. split; [exact H2|]. split; [exact H3|].
  exact (C9_other_types_are_text sample_StringToNumber sample_NumberToString_rest
           [response 1 (VNum (num_of_Z 2)); response 2 (VStr EmptyString)]
           0 kind_scale VUndefined H1 H2 H3).
Defined.

(** C10 at the options A, B, " A ", whose labels repeat A. *)
Lemma C10_witness :
  mcq_summary mcq_A_B_A 0 (Some [response 1 (VStr "A"); response 2 (VStr "A ")])
  = Ok (Mcq (VStr "Q") ["A"; "B"; "A"] [2; 0; 0]) /\
  (0 < 2)%nat /\
  ["A"; "B"; "A"] !! 0%nat = Some "A" /\
  ["A"; "B"; "A"] !! 2%nat = Some "A" /\
  [2; 0; 0] !! 2%nat = Some 0.
Proof.
  assert (H1 : mcq_summary mcq_A_B_A 0 (Some [response 1 (VStr "A"); response 2 (VStr "A ")])
               = Ok (Mcq (VStr "Q") ["A"; "B"; "A"] [2; 0; 0])) by reflexivity.
  assert (H2 : (0 < 2)%nat) by lia.
  split; [exact H1|]. split; [exact H2|].
  split; [reflexivity|]. split; [reflexivity|].
  exact (C10_duplicate_label_never_counted mcq_A_B_A 0
           [response 1 (VStr "A"); response 2 (VStr "A ")]
           (VStr "Q") ["A"; "B"; "A"] [2; 0; 0] 0 2 "A" H1 H2 eq_refl eq_refl).
Defined.

(** * Closed instances of the further properties *)

Ltac by_evaluation :=
  first [ reflexivity
        | vm_compute; first [ reflexivity | exact I | eexists; reflexivity ] ].

Ltac each_response :=
  repeat (constructor; [by_evaluation|]); constructor.

Lemma aggregate_positional_witness :
  aggregate sample_StringToNumber sample_NumberToString_rest
    [scale_1_3; mcq_A_B] [response 1 (VNum (num_of_Z 2))]
  = Ok [Scale (VStr "Q")
          [{| label := "1"; count := 0 |}; {| label := "2"; count := 1 |};
           {| label := "3"; count := 0 |}]
          (num_of_Z 1) (num_of_Z 3);
        Mcq (VStr "Q") ["A"; "B"] [0; 0]] /\
  length [Scale (VStr "Q")
            [{| label := "1"; count := 0 |}; {| label := "2"; count := 1 |};
             {| label := "3"; count := 0 |}]
            (num_of_Z 1) (num_of_Z 3);
          Mcq (VStr "Q") ["A"; "B"] [0; 0]]
  = length [scale_1_3; mcq_A_B].
Proof.
  split; [reflexivity|].
  exact (proj1 (aggregate_positional sample_StringToNumber sample_NumberToString_rest
                  [scale_1_3; mcq_A_B] [response 1 (VNum (num_of_Z 2))] _ eq_refl)).
Defined.

Lemma mcq_summary_counts_votes_witness :
  mcq_labels mcq_A_B = Ok ["A"; "B"] /\
  Forall (fun r => string_or_falsy (answer_at 0 r))
    [response 1 (VStr "A"); response 2 (VStr " B "); response 3 (VStr "A");
     response 4 (VStr "C"); unanswered] /\
  mcq_summary mcq_A_B 0
    (Some [response 1 (VStr "A"); response 2 (VStr " B "); response 3 (VStr "A");
           response 4 (VStr "C"); unanswered])
  = Ok (Mcq (VStr "Q") ["A"; "B"] [2; 1]).
Proof.
  assert (H1 : mcq_labels mcq_A_B = Ok ["A"; "B"]) by reflexivity.
  assert (H2 : Forall (fun r => string_or_falsy (answer_at 0 r))
                 [response 1 (VStr "A"); response 2 (VStr " B "); response 3 (VStr "A");
                  response 4 (VStr "C"); unanswered]) by each_response.
  split; [exact H1|]. split; [exact H2|].
  exact (mcq_summary_counts_votes mcq_A_B 0 _ ["A"; "B"] H1 H2).
Defined.

Lemma mcq_labels_of_options_witness :
  get mcq_A_blank "options" = Ok (VArr [VStr "A"; VStr " "]) /\
  (mcq_labels mcq_A_blank = Ok ["A"; EmptyString] <->
   Forall string_or_falsy [VStr "A"; VStr " "] /\
   ["A"; EmptyString] = map label_of [VStr "A"; VStr " "]).
Proof.
  assert (H1 : get mcq_A_blank "options" = Ok (VArr [VStr "A"; VStr " "])) by reflexivity.
  split; [exact H1|].
  exact (mcq_labels_of_options mcq_A_blank [VStr "A"; VStr " "] ["A"; EmptyString] H1).
Defined.

Lemma unanswered_counts_for_blank_label_witness :
  mcq_labels mcq_A_blank = Ok ["A"; EmptyString] /\
  Forall (fun r => string_or_falsy (answer_at 0 r)) [response 1 (VStr "A")] /\
  answers unanswered !! 0%nat = None /\
  indexOf ["A"; EmptyString] EmptyString = Z.of_nat 1 /\
  exists counts',
    mcq_summary mcq_A_blank 0 (Some ([response 1 (VStr "A")] ++ [unanswered])%list)
    = Ok (Mcq (member mcq_A_blank "text") ["A"; EmptyString] counts') /\
    counts' !! 1%nat = Some 1.
Proof.
  assert (H1 : mcq_labels mcq_A_blank = Ok ["A"; EmptyString]) by reflexivity.
  assert (H2 : Forall (fun r => string_or_falsy (answer_at 0 r)) [response 1 (VStr "A")])
    by each_response.
  assert (H3 : answers unanswered !! 0%nat = None) by reflexivity.
  assert (H4 : indexOf ["A"; EmptyString] EmptyString = Z.of_nat 1) by reflexivity.
  split; [exact H1|]. split; [exact H2|]. split; [exact H3|]. split; [exact H4|].
  destruct (unanswered_counts_for_blank_label mcq_A_blank 0 [response 1 (VStr "A")]
              unanswered ["A"; EmptyString] 1 H1 H2 H3 H4)
    as (c & _ & Hc & counts' & Hsum & Hat).
  exists counts'. split; [exact Hsum|].
  rewrite Hat. vm_compute in Hc. inversion Hc. reflexivity.
Defined.

Lemma aggregate_order_irrelevant_witness :
  Permutation [response 1 (VStr "A"); response 2 (VStr "B")]
              [response 2 (VStr "B"); response 1 (VStr "A")] /\
  aggregate sample_StringToNumber sample_NumberToString_rest [mcq_A_B]
    [response 1 (VStr "A"); response 2 (VStr "B")]
  = aggregate sample_StringToNumber sample_NumberToString_rest [mcq_A_B]
      [response 2 (VStr "B"); response 1 (VStr "A")].
Proof.
  assert (H : Permutation [response 1 (VStr "A"); response 2 (VStr "B")]
                          [response 2 (VStr "B"); response 1 (VStr "A")])
    by apply perm_swap.
  split; [exact H|].
  exact (aggregate_order_irrelevant sample_StringToNumber sample_NumberToString_rest
           [mcq_A_B] _ _ H).
Defined.

Lemma scale_summary_is_histogram_witness :
  get scale_1_3 "text" = Ok (VStr "Q") /\
  Forall (placeable sample_StringToNumber sample_NumberToString_rest 0)
    [response 1 (VNum (num_of_Z 2)); response 2 (VNum (num_of_Z 2));
     response 3 (VNum (num_of_Z 5)); unanswered] /\
  scale_summary sample_StringToNumber sample_NumberToString_rest scale_1_3 0
    (Some [response 1 (VNum (num_of_Z 2)); response 2 (VNum (num_of_Z 2));
           response 3 (VNum (num_of_Z 5)); unanswered])
  = Ok (Scale (VStr "Q")
          [{| label := "1"; count := 0 |}; {| label := "2"; count := 2 |};
           {| label := "3"; count := 0 |}]
          (num_of_Z 1) (num_of_Z 3)).
Proof.
  assert (H1 : get scale_1_3 "text" = Ok (VStr "Q")) by reflexivity.
  assert (H2 : Forall (placeable sample_StringToNumber sample_NumberToString_rest 0)
                 [response 1 (VNum (num_of_Z 2)); response 2 (VNum (num_of_Z 2));
                  response 3 (VNum (num_of_Z 5)); unanswered]) by each_response.
  split; [exact H1|]. split; [exact H2|].
  exact (scale_summary_is_histogram sample_StringToNumber sample_NumberToString_rest
           scale_1_3 0 _ (VStr "Q") (num_of_Z 1) (num_of_Z 3) 1 3
           H1 eq_refl eq_refl eq_refl eq_refl
           ltac:(apply Z.leb_le; reflexivity) ltac:(apply Z.leb_le; reflexivity)
           ltac:(apply Z.ltb_lt; reflexivity) ltac:(apply Z.ltb_lt; reflexivity) H2).
Defined.

Lemma create_then_read_back_witness :
  member (or_else survey_body (VObj [])) "questions" = VArr [scale_1_3] /\
  fst (post_survey "0123abcd-ffff" survey_body (initial true)) = Json_id "0123abcd".
Proof.
  assert (H : member (or_else survey_body (VObj [])) "questions" = VArr [scale_1_3])
    by reflexivity.
  split; [exact H|].
  exact (proj1 (create_then_read_back sample_StringToNumber sample_NumberToString_rest
                  "0123abcd-ffff" survey_body (initial true) [scale_1_3] H)).
Defined.

Lemma create_resets_responses_witness :
  member (or_else survey_body (VObj [])) "questions" = VArr [scale_1_3] /\
  responses
    (DB (snd (post_response 1 "0123abcd" (answers_body (VNum (num_of_Z 2)))
                (snd (post_survey "0123abcd-ffff" survey_body (initial true))))))
    !! "0123abcd"
  = Some [response 1 (VNum (num_of_Z 2))] /\
  responses
    (DB (snd (post_survey "0123abcd-0000" survey_body
                (snd (post_response 1 "0123abcd" (answers_body (VNum (num_of_Z 2)))
                        (snd (post_survey "0123abcd-ffff" survey_body (initial true))))))))
    !! "0123abcd"
  = Some [].
Proof.
  assert (H : member (or_else survey_body (VObj [])) "questions" = VArr [scale_1_3])
    by reflexivity.
  split; [exact H|]. split; [vm_compute; reflexivity|].
  exact (proj1 (create_resets_responses "0123abcd-0000" survey_body
                  (snd (post_response 1 "0123abcd" (answers_body (VNum (num_of_Z 2)))
                          (snd (post_survey "0123abcd-ffff" survey_body (initial true)))))
                  [scale_1_3] H)).
Defined.

Lemma submit_then_analytics_witness :
  surveys (DB (snd (post_survey "0123abcd-ffff" survey_body (initial true)))) !! "0123abcd"
  = Some {| id := "0123abcd"; title := VStr "T"; questions := [scale_1_3] |} /\
  responses (DB (snd (post_survey "0123abcd-ffff" survey_body (initial true)))) !! "0123abcd"
  = Some [] /\
  member (or_else (answers_body (VNum (num_of_Z 2))) (VObj [])) "answers"
  = VArr [VObj [("answer", VNum (num_of_Z 2))]] /\
  fst (get_analytics sample_StringToNumber sample_NumberToString_rest "0123abcd"
         (snd (post_response 1 "0123abcd" (answers_body (VNum (num_of_Z 2)))
                 (snd (post_survey "0123abcd-ffff" survey_body (initial true))))))
  = analytics_reply
      (aggregate sample_StringToNumber sample_NumberToString_rest [scale_1_3]
         ([] ++ [response 1 (VNum (num_of_Z 2))])%list).
Proof.
  assert (H1 : surveys (DB (snd (post_survey "0123abcd-ffff" survey_body (initial true))))
                 !! "0123abcd"
               = Some {| id := "0123abcd"; title := VStr "T"; questions := [scale_1_3] |})
    by (vm_compute; reflexivity).
  assert (H2 : responses (DB (snd (post_survey "0123abcd-ffff" survey_body (initial true))))
                 !! "0123abcd" = Some []) by (vm_compute; reflexivity).
  assert (H3 : member (or_else (answers_body (VNum (num_of_Z 2))) (VObj [])) "answers"
               = VArr [VObj [("answer", VNum (num_of_Z 2))]]) by reflexivity.
  split; [exact H1|]. split; [exact H2|]. split; [exact H3|].
  exact (f_equal fst
           (submit_then_analytics sample_StringToNumber sample_NumberToString_rest
              1 "0123abcd" (answers_body (VNum (num_of_Z 2)))
              (snd (post_survey "0123abcd-ffff" survey_body (initial true)))
              _ _ _ H1 H2 H3)).
Defined.

Lemma submit_to_stored_survey_succeeds_witness :
  surveys (DB (run sample_StringToNumber sample_NumberToString_rest
                 [Create "0123abcd-ffff" survey_body] (initial true))) !! "0123abcd"
  = Some {| id := "0123abcd"; title := VStr "T"; questions := [scale_1_3] |} /\
  member (or_else (answers_body (VNum (num_of_Z 2))) (VObj [])) "answers"
  = VArr [VObj [("answer", VNum (num_of_Z 2))]] /\
  fst (post_response 1 "0123abcd" (answers_body (VNum (num_of_Z 2)))
         (run sample_StringToNumber sample_NumberToString_rest
            [Create "0123abcd-ffff" survey_body] (initial true)))
  = Json_ok.
Proof.
  assert (H1 : surveys (DB (run sample_StringToNumber sample_NumberToString_rest
                              [Create "0123abcd-ffff" survey_body] (initial true)))
                 !! "0123abcd"
               = Some {| id := "0123abcd"; title := VStr "T"; questions := [scale_1_3] |})
    by (vm_compute; reflexivity).
  assert (H2 : member (or_else (answers_body (VNum (num_of_Z 2))) (VObj [])) "answers"
               = VArr [VObj [("answer", VNum (num_of_Z 2))]]) by reflexivity.
  split; [exact H1|]. split; [exact H2|].
  exact (submit_to_stored_survey_succeeds sample_StringToNumber sample_NumberToString_rest
           [Create "0123abcd-ffff" survey_body] true 1 "0123abcd"
           (answers_body (VNum (num_of_Z 2))) _ _ H1 H2).
Defined.

Lemma replies_ignore_the_file_witness :
  DB (initial true) = DB (initial false) /\
  fst (handle sample_StringToNumber sample_NumberToString_rest
         (Create "0123abcd-ffff" survey_body) (initial true))
  = fst (handle sample_StringToNumber sample_NumberToString_rest
           (Create "0123abcd-ffff" survey_body) (initial false)).
Proof.
  assert (H : DB (initial true) = DB (initial false)) by reflexivity.
  split; [exact H|].
  exact (proj1 (replies_ignore_the_file sample_StringToNumber sample_NumberToString_rest
                  (Create "0123abcd-ffff" survey_body) (initial true) (initial false) H)).
Defined.

Lemma restart_recovers_store_witness :
  Forall plain_request
    [Create "0123abcd-ffff" survey_body;
     Submit 1 "0123abcd" (answers_body (VNum (num_of_Z 2)))] /\
  DB (restart (run sample_StringToNumber sample_NumberToString_rest
                 [Create "0123abcd-ffff" survey_body;
                  Submit 1 "0123abcd" (answers_body (VNum (num_of_Z 2)))]
                 (initial true)))
  = DB (run sample_StringToNumber sample_NumberToString_rest
          [Create "0123abcd-ffff" survey_body;
           Submit 1 "0123abcd" (answers_body (VNum (num_of_Z 2)))]
          (initial true)).
Proof.
  assert (H : Forall plain_request
                [Create "0123abcd-ffff" survey_body;
                 Submit 1 "0123abcd" (answers_body (VNum (num_of_Z 2)))])
    by each_response.
  split; [exact H|].
  exact (restart_recovers_store sample_StringToNumber sample_NumberToString_rest _ H).
Defined.

Lemma post_response_succeeds_witness :
  consistent (snd (post_survey "0123abcd-ffff" survey_body (initial true))) /\
  surveys (DB (snd (post_survey "0123abcd-ffff" survey_body (initial true)))) !! "0123abcd"
  = Some {| id := "0123abcd"; title := VStr "T"; questions := [scale_1_3] |} /\
  member (or_else (answers_body (VNum (num_of_Z 2))) (VObj [])) "answers"
  = VArr [VObj [("answer", VNum (num_of_Z 2))]] /\
  fst (post_response 1 "0123abcd" (answers_body (VNum (num_of_Z 2)))
         (snd (post_survey "0123abcd-ffff" survey_body (initial true))))
  = Json_ok.
Proof.
  assert (H0 : consistent (snd (post_survey "0123abcd-ffff" survey_body (initial true))))
    by (apply post_survey_consistent, initial_consistent).
  assert (H1 : surveys (DB (snd (post_survey "0123abcd-ffff" survey_body (initial true))))
                 !! "0123abcd"
               = Some {| id := "0123abcd"; title := VStr "T"; questions := [scale_1_3] |})
    by (vm_compute; reflexivity).
  assert (H2 : member (or_else (answers_body (VNum (num_of_Z 2))) (VObj [])) "answers"
               = VArr [VObj [("answer", VNum (num_of_Z 2))]]) by reflexivity.
  split; [exact H0|]. split; [exact H1|]. split; [exact H2|].
  destruct (post_response_succeeds 1 "0123abcd" (answers_body (VNum (num_of_Z 2)))
              (snd (post_survey "0123abcd-ffff" survey_body (initial true)))
              _ _ H0 H1 H2) as (R & _ & Hok & _).
  exact Hok.
Defined.

Lemma missing_answer_skipped_witness :
  answers unanswered !! 0%nat = None /\
  scale_step sample_StringToNumber sample_NumberToString_rest (num_of_Z 1) 0
    [{| label := "1"; count := 0 |}] unanswered
  = Ok [{| label := "1"; count := 0 |}].
Proof.
  assert (H : answers unanswered !! 0%nat = None) by reflexivity.
  split; [exact H|].
  exact (proj1 (proj2 (proj2
           (missing_answer_skipped sample_StringToNumber sample_NumberToString_rest
              ["A"] (num_of_Z 1) 0 [0] [{| label := "1"; count := 0 |}] unanswered H)))).
Defined.

Lemma snippet_agrees_on_integers_witness :
  placeable sample_StringToNumber sample_NumberToString_rest 0
    (response 1 (VNum (num_of_Z 2))) /\
  snippet_scale_step sample_StringToNumber sample_NumberToString_rest (num_of_Z 1) 0
    [{| label := "1"; count := 0 |}; {| label := "2"; count := 0 |}]
    (response 1 (VNum (num_of_Z 2)))
  = scale_step sample_StringToNumber sample_NumberToString_rest (num_of_Z 1) 0
      [{| label := "1"; count := 0 |}; {| label := "2"; count := 0 |}]
      (response 1 (VNum (num_of_Z 2))).
Proof.
  assert (H : placeable sample_StringToNumber sample_NumberToString_rest 0
                (response 1 (VNum (num_of_Z 2)))) by by_evaluation.
  split; [exact H|].
  exact (snippet_agrees_on_integers sample_StringToNumber sample_NumberToString_rest
           (num_of_Z 1) 0 _ _ H).
Defined.

(** The answer 2.5 with [min = 1]: the rounding variant counts it in
    the bin of 3. *)
Lemma snippet_step_never_throws_witness :
  num_to_Z (num_of_Z 1) = Some 1 /\
  ToNumber sample_StringToNumber sample_NumberToString_rest
    (answer_at 0 (response 1 (VNum (Fin (5 # 2))))) = Ok (Fin (5 # 2)) /\
  snippet_scale_step sample_StringToNumber sample_NumberToString_rest (num_of_Z 1) 0
    [{| label := "1"; count := 0 |}; {| label := "2"; count := 0 |};
     {| label := "3"; count := 0 |}]
    (response 1 (VNum (Fin (5 # 2))))
  = Ok [{| label := "1"; count := 0 |}; {| label := "2"; count := 0 |};
        {| label := "3"; count := 1 |}].
Proof.
  assert (H1 : num_to_Z (num_of_Z 1) = Some 1) by reflexivity.
  assert (H2 : ToNumber sample_StringToNumber sample_NumberToString_rest
                 (answer_at 0 (response 1 (VNum (Fin (5 # 2))))) = Ok (Fin (5 # 2)))
    by reflexivity.
  split; [exact H1|]. split; [exact H2|].
  destruct (snippet_step_never_throws sample_StringToNumber sample_NumberToString_rest
              (num_of_Z 1) 1 0
              [{| label := "1"; count := 0 |}; {| label := "2"; count := 0 |};
               {| label := "3"; count := 0 |}]
              (response 1 (VNum (Fin (5 # 2)))) (Fin (5 # 2)) H1 H2) as (bins' & Hstep & _).
  rewrite Hstep. vm_compute in Hstep. inversion Hstep. reflexivity.
Defined.



Lemma submit_survives_classifier_failure_witness :
  put_raw_error env_classifier_down = None /\
  (forall text, analyzeEmotion env_classifier_down text = None) /\
  snd (submit sample_NumberToString_rest env_classifier_down
         (VObj [("difficulty", VStr "3"); ("feelings", VStr "fine")]))
  = Submitted "1700000000000" "responses/1700000000000.json" false.
Proof.
  assert (H1 : put_raw_error env_classifier_down = None) by reflexivity.
  assert (H2 : forall text, analyzeEmotion env_classifier_down text = None)
    by (intros text; reflexivity).
  split; [exact H1|]. split; [exact H2|].
  exact (proj1 (submit_survives_classifier_failure sample_NumberToString_rest
                  env_classifier_down
                  (VObj [("difficulty", VStr "3"); ("feelings", VStr "fine")]) H1 H2)).
Defined.

Lemma submit_analyzed_iff_result_written_witness :
  snd (submit sample_NumberToString_rest env_classifier_joy
         (VObj [("difficulty", VStr "3"); ("feelings", VStr "fine")]))
  = Submitted "1700000000000" "responses/1700000000000.json" true /\
  (true = true <->
   exists ts emotion,
     PutObject ("results/" ++ "1700000000000" ++ ".json")
       (Analysis "1700000000000" ts emotion)
       ∈ fst (submit sample_NumberToString_rest env_classifier_joy
                (VObj [("difficulty", VStr "3"); ("feelings", VStr "fine")]))).
Proof.
  assert (H : snd (submit sample_NumberToString_rest env_classifier_joy
                     (VObj [("difficulty", VStr "3"); ("feelings", VStr "fine")]))
              = Submitted "1700000000000" "responses/1700000000000.json" true)
    by (vm_compute; reflexivity).
  split; [exact H|].
  exact (proj2 (submit_analyzed_iff_result_written sample_NumberToString_rest
                  env_classifier_joy
                  (VObj [("difficulty", VStr "3"); ("feelings", VStr "fine")])
                  _ _ _ H)).
Defined.

Lemma submit_without_feelings_skips_classifier_witness :
  truthy (member (or_else (VObj [("difficulty", VStr "3")]) (VObj [])) "feelings") = false /\
  AnalyzeEmotion "fine"
    ∉ fst (submit sample_NumberToString_rest env_classifier_joy
             (VObj [("difficulty", VStr "3")])).
Proof.
  assert (H : truthy (member (or_else (VObj [("difficulty", VStr "3")]) (VObj []))
                        "feelings") = false) by reflexivity.
  split; [exact H|].
  exact (submit_without_feelings_skips_classifier sample_NumberToString_rest
           env_classifier_joy (VObj [("difficulty", VStr "3")]) H "fine").
Defined.

Lemma forward_to_normalised_witness :
  "d"%char <> "/"%char /\
  forward_to ("http://backen" ++ String "d" (slashes 2)) "files"
  = Some ("http://backen" ++ String "d" ("/" ++ "files")).
Proof.
  assert (H : "d"%char <> "/"%char) by discriminate.
  split; [exact H|].
  exact (proj1 (forward_to_normalised "http://backen" "d" 2 "files" H)).
Defined.
